(** * Datafeed adapters of klinecharts-pro: a shallow embedding

    The adapters [DefaultDatafeed], [LocalDataFeeds], [OKXDataFeeds] and
    [CCXTDataFeeds] implement one contract ([searchSymbols],
    [getHistoryKLineData], [subscribe], [unsubscribe]).  This development
    embeds their symbol and period normalisation, their historical fetch and
    their subscription state machines, and states the properties of the
    specification over them.

    Conventions.  JavaScript strings are [string]s (the tickers and units the
    adapters handle are ASCII); integer-valued numbers (multipliers,
    millisecond timestamps) are [Z]; prices and volumes are IEEE doubles
    ([float]); [undefined] is [None]; a callback is a name ([nat]) and every
    call of it is appended to a delivery log. *)

From Stdlib Require Import ZArith Bool Ascii String PrimFloat Sorted Lia.
From stdpp Require Import base option list sets strings pretty.

Local Open Scope Z_scope.

(** ** The platform's string functions *)

Module JS.

(** [s.startsWith(p)] *)
Definition startsWith (s p : string) : bool := String.prefix p s.

(** [s.includes(sub)] *)
Fixpoint includes (s sub : string) : bool :=
  String.prefix sub s ||
  match s with
  | EmptyString => false
  | String _ s' => includes s' sub
  end.

(** [s.endsWith(p)] *)
Fixpoint endsWith (s p : string) : bool :=
  String.eqb s p ||
  match s with
  | EmptyString => false
  | String _ s' => endsWith s' p
  end.

Fixpoint dropn (n : nat) (s : string) : string :=
  match n, s with
  | O, _ => s
  | S _, EmptyString => EmptyString
  | S k, String _ s' => dropn k s'
  end.

(** [s.replace(/^p/, '')] for a literal [p] *)
Definition stripPrefix (p s : string) : string :=
  if String.prefix p s then dropn (String.length p) s else s.

(** [s.replace(/p$/, '')] for a literal [p] *)
Fixpoint stripSuffix (p s : string) : string :=
  if String.eqb s p then EmptyString
  else match s with
       | EmptyString => EmptyString
       | String c s' => String c (stripSuffix p s')
       end.

(** [s.replace(pat, rep)] with a string pattern: the first occurrence only *)
Fixpoint replaceFirst (pat rep s : string) : string :=
  if String.prefix pat s then rep +:+ dropn (String.length pat) s
  else match s with
       | EmptyString => EmptyString
       | String c s' => String c (replaceFirst pat rep s')
       end.

Definition consHead (c : ascii) (parts : list string) : list string :=
  match parts with
  | [] => [String c EmptyString]
  | p :: ps => String c p :: ps
  end.

(** [s.split(sep)] for a non-empty separator: the occurrences of [sep] are
    taken from the left and do not overlap; [skip] counts the characters
    of a matched separator that are still to be passed over. *)
Fixpoint splitFrom (sep : string) (skip : nat) (s : string) : list string :=
  match s with
  | EmptyString => [EmptyString]
  | String c s' =>
      match skip with
      | S k => splitFrom sep k s'
      | O =>
          if String.prefix sep s
          then EmptyString :: splitFrom sep (String.length sep - 1) s'
          else consHead c (splitFrom sep 0 s')
      end
  end.

Definition split (sep s : string) : list string := splitFrom sep 0 s.

Definition upper (c : ascii) : ascii :=
  let n := nat_of_ascii c in
  if ((97 <=? n) && (n <=? 122))%nat then ascii_of_nat (n - 32) else c.

(** [s.toUpperCase()] *)
Fixpoint toUpperCase (s : string) : string :=
  match s with
  | EmptyString => EmptyString
  | String c s' => String (upper c) (toUpperCase s')
  end.

(** A template literal's rendering of an integer-valued number, in full
    digits: the exponent form that begins at 1e21 is left out. *)
Definition show (z : Z) : string := pretty z.

Definition isSpace (c : ascii) : bool :=
  let n := nat_of_ascii c in
  ((n =? 32) || ((9 <=? n) && (n <=? 13)))%nat.

Fixpoint trimStart (s : string) : string :=
  match s with
  | String c s' => if isSpace c then trimStart s' else s
  | EmptyString => EmptyString
  end.

Definition digitOf (c : ascii) : option Z :=
  let n := nat_of_ascii c in
  if ((48 <=? n) && (n <=? 57))%nat then Some (Z.of_nat (n - 48)) else None.

Fixpoint digits (acc : option Z) (s : string) : option Z :=
  match s with
  | EmptyString => acc
  | String c s' =>
      match digitOf c with
      | Some d => digits (Some (10 * default 0 acc + d)) s'
      | None => acc
      end
  end.

(** [parseInt(s)] on decimal input; [None] is [NaN] *)
Definition parseInt (s : string) : option Z :=
  match trimStart s with
  | String "-" s' => Z.opp <$> digits None s'
  | String "+" s' => digits None s'
  | s' => digits None s'
  end.

(** Truthiness of an optional string: [undefined] and [''] are falsy *)
Definition orElse (o : option string) (d : string) : string :=
  match o with
  | Some s => if String.eqb s EmptyString then d else s
  | None => d
  end.

Definition lower (c : ascii) : ascii :=
  let n := nat_of_ascii c in
  if ((65 <=? n) && (n <=? 90))%nat then ascii_of_nat (n + 32) else c.

(** [s.toLowerCase()] *)
Fixpoint toLowerCase (s : string) : string :=
  match s with
  | EmptyString => EmptyString
  | String c s' => String (lower c) (toLowerCase s')
  end.

(** A possibly undefined string in a condition: [undefined] and [''] are
    falsy. *)
Definition given (o : option string) : bool :=
  match o with
  | Some s => negb (String.eqb s EmptyString)
  | None => false
  end.

(** [a || b] between possibly undefined strings *)
Definition orOpt (a b : option string) : option string :=
  if given a then a else b.

(** A possibly undefined string inside a template literal *)
Definition shown (o : option string) : string :=
  match o with
  | Some s => s
  | None => "undefined"
  end.

(** [o?.toLowerCase().includes(sub)] in a condition *)
Definition includesLower (o : option string) (sub : string) : bool :=
  match o with
  | Some s => includes (toLowerCase s) sub
  | None => false
  end.

(** JavaScript's [%] on integers: the remainder has the sign of the
    dividend. *)
Definition remainder (a b : Z) : Z := Z.rem a b.

End JS.

(** ** The chart's value objects *)

(** Modelled from the spec: the declarations of [./types] ([SymbolInfo],
    [Period], [DatafeedSubscribeCallback]) are missing; the fields are the
    ones the adapters read. *)
Record SymbolInfo := mkSymbol {
  ticker : string;
  shortName : option string;
  priceCurrency : option string;
  market : option string
}.

Record Period := mkPeriod {
  multiplier : Z;
  timespan : string;
  text : string
}.

(** [KLineData] of the charting library: one OHLCV bar *)
Record KLineData := mkBar {
  timestamp : Z;
  open : float;
  high : float;
  low : float;
  close : float;
  volume : float;
  turnover : float
}.

(** A subscriber callback is known by its name. *)
Definition callback := nat.

(** [symbol.priceCurrency?.toUpperCase() || 'USDT'] *)
Definition quoteOf (symbol : SymbolInfo) : string :=
  JS.orElse (JS.toUpperCase <$> priceCurrency symbol) "USDT".

(** ** Failure, the network and sockets *)

(** [new Error(message)] *)
Record Error := mkError { message : string }.

(** How a promise settles *)
Inductive Outcome (A : Type) : Type :=
  | Resolved (a : A)
  | Rejected (e : Error).
Arguments Resolved {A} a.
Arguments Rejected {A} e.

(** What [fetch] resolves with; [json] is the value [response.json()] parses
    from the body, [None] when the body is not JSON of the expected shape. *)
Record Response (A : Type) := mkResponse {
  ok : bool;
  status : Z;
  statusText : string;
  bodyText : string;
  json : option A
}.
Arguments mkResponse {A}.
Arguments ok {A}.
Arguments status {A}.
Arguments statusText {A}.
Arguments bodyText {A}.
Arguments json {A}.

(** The upstream's reaction to one request: no answer at all ([fetch]
    rejects) or a response. *)
Inductive Answer (A : Type) : Type :=
  | Unreachable
  | Responds (r : Response A).
Arguments Unreachable {A}.
Arguments Responds {A} r.

(** One request, by its path and its query parameters *)
Record Request := mkRequest {
  path : string;
  query : list (string * string)
}.

(** The network an adapter talks to: the answers the upstream will give, in
    order, and the requests made so far. *)
Record Net (A : Type) := mkNet {
  answers : list (Answer A);
  requests : list Request
}.
Arguments mkNet {A}.
Arguments answers {A}.
Arguments requests {A}.

(** Asynchronous code over a world [W]: a computation resolves or rejects and
    leaves a world behind. *)
Definition IO (W A : Type) : Type := W -> Outcome A * W.

Definition ret {W A} (a : A) : IO W A := fun w => (Resolved a, w).

Definition throw {W A} (e : Error) : IO W A := fun w => (Rejected e, w).

Definition bind {W A B} (m : IO W A) (k : A -> IO W B) : IO W B :=
  fun w =>
    match m w with
    | (Resolved a, w') => k a w'
    | (Rejected e, w') => (Rejected e, w')
    end.

(** [try { m } catch (error) { h error }] *)
Definition tryCatch {W A} (m : IO W A) (h : Error -> IO W A) : IO W A :=
  fun w =>
    match m w with
    | (Resolved a, w') => (Resolved a, w')
    | (Rejected e, w') => h e w'
    end.

Notation "'let*' x ':=' m 'in' k" := (bind m (fun x => k))
  (at level 10, x name, m at level 100, k at level 200).

(** [await fetch(url)] *)
Definition fetch {A} (req : Request) : IO (Net A) (Response A) :=
  fun net =>
    let net' rest := mkNet rest (requests net ++ [req]) in
    match answers net with
    | [] => (Rejected (mkError "Failed to fetch"), net' [])
    | Unreachable :: rest => (Rejected (mkError "Failed to fetch"), net' rest)
    | Responds r :: rest => (Resolved r, net' rest)
    end.

(** [await response.json()] *)
Definition parseJson {W A} (r : Response A) : IO W A :=
  match json r with
  | Some a => ret a
  | None => throw (mkError "Unexpected token in JSON")
  end.

(** [Math.floor(ms / 1000)] *)
Definition toSeconds (ms : Z) : Z := ms / 1000.

(** The range of [Date], in milliseconds around the epoch *)
Definition validTime (ms : Z) : bool := Z.abs ms <=? 8640000000000000.

(** [new Date(ms).toISOString()], which the adapters evaluate for their
    logs: a [RangeError] outside the range of [Date].  The text itself only
    goes to the console. *)
Definition toISOString {W} (ms : Z) : IO W unit :=
  if validTime ms then ret () else throw (mkError "Invalid time value").

(** A double in a condition: [0], [-0] and [NaN] are falsy. *)
Definition truthy (x : float) : bool := negb (is_zero x || is_nan x).

(** [WebSocket.readyState] *)
Inductive ReadyState := CONNECTING | OPEN | CLOSING | CLOSED.

Definition ReadyState_eqb (a b : ReadyState) : bool :=
  match a, b with
  | CONNECTING, CONNECTING | OPEN, OPEN | CLOSING, CLOSING | CLOSED, CLOSED => true
  | _, _ => false
  end.

(** A socket: its state, what its handlers captured when they were
    installed ([K]), and the frames sent on it ([F]). *)
Record Socket (K F : Type) := mkSocket {
  readyState : ReadyState;
  captured : K;
  sent : list F
}.
Arguments mkSocket {K F}.
Arguments readyState {K F}.
Arguments captured {K F}.
Arguments sent {K F}.

Section Sockets.
Context {K F : Type}.

(** Sockets are known by their position in the list of all sockets that
    the adapter has created. *)
Definition stateOf (socks : list (Socket K F)) (i : nat) : ReadyState :=
  match socks !! i with
  | Some s => readyState s
  | None => CLOSED
  end.

Definition setReadyState (r : ReadyState) (s : Socket K F) : Socket K F :=
  mkSocket r (captured s) (sent s).

Definition setCaptured (k : K) (s : Socket K F) : Socket K F :=
  mkSocket (readyState s) k (sent s).

(** [ws.close()]: a socket that is connecting or open starts closing *)
Definition wsClose (i : nat) (socks : list (Socket K F)) : list (Socket K F) :=
  match socks !! i with
  | Some s =>
      match readyState s with
      | CONNECTING | OPEN => <[i := setReadyState CLOSING s]> socks
      | CLOSING | CLOSED => socks
      end
  | None => socks
  end.

(** [ws.send(frame)]: throws while connecting ([None]), transmits when
    open, and drops the frame once the socket is closing or closed. *)
Definition wsSend (i : nat) (f : F) (socks : list (Socket K F))
  : option (list (Socket K F)) :=
  match socks !! i with
  | Some s =>
      match readyState s with
      | CONNECTING => None
      | OPEN => Some (<[i := mkSocket OPEN (captured s) (sent s ++ [f])]> socks)
      | CLOSING | CLOSED => Some socks
      end
  | None => Some socks
  end.

(** [this._ws?.close()] *)
Definition closeCurrent (ws : option nat) (socks : list (Socket K F))
  : list (Socket K F) :=
  match ws with
  | Some i => wsClose i socks
  | None => socks
  end.

Definition openSockets (socks : list (Socket K F)) : list nat :=
  List.filter (fun i => ReadyState_eqb (stateOf socks i) OPEN) (seq 0 (length socks)).

(** Connecting or open: a connection that is or will be in use *)
Definition liveSockets (socks : list (Socket K F)) : list nat :=
  List.filter (fun i => ReadyState_eqb (stateOf socks i) OPEN
                     || ReadyState_eqb (stateOf socks i) CONNECTING)
              (seq 0 (length socks)).

(** No socket is in a transient state. *)
Definition socketsSettled (socks : list (Socket K F)) : bool :=
  forallb (fun s => match readyState s with
                    | OPEN | CLOSED => true
                    | CONNECTING | CLOSING => false
                    end) socks.
End Sockets.

(** One call of a subscriber callback: the callback, the socket whose
    handler made the call, and the bar. *)
Record Delivery := mkDelivery {
  receiver : callback;
  via : nat;
  bar : KLineData
}.

(** [a === b] between a possibly undefined field and a string *)
Definition isString (o : option string) (s : string) : bool :=
  match o with
  | Some x => String.eqb x s
  | None => false
  end.

(** A [SymbolInfo] as [searchSymbols] builds it, with all its fields.  The
    precisions are of type [P]: each adapter computes them in its own way. *)
Record SymbolEntry (P : Type) := mkEntry {
  entryTicker : string;
  entryName : string;
  entryShortName : option string;
  entryMarket : string;
  entryExchange : string;
  entryPriceCurrency : option string;
  entryType : string;
  pricePrecision : P;
  volumePrecision : P
}.
Arguments mkEntry {P}.
Arguments entryTicker {P}.
Arguments entryName {P}.
Arguments entryShortName {P}.
Arguments entryMarket {P}.
Arguments entryExchange {P}.
Arguments entryPriceCurrency {P}.
Arguments entryType {P}.
Arguments pricePrecision {P}.
Arguments volumePrecision {P}.

(** ** The adapters

    Each module holds one adapter: its period and symbol normalisation, its
    historical fetch, and its subscription state machine with the handlers
    that it installs. *)

(** *** [LocalDataFeeds] *)

Module Local.

Definition _convertPeriodToTimeframe (period : Period) : string :=
  let m := multiplier period in
  let ts := timespan period in
  if String.eqb ts "minute" then JS.show m +:+ "m"
  else if String.eqb ts "hour" then JS.show m +:+ "h"
  else if String.eqb ts "day" then JS.show m +:+ "d"
  else if String.eqb ts "week" then JS.show (m * 7) +:+ "d"
  else if String.eqb ts "month" then JS.show (m * 30) +:+ "d"
  else "15m".

(** [`${symbol.ticker}_${timeframe}`] *)
Definition channelOf (symbol : SymbolInfo) (period : Period) : string :=
  ticker symbol +:+ "_" +:+ _convertPeriodToTimeframe period.

(** **** Historical fetch *)

Definition klinesRequest (symbol : SymbolInfo) (timeframe : string)
    (from to : Z) : Request :=
  mkRequest "/api/klines"
    [("symbol", ticker symbol); ("timeframe", timeframe);
     ("from_time", JS.show from); ("to_time", JS.show to)].

Definition getHistoryKLineData (symbol : SymbolInfo) (period : Period)
    (from to : Z) : IO (Net (list KLineData)) (list KLineData) :=
  tryCatch
    (let timeframe := _convertPeriodToTimeframe period in
     let* response := fetch (klinesRequest symbol timeframe from to) in
     if negb (ok response)
     then throw (mkError ("获取历史数据失败: " +:+ statusText response))
     else
       let* klines := parseJson response in
       ret klines)
    (fun _ => ret []).

(** **** Subscription *)

(** The closure of the deferred close that [subscribe] schedules *)
Record Timer := mkTimer {
  timerSymbol : SymbolInfo;
  timerPeriod : Period;
  timerChannel : string
}.

(** The adapter's fields, and around them the sockets it has created (each
    with the channel its handlers captured), the pending timeouts and the
    calls made to subscriber callbacks.  [wsThrows] tells whether
    [new WebSocket(wsUrl)] throws for the adapter's base URL. *)
Record State := mkState {
  _ws : option nat;
  _currentChannel : option string;
  _callback : option callback;
  sockets : list (Socket string unit);
  timers : list Timer;
  delivered : list Delivery;
  wsThrows : bool
}.

Definition init (throws : bool) : State :=
  mkState None None None [] [] [] throws.

Definition unsubscribe (symbol : SymbolInfo) (period : Period) (st : State)
  : State :=
  match _ws st with
  | Some i =>
      let channel := channelOf symbol period in
      if isString (_currentChannel st) channel then
        let socks :=
          match stateOf (sockets st) i with
          | OPEN | CONNECTING => wsClose i (sockets st)
          | CLOSING | CLOSED => sockets st
          end in
        mkState None None None socks (timers st) (delivered st) (wsThrows st)
      else st
  | None => st
  end.

Definition subscribe (symbol : SymbolInfo) (period : Period) (cb : callback)
    (st : State) : State :=
  let channel := channelOf symbol period in
  let sameAndOpen :=
    match _ws st with
    | Some i => isString (_currentChannel st) channel
                && ReadyState_eqb (stateOf (sockets st) i) OPEN
    | None => false
    end in
  if sameAndOpen then
    mkState (_ws st) (_currentChannel st) (Some cb)
            (sockets st) (timers st) (delivered st) (wsThrows st)
  else
    let st1 :=
      match _ws st with
      | Some i =>
          match stateOf (sockets st) i with
          | OPEN | CLOSING => unsubscribe symbol period st
          | CONNECTING | CLOSED =>
              mkState (_ws st) (_currentChannel st) (_callback st) (sockets st)
                      (timers st ++ [mkTimer symbol period channel])
                      (delivered st) (wsThrows st)
          end
      | None => st
      end in
    if wsThrows st1 then
      mkState None None (Some cb)
              (sockets st1) (timers st1) (delivered st1) (wsThrows st1)
    else
      mkState (Some (length (sockets st1))) (Some channel) (Some cb)
              (sockets st1 ++ [mkSocket CONNECTING channel []])
              (timers st1) (delivered st1) (wsThrows st1).

Definition setSockets (socks : list (Socket string unit)) (st : State) : State :=
  mkState (_ws st) (_currentChannel st) (_callback st) socks
          (timers st) (delivered st) (wsThrows st).

(** [ws.onopen] of socket [i], whose handlers captured [channel] *)
Definition onopen (i : nat) (channel : string) (st : State) : State :=
  if isString (_currentChannel st) channel then st
  else setSockets (wsClose i (sockets st)) st.

(** [ws.onmessage]; [data] is [None] when [JSON.parse(event.data)] throws *)
Definition onmessage (i : nat) (channel : string) (data : option KLineData)
    (st : State) : State :=
  if negb (isString (_currentChannel st) channel) then st
  else
    match data, _callback st with
    | Some k, Some cb =>
        mkState (_ws st) (_currentChannel st) (_callback st) (sockets st)
                (timers st) (delivered st ++ [mkDelivery cb i k]) (wsThrows st)
    | _, _ => st
    end.

(** [ws.onclose] *)
Definition onclose (channel : string) (st : State) : State :=
  if isString (_currentChannel st) channel then
    mkState None None (_callback st) (sockets st)
            (timers st) (delivered st) (wsThrows st)
  else st.

(** The callback given to [setTimeout(..., 100)] *)
Definition ontimeout (t : Timer) (st : State) : State :=
  match _ws st with
  | Some _ =>
      if negb (isString (_currentChannel st) (timerChannel t))
      then unsubscribe (timerSymbol t) (timerPeriod t) st
      else st
  | None => st
  end.

(** What can happen to an adapter: a call of the host, or an event of a
    socket or of a timer.  An event that the platform cannot raise in the
    current state (opening a socket that is not connecting, a message on a
    socket that is not open, closing a closed socket, a timer that is not
    pending) changes nothing. *)
Inductive Event :=
  | Subscribe (symbol : SymbolInfo) (period : Period) (cb : callback)
  | Unsubscribe (symbol : SymbolInfo) (period : Period)
  | SocketOpened (i : nat)
  | SocketMessage (i : nat) (data : option KLineData)
  | SocketError (i : nat)
  | SocketClosed (i : nat)
  | TimerFired (k : nat).

Definition step (st : State) (ev : Event) : State :=
  match ev with
  | Subscribe symbol period cb => subscribe symbol period cb st
  | Unsubscribe symbol period => unsubscribe symbol period st
  | SocketOpened i =>
      match sockets st !! i with
      | Some s =>
          match readyState s with
          | CONNECTING =>
              onopen i (captured s)
                (setSockets (<[i := setReadyState OPEN s]> (sockets st)) st)
          | _ => st
          end
      | None => st
      end
  | SocketMessage i data =>
      match sockets st !! i with
      | Some s =>
          match readyState s with
          | OPEN => onmessage i (captured s) data st
          | _ => st
          end
      | None => st
      end
  | SocketError _ => st
  | SocketClosed i =>
      match sockets st !! i with
      | Some s =>
          match readyState s with
          | CLOSED => st
          | _ =>
              onclose (captured s)
                (setSockets (<[i := setReadyState CLOSED s]> (sockets st)) st)
          end
      | None => st
      end
  | TimerFired k =>
      match timers st !! k with
      | Some t =>
          ontimeout t
            (mkState (_ws st) (_currentChannel st) (_callback st) (sockets st)
                     (delete k (timers st)) (delivered st) (wsThrows st))
      | None => st
      end
  end.

Definition run (st : State) (evs : list Event) : State :=
  fold_left step evs st.

(** Events of the environment, as opposed to calls of the host *)
Definition isEnvironment (ev : Event) : bool :=
  match ev with
  | Subscribe _ _ _ | Unsubscribe _ _ => false
  | _ => true
  end.

(** Nothing is pending: no socket is connecting or closing and no timeout
    is waiting. *)
Definition settled (st : State) : bool :=
  socketsSettled (sockets st) && bool_decide (timers st = []).

(** The situation after [subscribe] for channel [chA] and, before its
    socket has opened, [subscribe] for channel [chB]: two sockets, the
    first not open, the adapter on [chB] or on no channel, and every
    delivery made through the second socket. *)
Definition switched (chA chB : string) (st : State) : Prop :=
  map captured (sockets st) = [chA; chB] /\
  stateOf (sockets st) 0 <> OPEN /\
  (_currentChannel st = Some chB \/ _currentChannel st = None) /\
  Forall (fun d => via d = 1%nat) (delivered st) /\
  Forall (fun t => timerChannel t = channelOf (timerSymbol t) (timerPeriod t))
         (timers st).

(** **** Search *)

(** [`${base}/api/symbols/search${search ? `?q=${...}` : ''}`] *)
Definition searchRequest (search : option string) : Request :=
  mkRequest "/api/symbols/search"
    (if JS.given search then [("q", default "" search)] else []).

(** The server's list is returned as it is. *)
Definition searchSymbols {P} (search : option string)
  : IO (Net (list (SymbolEntry P))) (list (SymbolEntry P)) :=
  tryCatch
    (let* response := fetch (searchRequest search) in
     if negb (ok response)
     then throw (mkError ("搜索标的失败: " +:+ statusText response))
     else
       let* symbols := parseJson response in
       ret symbols)
    (fun _ => ret []).

End Local.

(** *** [OKXDataFeeds] *)

Module OKX.

Definition _convertTickerFormat (ticker quoteCurrency : string) : string :=
  if JS.includes ticker "-" then ticker
  else
    let parts :=
      JS.stripSuffix "USDT" (JS.stripSuffix "USD" (JS.stripPrefix "X." ticker)) in
    parts +:+ "-" +:+ quoteCurrency.

Definition minuteValues : list Z := [1; 3; 5; 15; 30].

(** The table [supportedPeriods], read at a key *)
Definition supportedPeriods (timespan : string) : option (list Z) :=
  if String.eqb timespan "minute" then Some minuteValues
  else if String.eqb timespan "hour" then Some [1; 2; 4; 6; 12]
  else if String.eqb timespan "day" then Some [1]
  else if String.eqb timespan "week" then Some [1]
  else if String.eqb timespan "month" then Some [1]
  else None.

(** [supportedPeriods[timespan] || supportedPeriods.minute] *)
Definition supportedValues (timespan : string) : list Z :=
  default minuteValues (supportedPeriods timespan).

(** The loop from the largest supported value down, leaving at the first
    one that the multiplier reaches, then the floor at the smallest. *)
Definition actualMultiplier (period : Period) : Z :=
  let m := multiplier period in
  let values := supportedValues (timespan period) in
  let found := default m (List.find (fun v => v <=? m) (rev values)) in
  match values with
  | v0 :: _ => if found <? v0 then v0 else found
  | [] => found
  end.

Definition suffixOf (timespan : string) : option string :=
  if String.eqb timespan "minute" then Some "m"
  else if String.eqb timespan "hour" then Some "H"
  else if String.eqb timespan "day" then Some "D"
  else if String.eqb timespan "week" then Some "W"
  else if String.eqb timespan "month" then Some "M"
  else None.

Definition _convertPeriodToBar (period : Period) : string :=
  match suffixOf (timespan period) with
  | Some sfx => JS.show (actualMultiplier period) +:+ sfx
  | None => "1m"
  end.

(** [`candles${bar}`] *)
Definition channelOf (period : Period) : string :=
  "candles" +:+ _convertPeriodToBar period.

(** **** Historical fetch *)

(** One candle of the upstream, an array of numerals
    [[ts, o, h, l, c, vol, volCcy, ...]], with its entries as [parseInt]
    and [parseFloat] read them. *)
Record Candle := mkCandle {
  c_ts : Z;
  c_open : float;
  c_high : float;
  c_low : float;
  c_close : float;
  c_vol : float;
  c_volCcy : float
}.

(** The body of the upstream's answer *)
Record Body := mkBody {
  code : string;
  msg : string;
  data : option (list Candle)
}.

Definition toKLineData (candle : Candle) : KLineData :=
  mkBar (c_ts candle) (c_open candle) (c_high candle) (c_low candle)
        (c_close candle) (c_vol candle)
        (if truthy (c_volCcy candle) then c_volCcy candle
         else PrimFloat.mul (c_vol candle) (c_close candle)).

Definition candlesRequest (instId bar : string) (after before : Z) : Request :=
  mkRequest "https://www.okx.com/api/v5/market/candles"
    [("instId", instId); ("bar", bar); ("after", JS.show after);
     ("before", JS.show before); ("limit", "300")].

Definition getHistoryKLineData (symbol : SymbolInfo) (period : Period)
    (from to : Z) : IO (Net Body) (list KLineData) :=
  let instId := _convertTickerFormat (ticker symbol) (quoteOf symbol) in
  let bar := _convertPeriodToBar period in
  let after := toSeconds from in
  let before := toSeconds to in
  let* _ := toISOString (after * 1000) in
  let* _ := toISOString (before * 1000) in
  tryCatch
    (let* response := fetch (candlesRequest instId bar after before) in
     if negb (ok response)
     then throw (mkError ("API request failed: " +:+ JS.show (status response)
                          +:+ " " +:+ statusText response))
     else
       let* result := parseJson response in
       if negb (String.eqb (code result) "0")
       then throw (mkError ("API error: " +:+ msg result))
       else ret (rev (map toKLineData (default [] (data result)))))
    (fun error => throw error).

(** **** Subscription *)

(** What the handlers of a socket captured *)
Record Closure := mkClosure {
  channel : string;
  instId : string;
  pendingInstId : string;
  pendingCallback : callback
}.

(** A frame [{op, args: [{channel, instId}]}] *)
Record Frame := mkFrame {
  op : string;
  frameChannel : string;
  frameInstId : string
}.

(** A parsed message of the socket *)
Record Message := mkMessage {
  event : option string;
  arg : option (string * string);
  payload : option (list (option Candle))
}.

Record State := mkState {
  _prevSymbolMarket : option string;
  _ws : option nat;
  _currentChannel : option string;
  sockets : list (Socket Closure Frame);
  delivered : list Delivery
}.

Definition init : State := mkState None None None [] [].

Definition option_eqb (a b : option string) : bool :=
  match a, b with
  | Some x, Some y => String.eqb x y
  | None, None => true
  | _, _ => false
  end.

Definition subscribe (symbol : SymbolInfo) (period : Period) (cb : callback)
    (st : State) : State :=
  let instId0 := _convertTickerFormat (ticker symbol) (quoteOf symbol) in
  let bar := _convertPeriodToBar period in
  let channel := "candles" +:+ bar in
  let instId :=
    if negb (JS.includes instId0 "-")
    then JS.orElse (shortName symbol) "BTC" +:+ "-" +:+ quoteOf symbol
    else instId0 in
  let isOpen :=
    match _ws st with
    | Some i => ReadyState_eqb (stateOf (sockets st) i) OPEN
    | None => false
    end in
  if negb (option_eqb (_prevSymbolMarket st) (market symbol)) || negb isOpen
  then
    let socks := closeCurrent (_ws st) (sockets st) in
    mkState (market symbol) (Some (length socks)) (Some channel)
            (socks ++ [mkSocket CONNECTING (mkClosure channel instId instId cb) []])
            (delivered st)
  else
    match _ws st with
    | Some i =>
        if negb (String.eqb (JS.orElse (_currentChannel st) "") "")
        then
          match wsSend i (mkFrame "subscribe" channel instId) (sockets st) with
          | Some socks =>
              mkState (market symbol) (_ws st) (Some channel) socks (delivered st)
          | None => st
          end
        else
          mkState (market symbol) (_ws st) (_currentChannel st)
                  (sockets st) (delivered st)
    | None => st
    end.

Definition unsubscribe (symbol : SymbolInfo) (period : Period) (st : State)
  : State :=
  match _ws st with
  | Some i =>
      if ReadyState_eqb (stateOf (sockets st) i) OPEN then
        let instId := _convertTickerFormat (ticker symbol) (quoteOf symbol) in
        let channel := "candles" +:+ _convertPeriodToBar period in
        match wsSend i (mkFrame "unsubscribe" channel instId) (sockets st) with
        | Some socks =>
            mkState (_prevSymbolMarket st) (_ws st) (_currentChannel st)
                    socks (delivered st)
        | None => st
        end
      else st
  | None => st
  end.

(** [this._ws.onopen]: the subscribe frame goes out on [this._ws]; when
    [send] throws, the handler ends there. *)
Definition onopen (k : Closure) (st : State) : State :=
  match _ws st with
  | Some j =>
      match wsSend j (mkFrame "subscribe" (channel k) (instId k)) (sockets st) with
      | Some socks =>
          mkState (_prevSymbolMarket st) (_ws st) (_currentChannel st)
                  socks (delivered st)
      | None => st
      end
  | None => st
  end.

(** The loop over the candles of a message: an entry that is not an array
    of six or more ([None]) is passed over; logging a candle whose time is
    outside the range of [Date] throws, which ends the handler. *)
Fixpoint deliverAll (i : nat) (cb : callback) (candles : list (option Candle))
  : list Delivery :=
  match candles with
  | [] => []
  | None :: rest => deliverAll i cb rest
  | Some c :: rest =>
      if validTime (c_ts c)
      then mkDelivery cb i (toKLineData c) :: deliverAll i cb rest
      else []
  end.

(** [this._ws.onmessage]; [m] is [None] when [JSON.parse] throws. *)
Definition onmessage (i : nat) (k : Closure) (m : option Message) (st : State)
  : State :=
  match m with
  | None => st
  | Some m =>
      if isString (event m) "subscribe" then st
      else if isString (event m) "error" then st
      else
        match arg m with
        | Some (ch, inst) =>
            if String.eqb ch (channel k) && String.eqb inst (pendingInstId k)
            then
              mkState (_prevSymbolMarket st) (_ws st) (_currentChannel st)
                      (sockets st)
                      (delivered st
                         ++ deliverAll i (pendingCallback k) (default [] (payload m)))
            else st
        | None => st
        end
  end.

Inductive Event :=
  | Subscribe (symbol : SymbolInfo) (period : Period) (cb : callback)
  | Unsubscribe (symbol : SymbolInfo) (period : Period)
  | SocketOpened (i : nat)
  | SocketMessage (i : nat) (m : option Message)
  | SocketClosed (i : nat).

Definition setSockets (socks : list (Socket Closure Frame)) (st : State) : State :=
  mkState (_prevSymbolMarket st) (_ws st) (_currentChannel st) socks (delivered st).

Definition step (st : State) (ev : Event) : State :=
  match ev with
  | Subscribe symbol period cb => subscribe symbol period cb st
  | Unsubscribe symbol period => unsubscribe symbol period st
  | SocketOpened i =>
      match sockets st !! i with
      | Some s =>
          match readyState s with
          | CONNECTING =>
              onopen (captured s)
                (setSockets (<[i := setReadyState OPEN s]> (sockets st)) st)
          | _ => st
          end
      | None => st
      end
  | SocketMessage i m =>
      match sockets st !! i with
      | Some s =>
          match readyState s with
          | OPEN => onmessage i (captured s) m st
          | _ => st
          end
      | None => st
      end
  | SocketClosed i =>
      match sockets st !! i with
      | Some s =>
          match readyState s with
          | CLOSED => st
          | _ => setSockets (<[i := setReadyState CLOSED s]> (sockets st)) st
          end
      | None => st
      end
  end.

Definition run (st : State) (evs : list Event) : State :=
  fold_left step evs st.

(** **** Search *)

(** One instrument of the upstream's list *)
Record Instrument := mkInstrument {
  inst_instId : string;
  baseCcy : option string;
  quoteCcy : option string;
  tickSz : option string;
  lotSz : option string
}.

Record Instruments := mkInstruments {
  listCode : string;
  listMsg : string;
  listData : option (list Instrument)
}.

Definition instrumentsRequest : Request :=
  mkRequest "https://www.okx.com/api/v5/public/instruments" [("instType", "SPOT")].

(** The test of [instruments.filter] *)
Definition matches (searchLower : string) (inst : Instrument) : bool :=
  JS.includes (JS.toLowerCase (inst_instId inst)) searchLower
  || JS.includesLower (baseCcy inst) searchLower
  || JS.includesLower (quoteCcy inst) searchLower.

(** [None] in a precision is [NaN]. *)
Definition toSymbolInfo (inst : Instrument) : SymbolEntry (option Z) :=
  mkEntry (inst_instId inst)
          (JS.shown (baseCcy inst) +:+ "/" +:+ JS.shown (quoteCcy inst))
          (baseCcy inst) "crypto" "OKX"
          (Some (JS.orElse (quoteCcy inst) "USDT")) "crypto"
          (JS.parseInt (JS.orElse (tickSz inst) "2"))
          (JS.parseInt (JS.orElse (lotSz inst) "8")).

Definition searchSymbols (search : option string)
  : IO (Net Instruments) (list (SymbolEntry (option Z))) :=
  tryCatch
    (let* response := fetch instrumentsRequest in
     if negb (ok response) then ret []
     else
       let* result := parseJson response in
       if negb (String.eqb (listCode result) "0") then ret []
       else
         let instruments := default [] (listData result) in
         let instruments :=
           if JS.given search
           then List.filter (matches (JS.toLowerCase (default "" search))) instruments
           else instruments in
         ret (map toSymbolInfo instruments))
    (fun _ => ret []).

End OKX.

(** *** [DefaultDatafeed] *)

Module Default.

Definition _convertTickerFormat (ticker : string) : string :=
  if JS.includes ticker "-" then ticker
  else
    match JS.split "USD" (JS.stripPrefix "X." ticker) with
    | [p0; _] => p0 +:+ "-USD"
    | _ => ticker
    end.

(** **** Historical fetch *)

(** One aggregate of the upstream.  [t] is the timestamp every aggregate
    carries; [s] and [vw] may be missing. *)
Record Agg := mkAgg {
  s : option Z;
  t : Z;
  o : float;
  h : float;
  l : float;
  c : float;
  v : float;
  vw : option float
}.

Record Body := mkBody {
  results : option (list Agg)
}.

(** [data.vw || (data.c * data.v)] *)
Definition turnoverOf (vw : option float) (c v : float) : float :=
  match vw with
  | Some x => if truthy x then x else PrimFloat.mul c v
  | None => PrimFloat.mul c v
  end.

Definition toKLineData (data : Agg) : KLineData :=
  mkBar (match s data with
         | Some x => if x =? 0 then t data else x
         | None => t data
         end)
        (o data) (h data) (l data) (c data) (v data)
        (turnoverOf (vw data) (c data) (v data)).

(** [map[timespan] || timespan]: every entry of the table is its own key *)
Definition _convertTimespan (timespan : string) : string := timespan.

Definition aggsRequest (apiKey ticker : string) (period : Period)
    (fromSec toSec : Z) : Request :=
  mkRequest ("https://api.massive.com/v2/aggs/ticker/" +:+ ticker +:+ "/range/"
             +:+ JS.show (multiplier period) +:+ "/"
             +:+ _convertTimespan (timespan period) +:+ "/"
             +:+ JS.show fromSec +:+ "/" +:+ JS.show toSec)
            [("apiKey", apiKey)].

(** [apiKey] is the field [this._apiKey]. *)
Definition getHistoryKLineData (apiKey : string) (symbol : SymbolInfo)
    (period : Period) (from to : Z) : IO (Net Body) (list KLineData) :=
  let ticker := _convertTickerFormat (ticker symbol) in
  let fromSec := toSeconds from in
  let toSec := toSeconds to in
  let* _ := toISOString (fromSec * 1000) in
  let* _ := toISOString (toSec * 1000) in
  tryCatch
    (let* response := fetch (aggsRequest apiKey ticker period fromSec toSec) in
     if negb (ok response)
     then throw (mkError ("API request failed: " +:+ JS.show (status response)
                          +:+ " " +:+ statusText response))
     else
       let* result := parseJson response in
       ret (map toKLineData (default [] (results result))))
    (fun error => throw error).

(** **** Subscription *)

(** What the handlers of a socket captured; [isAuthenticated] is the
    variable that they share and assign. *)
Record Closure := mkClosure {
  pendingSubscription : string;
  subscriber : callback;
  isAuthenticated : bool
}.

(** A frame [{action, params}] *)
Record Frame := mkFrame {
  action : string;
  params : string
}.

(** One parsed message of the socket; the fields of an aggregate are read
    only on a message whose [ev] is ['XA']. *)
Record Message := mkMessage {
  ev : option string;
  m_status : option string;
  m_type : option string;
  m_action : option string;
  m_message : option string;
  pair : option string;
  m_s : Z;
  m_o : float;
  m_h : float;
  m_l : float;
  m_c : float;
  m_v : float;
  m_vw : option float
}.

Record State := mkState {
  _apiKey : string;
  _prevSymbolMarket : option string;
  _ws : option nat;
  sockets : list (Socket Closure Frame);
  delivered : list Delivery
}.

Definition init (apiKey : string) : State := mkState apiKey None None [] [].

Definition option_eqb (a b : option string) : bool :=
  match a, b with
  | Some x, Some y => String.eqb x y
  | None, None => true
  | _, _ => false
  end.

Definition setSockets (socks : list (Socket Closure Frame)) (st : State) : State :=
  mkState (_apiKey st) (_prevSymbolMarket st) (_ws st) socks (delivered st).

Definition subscribe (symbol : SymbolInfo) (period : Period) (cb : callback)
    (st : State) : State :=
  let ticker := _convertTickerFormat (ticker symbol) in
  let isOpen :=
    match _ws st with
    | Some i => ReadyState_eqb (stateOf (sockets st) i) OPEN
    | None => false
    end in
  if negb (option_eqb (_prevSymbolMarket st) (market symbol)) || negb isOpen
  then
    let socks := closeCurrent (_ws st) (sockets st) in
    mkState (_apiKey st) (market symbol) (Some (length socks))
            (socks ++ [mkSocket CONNECTING (mkClosure ticker cb false) []])
            (delivered st)
  else
    match _ws st with
    | Some i =>
        match wsSend i (mkFrame "subscribe" ("XA." +:+ ticker)) (sockets st) with
        | Some socks =>
            mkState (_apiKey st) (market symbol) (_ws st) socks (delivered st)
        | None => st
        end
    | None => st
    end.

Definition unsubscribe (symbol : SymbolInfo) (period : Period) (st : State)
  : State :=
  match _ws st with
  | Some i =>
      if ReadyState_eqb (stateOf (sockets st) i) OPEN then
        let ticker := _convertTickerFormat (ticker symbol) in
        match wsSend i (mkFrame "unsubscribe" ("XA." +:+ ticker)) (sockets st) with
        | Some socks => setSockets socks st
        | None => st
        end
      else st
  | None => st
  end.

(** [this._ws.onopen]: the authentication frame goes out on [this._ws] *)
Definition onopen (st : State) : State :=
  match _ws st with
  | Some j =>
      match wsSend j (mkFrame "auth" (_apiKey st)) (sockets st) with
      | Some socks => setSockets socks st
      | None => st
      end
  | None => st
  end.

Definition isSome {A} (x : option A) : bool :=
  match x with Some _ => true | None => false end.

(** A defined, non-empty string *)
Definition nonEmpty (x : option string) : bool :=
  negb (String.eqb (JS.orElse x "") "").

(** [data.ev === 'status' || data.status || data.type === 'status' || data.action] *)
Definition isStatus (m : Message) : bool :=
  isString (ev m) "status" || nonEmpty (m_status m)
  || isString (m_type m) "status" || nonEmpty (m_action m).

(** [data.status === 'auth_success' || data.status === 'success'
     || data.message?.includes('success')] *)
Definition isSuccess (m : Message) : bool :=
  isString (m_status m) "auth_success" || isString (m_status m) "success"
  || match m_message m with
     | Some x => JS.includes x "success"
     | None => false
     end.

Definition setAuthenticated (i : nat) (st : State) : State :=
  match sockets st !! i with
  | Some sk =>
      setSockets
        (<[i := setCaptured (mkClosure (pendingSubscription (captured sk))
                                       (subscriber (captured sk)) true) sk]>
           (sockets st)) st
  | None => st
  end.

(** The body of the loop of [this._ws.onmessage] over the messages of one
    frame, on socket [i].  The loop ends early when the handler returns
    (authentication failed) or when [send] or the logging of an aggregate's
    time throws. *)
Fixpoint handleMessages (i : nat) (ms : list Message) (st : State) : State :=
  match ms with
  | [] => st
  | m :: rest =>
      match sockets st !! i with
      | None => st
      | Some sk =>
          let k := captured sk in
          if isStatus m then
            if isString (m_status m) "auth_failed"
            then setSockets (closeCurrent (_ws st) (sockets st)) st
            else if negb (isAuthenticated k) && isSuccess m then
              let st1 := setAuthenticated i st in
              match _ws st1 with
              | Some j =>
                  match wsSend j (mkFrame "subscribe"
                                    ("XA." +:+ pendingSubscription k))
                               (sockets st1) with
                  | Some socks => handleMessages i rest (setSockets socks st1)
                  | None => st1
                  end
              | None => handleMessages i rest st1
              end
            else handleMessages i rest st
          else if isString (ev m) "XA" then
            if isString (pair m) (pendingSubscription k)
            then
              if validTime (m_s m) then
                handleMessages i rest
                  (mkState (_apiKey st) (_prevSymbolMarket st) (_ws st) (sockets st)
                           (delivered st
                              ++ [mkDelivery (subscriber k) i
                                    (mkBar (m_s m) (m_o m) (m_h m) (m_l m)
                                           (m_c m) (m_v m)
                                           (turnoverOf (m_vw m) (m_c m) (m_v m)))]))
              else st
            else handleMessages i rest st
          else handleMessages i rest st
      end
  end.

(** [this._ws.onmessage]; [ms] is [None] when [JSON.parse] throws, and a
    frame that holds one object is the list of that object. *)
Definition onmessage (i : nat) (ms : option (list Message)) (st : State) : State :=
  match ms with
  | Some ms => handleMessages i ms st
  | None => st
  end.

(** [this._ws.onclose] *)
Definition onclose (i : nat) (st : State) : State :=
  match sockets st !! i with
  | Some sk =>
      setSockets
        (<[i := setCaptured (mkClosure (pendingSubscription (captured sk))
                                       (subscriber (captured sk)) false) sk]>
           (sockets st)) st
  | None => st
  end.

Inductive Event :=
  | Subscribe (symbol : SymbolInfo) (period : Period) (cb : callback)
  | Unsubscribe (symbol : SymbolInfo) (period : Period)
  | SocketOpened (i : nat)
  | SocketMessage (i : nat) (ms : option (list Message))
  | SocketClosed (i : nat).

Definition step (st : State) (e : Event) : State :=
  match e with
  | Subscribe symbol period cb => subscribe symbol period cb st
  | Unsubscribe symbol period => unsubscribe symbol period st
  | SocketOpened i =>
      match sockets st !! i with
      | Some sk =>
          match readyState sk with
          | CONNECTING =>
              onopen (setSockets (<[i := setReadyState OPEN sk]> (sockets st)) st)
          | _ => st
          end
      | None => st
      end
  | SocketMessage i ms =>
      match sockets st !! i with
      | Some sk =>
          match readyState sk with
          | OPEN => onmessage i ms st
          | _ => st
          end
      | None => st
      end
  | SocketClosed i =>
      match sockets st !! i with
      | Some sk =>
          match readyState sk with
          | CLOSED => st
          | _ =>
              onclose i
                (setSockets (<[i := setReadyState CLOSED sk]> (sockets st)) st)
          end
      | None => st
      end
  end.

Definition run (st : State) (evs : list Event) : State :=
  fold_left step evs st.

(** **** Search *)

(** One ticker of the upstream's reference list *)
Record Ticker := mkTicker {
  tk_ticker : string;
  tk_name : option string;
  tk_market : option string;
  primary_exchange : option string;
  currency_name : option string;
  tk_type : option string
}.

Record Tickers := mkTickers {
  tickerResults : option (list Ticker)
}.

Definition tickersRequest (apiKey : string) (search : option string) : Request :=
  mkRequest "https://api.massive.com/v3/reference/tickers"
    ([("apiKey", apiKey); ("active", "true"); ("market", "crypto")]
     ++ (if JS.given search then [("search", default "" search)] else [])).

Definition toSymbolInfo (data : Ticker) : SymbolEntry Z :=
  mkEntry (tk_ticker data)
          (JS.orElse (tk_name data) (tk_ticker data))
          (Some (tk_ticker data))
          (JS.orElse (tk_market data) "crypto")
          (JS.orElse (primary_exchange data) "crypto")
          (Some (JS.orElse (currency_name data) "USD"))
          (JS.orElse (tk_type data) "crypto")
          2 0.

(** No [try] and no look at [response.ok]: whatever parses is used. *)
Definition searchSymbols (apiKey : string) (search : option string)
  : IO (Net Tickers) (list (SymbolEntry Z)) :=
  let* response := fetch (tickersRequest apiKey search) in
  let* result := parseJson response in
  ret (map toSymbolInfo (default [] (tickerResults result))).

End Default.

(** *** [CCXTDataFeeds] *)

Module CCXT.

Definition suffixOf (timespan : string) : option string :=
  if String.eqb timespan "minute" then Some "m"
  else if String.eqb timespan "hour" then Some "h"
  else if String.eqb timespan "day" then Some "d"
  else if String.eqb timespan "week" then Some "w"
  else if String.eqb timespan "month" then Some "M"
  else None.

Definition _convertPeriodToTimeframe (period : Period) : string :=
  match suffixOf (timespan period) with
  | Some sfx => JS.show (multiplier period) +:+ sfx
  | None => "1m"
  end.

(** [s.replace(/USD[T]?$/, '')] *)
Definition stripQuote (s : string) : string :=
  if JS.endsWith s "USDT" then JS.stripSuffix "USDT" s
  else JS.stripSuffix "USD" s.

Definition _convertTickerToSymbol (symbol : SymbolInfo) : string :=
  if JS.includes (ticker symbol) "/" then ticker symbol
  else if JS.includes (ticker symbol) "-"
  then JS.replaceFirst "-" "/" (ticker symbol)
  else
    let base := JS.orElse (shortName symbol) (stripQuote (ticker symbol)) in
    base +:+ "/" +:+ quoteOf symbol.

(** **** The exchange *)

(** One candle [[timestamp, open, high, low, close, volume]] *)
Record Candle := mkCandle {
  c_ts : Z;
  c_open : float;
  c_high : float;
  c_low : float;
  c_close : float;
  c_volume : float
}.

(** A call of [fetchOHLCV(symbol, timeframe, since, limit)]; [since] is
    [None] when the adapter computed [NaN]. *)
Record Call := mkCall {
  callSymbol : string;
  callTimeframe : string;
  since : option Z;
  limit : Z
}.

(** The exchange behind the adapter: whether the market list is cached
    ([this._markets]), how the next calls of [loadMarkets] and of
    [fetchOHLCV] will settle, and the calls of [fetchOHLCV] made so far. *)
Record Exchange := mkExchange {
  _markets : bool;
  loads : list (Outcome unit);
  ohlcvs : list (Outcome (list Candle));
  calls : list Call
}.

Definition loadMarkets : IO Exchange unit :=
  fun x =>
    match loads x with
    | [] => (Rejected (mkError "NetworkError"), x)
    | r :: rest => (r, mkExchange (_markets x) rest (ohlcvs x) (calls x))
    end.

Definition fetchOHLCV (c : Call) : IO Exchange (list Candle) :=
  fun x =>
    let x' rest := mkExchange (_markets x) (loads x) rest (calls x ++ [c]) in
    match ohlcvs x with
    | [] => (Rejected (mkError "NetworkError"), x' [])
    | r :: rest => (r, x' rest)
    end.

(** [`${error}`] is rendered as the error's message: the name that
    [toString] writes before it is left out. *)
Definition _ensureMarketsLoaded : IO Exchange unit :=
  fun x =>
    if _markets x then (Resolved (), x)
    else
      tryCatch
        (let* _ := loadMarkets in
         fun x' => (Resolved (), mkExchange true (loads x') (ohlcvs x') (calls x')))
        (fun error => throw (mkError ("Failed to load markets: " +:+ message error)))
        x.

(** **** Historical fetch *)

Definition toKLineData (candle : Candle) : KLineData :=
  mkBar (c_ts candle) (c_open candle) (c_high candle) (c_low candle)
        (c_close candle) (c_volume candle)
        (PrimFloat.mul (c_close candle) (c_volume candle)).

Definition inRange (from to : Z) (candle : Candle) : bool :=
  (from <=? c_ts candle) && (c_ts candle <=? to).

Definition getHistoryKLineData (symbol : SymbolInfo) (period : Period)
    (from to : Z) : IO Exchange (list KLineData) :=
  tryCatch
    (let* _ := _ensureMarketsLoaded in
     let ccxtSymbol := _convertTickerToSymbol symbol in
     let timeframe := _convertPeriodToTimeframe period in
     let* _ := toISOString from in
     let* _ := toISOString to in
     let* ohlcv := fetchOHLCV (mkCall ccxtSymbol timeframe (Some from) 1000) in
     match ohlcv with
     | [] => ret []
     | _ =>
         let klineData := map toKLineData (List.filter (inRange from to) ohlcv) in
         let* _ := match head klineData with
                   | Some first => toISOString (timestamp first)
                   | None => ret ()
                   end in
         let* _ := match last klineData with
                   | Some final => toISOString (timestamp final)
                   | None => ret ()
                   end in
         ret klineData
     end)
    (fun error => throw error).

(** **** Subscription *)

(** [Math.min(minutes * 60 * 1000, 60000)] and the other cases; [None] is
    [NaN] *)
Definition _getPollingInterval (timeframe : string) : option Z :=
  if JS.endsWith timeframe "m" then
    (fun minutes => Z.min (minutes * 60 * 1000) 60000)
      <$> JS.parseInt (JS.replaceFirst "m" "" timeframe)
  else if JS.endsWith timeframe "h" then Some (5 * 60 * 1000)
  else if JS.endsWith timeframe "d" then Some (15 * 60 * 1000)
  else Some 60000.

(** What [fetchLatest] and [watchHandler] captured *)
Record Closure := mkClosure {
  symbol : string;
  timeframe : string;
  subscriber : callback;
  interval : option Z
}.

(** A timer made by [setInterval]: its callback's closure, and whether
    [clearInterval] has stopped it *)
Record Interval := mkInterval {
  ticking : bool;
  fetchLatest : Closure
}.

(** Where a [watchHandler] loop stands *)
Inductive Phase := Watching | Sleeping | Finished.

Record Watcher := mkWatcher {
  phase : Phase;
  watchHandler : Closure
}.

(** The adapter's fields and, around them, the timers it has made, the
    requests [fetchLatest] is waiting for, the [watchHandler] loops, the
    calls it made to the exchange and the calls made to subscriber
    callbacks, each with the closure that made it.  [hasWatchOHLCV] is
    [this._exchange.has['watchOHLCV']]. *)
Record State := mkState {
  _currentCallback : option callback;
  _pollingInterval : option nat;
  _lastTimestamp : option Z;
  _prevSymbolMarket : option string;
  hasWatchOHLCV : bool;
  intervals : list Interval;
  inFlight : list Closure;
  watchers : list Watcher;
  asked : list Call;
  delivered : list (Closure * KLineData)
}.

Definition init (hasWatch : bool) : State :=
  mkState None None None None hasWatch [] [] [] [] [].

(** [clearInterval(handle)] *)
Definition clearInterval (h : nat) (ivs : list Interval) : list Interval :=
  match ivs !! h with
  | Some iv => <[h := mkInterval false (fetchLatest iv)]> ivs
  | None => ivs
  end.

(** [this._ws] is never assigned, so closing it is never reached. *)
Definition unsubscribe (sym : SymbolInfo) (period : Period) (st : State) : State :=
  mkState None None None (_prevSymbolMarket st) (hasWatchOHLCV st)
          (match _pollingInterval st with
           | Some h => clearInterval h (intervals st)
           | None => intervals st
           end)
          (inFlight st) (watchers st) (asked st) (delivered st).

(** [fetchLatest] up to its [await]: nothing without a current callback,
    otherwise one request for the latest candle.
    [since] is [this._lastTimestamp || Date.now() - interval * 2]. *)
Definition startFetch (k : Closure) (now : Z) (st : State) : State :=
  match _currentCallback st with
  | None => st
  | Some _ =>
      let since :=
        match _lastTimestamp st with
        | Some ts => if ts =? 0 then (fun i => now - i * 2) <$> interval k
                     else Some ts
        | None => (fun i => now - i * 2) <$> interval k
        end in
      mkState (_currentCallback st) (_pollingInterval st) (_lastTimestamp st)
              (_prevSymbolMarket st) (hasWatchOHLCV st) (intervals st)
              (inFlight st ++ [k]) (watchers st)
              (asked st ++ [mkCall (symbol k) (timeframe k) since 1])
              (delivered st)
  end.

(** [!this._lastTimestamp || timestamp > this._lastTimestamp] *)
Definition isNewer (last : option Z) (ts : Z) : bool :=
  match last with
  | None => true
  | Some l => (l =? 0) || (l <? ts)
  end.

(** [fetchLatest] after its [await], on the answer of the exchange *)
Definition finishFetch (k : Closure) (r : Outcome (list Candle))
    (st : State) : State :=
  match r with
  | Rejected _ => st
  | Resolved ohlcv =>
      match last ohlcv with
      | None => st
      | Some latest =>
          if isNewer (_lastTimestamp st) (c_ts latest) then
            mkState (_currentCallback st) (_pollingInterval st)
                    (Some (c_ts latest))
                    (_prevSymbolMarket st) (hasWatchOHLCV st) (intervals st)
                    (inFlight st) (watchers st) (asked st)
                    (delivered st
                       ++ [(k, toKLineData latest)])
          else st
      end
  end.

Definition _subscribePolling (sym tf : string) (cb : callback) (now : Z)
    (st : State) : State :=
  let ivs :=
    match _pollingInterval st with
    | Some h => clearInterval h (intervals st)
    | None => intervals st
    end in
  let k := mkClosure sym tf cb (_getPollingInterval tf) in
  let st1 :=
    startFetch k now
      (mkState (_currentCallback st) (_pollingInterval st) (_lastTimestamp st)
               (_prevSymbolMarket st) (hasWatchOHLCV st) ivs
               (inFlight st) (watchers st) (asked st) (delivered st)) in
  mkState (_currentCallback st1) (Some (length (intervals st1)))
          (_lastTimestamp st1) (_prevSymbolMarket st1) (hasWatchOHLCV st1)
          (intervals st1 ++ [mkInterval true k])
          (inFlight st1) (watchers st1) (asked st1) (delivered st1).

(** [_subscribeWebSocket]: the loop is entered once, its test passes (the
    callback has just been stored) and it waits for [watchOHLCV]. *)
Definition _subscribeWebSocket (sym tf : string) (cb : callback) (st : State)
  : State :=
  let k := mkClosure sym tf cb (_getPollingInterval tf) in
  mkState (_currentCallback st) (_pollingInterval st) (_lastTimestamp st)
          (_prevSymbolMarket st) (hasWatchOHLCV st) (intervals st)
          (inFlight st)
          (watchers st ++ [mkWatcher (match _currentCallback st with
                                      | Some _ => Watching
                                      | None => Finished
                                      end) k])
          (asked st) (delivered st).

Definition subscribe (sym : SymbolInfo) (period : Period) (cb : callback)
    (now : Z) (st : State) : State :=
  let ccxtSymbol := _convertTickerToSymbol sym in
  let tf := _convertPeriodToTimeframe period in
  let st1 := unsubscribe sym period st in
  let st2 :=
    mkState (Some cb) (_pollingInterval st1) (_lastTimestamp st1)
            (_prevSymbolMarket st1) (hasWatchOHLCV st1) (intervals st1)
            (inFlight st1) (watchers st1) (asked st1) (delivered st1) in
  let st3 :=
    if hasWatchOHLCV st2 then _subscribeWebSocket ccxtSymbol tf cb st2
    else _subscribePolling ccxtSymbol tf cb now st2 in
  mkState (_currentCallback st3) (_pollingInterval st3) (_lastTimestamp st3)
          (market sym) (hasWatchOHLCV st3) (intervals st3)
          (inFlight st3) (watchers st3) (asked st3) (delivered st3).

Definition setWatchers (ws : list Watcher) (st : State) : State :=
  mkState (_currentCallback st) (_pollingInterval st) (_lastTimestamp st)
          (_prevSymbolMarket st) (hasWatchOHLCV st) (intervals st)
          (inFlight st) ws (asked st) (delivered st).

(** [watchHandler] when [watchOHLCV] settles: the latest candle goes to
    the captured callback and the loop sleeps; on a rejection the handler
    falls back to polling. *)
Definition watchSettled (n : nat) (w : Watcher) (r : Outcome (list Candle))
    (now : Z) (st : State) : State :=
  let k := watchHandler w in
  match r with
  | Rejected _ =>
      _subscribePolling (symbol k) (timeframe k) (subscriber k) now
        (setWatchers (<[n := mkWatcher Finished k]> (watchers st)) st)
  | Resolved ohlcv =>
      let st1 := setWatchers (<[n := mkWatcher Sleeping k]> (watchers st)) st in
      match last ohlcv with
      | Some latest =>
          mkState (_currentCallback st1) (_pollingInterval st1)
                  (_lastTimestamp st1) (_prevSymbolMarket st1)
                  (hasWatchOHLCV st1) (intervals st1) (inFlight st1)
                  (watchers st1) (asked st1)
                  (delivered st1
                     ++ [(k, toKLineData latest)])
      | None => st1
      end
  end.

(** What can happen to an adapter.  [now] is the reading of [Date.now()]
    where the handler takes one.  An event that cannot occur in the current
    state changes nothing. *)
Inductive Event :=
  | Subscribe (sym : SymbolInfo) (period : Period) (cb : callback) (now : Z)
  | Unsubscribe (sym : SymbolInfo) (period : Period)
  | Tick (h : nat) (now : Z)
  | FetchSettled (n : nat) (r : Outcome (list Candle))
  | WatchSettled (n : nat) (r : Outcome (list Candle)) (now : Z)
  | WatchSlept (n : nat).

Definition step (st : State) (e : Event) : State :=
  match e with
  | Subscribe sym period cb now => subscribe sym period cb now st
  | Unsubscribe sym period => unsubscribe sym period st
  | Tick h now =>
      match intervals st !! h with
      | Some iv => if ticking iv then startFetch (fetchLatest iv) now st else st
      | None => st
      end
  | FetchSettled n r =>
      match inFlight st !! n with
      | Some k =>
          finishFetch k r
            (mkState (_currentCallback st) (_pollingInterval st)
                     (_lastTimestamp st) (_prevSymbolMarket st)
                     (hasWatchOHLCV st) (intervals st)
                     (delete n (inFlight st)) (watchers st) (asked st)
                     (delivered st))
      | None => st
      end
  | WatchSettled n r now =>
      match watchers st !! n with
      | Some w =>
          match phase w with
          | Watching => watchSettled n w r now st
          | _ => st
          end
      | None => st
      end
  | WatchSlept n =>
      match watchers st !! n with
      | Some w =>
          match phase w with
          | Sleeping =>
              setWatchers
                (<[n := mkWatcher (match _currentCallback st with
                                   | Some _ => Watching
                                   | None => Finished
                                   end) (watchHandler w)]> (watchers st)) st
          | _ => st
          end
      | None => st
      end
  end.

Definition run (st : State) (evs : list Event) : State :=
  fold_left step evs st.

(** The events between a [subscribe] and the next call of the host: the
    lifetime of one subscription. *)
Definition isEnvironment (e : Event) : bool :=
  match e with
  | Subscribe _ _ _ _ | Unsubscribe _ _ => false
  | _ => true
  end.

(** The candles that an event hands to the adapter *)
Definition candlesOf (e : Event) : list Candle :=
  match e with
  | FetchSettled _ (Resolved ohlcv) | WatchSettled _ (Resolved ohlcv) _ => ohlcv
  | _ => []
  end.

Definition deliveredTimestamps (st : State) : list Z :=
  map (fun d => timestamp (snd d)) (delivered st).

(** What the guard of [fetchLatest] maintains while only polls deliver:
    the delivered timestamps increase and none exceeds the stored last
    timestamp, which is not [0]. *)
Definition pollingInvariant (st : State) : Prop :=
  watchers st = [] /\
  StronglySorted Z.lt (deliveredTimestamps st) /\
  match _lastTimestamp st with
  | None => delivered st = []
  | Some l => l <> 0 /\ Forall (fun t => t <= l) (deliveredTimestamps st)
  end.

(** Only the timer that [this._pollingInterval] names can be ticking. *)
Definition oneTimer (st : State) : Prop :=
  forall h iv, intervals st !! h = Some iv -> ticking iv = true ->
               _pollingInterval st = Some h.

Definition activeIntervals (st : State) : list nat :=
  List.filter (fun h => match intervals st !! h with
                        | Some iv => ticking iv
                        | None => false
                        end) (seq 0 (length (intervals st))).

(** **** Search *)

Record Precision := mkPrecision {
  price : option float;
  amount : option float
}.

(** One market of the exchange library's table *)
Record Market := mkMarket {
  mk_symbol : string;
  base : option string;
  quote : option string;
  baseId : option string;
  quoteId : option string;
  mk_type : option string;
  active : option bool;
  precision : option Precision
}.

(** [market.type === 'spot' && market.active !== false] *)
Definition isActiveSpot (m : Market) : bool :=
  isString (mk_type m) "spot"
  && match active m with
     | Some false => false
     | _ => true
     end.

Definition matches (searchLower : string) (m : Market) : bool :=
  JS.includes (JS.toLowerCase (mk_symbol m)) searchLower
  || JS.includesLower (base m) searchLower
  || JS.includesLower (quote m) searchLower
  || JS.includesLower (baseId m) searchLower
  || JS.includesLower (quoteId m) searchLower.

(** [x || d] on a possibly undefined number *)
Definition numberOr (x : option float) (d : float) : float :=
  match x with
  | Some f => if truthy f then f else d
  | None => d
  end.

Definition toSymbolInfo (exchangeId : string) (m : Market) : SymbolEntry float :=
  mkEntry (mk_symbol m)
          (JS.shown (base m) +:+ "/" +:+ JS.shown (quote m))
          (base m) "crypto" (JS.toUpperCase exchangeId) (quote m) "crypto"
          (numberOr (precision m ≫= price) 2)
          (numberOr (precision m ≫= amount) 8).

(** [markets] is the table that the exchange library holds once
    [loadMarkets] has resolved, in the order of [Object.values]. *)
Definition searchSymbols (exchangeId : string) (markets : list Market)
    (search : option string) : IO Exchange (list (SymbolEntry float)) :=
  tryCatch
    (let* _ := _ensureMarketsLoaded in
     fun x =>
       if negb (_markets x) then ret [] x
       else
         let symbols := List.filter isActiveSpot markets in
         let symbols :=
           if JS.given search
           then List.filter (matches (JS.toLowerCase (default "" search))) symbols
           else symbols in
         ret (map (toSymbolInfo exchangeId) symbols) x)
    (fun _ => ret []).

(** **** Construction *)

(** The proxy variables of [process.env] *)
Record ProcessEnv := mkProcessEnv {
  https_proxy : option string;
  HTTPS_PROXY : option string;
  http_proxy : option string;
  HTTP_PROXY : option string;
  all_proxy : option string;
  ALL_PROXY : option string
}.

(** Where the constructor runs: with a [window] or not, with the exchange
    library loaded or not, with a [process.env] or not; [knows] tells which
    identifiers the exchange library has a class for.  A property of the
    library that is no class (on which [new] would throw) is left out. *)
Record Runtime := mkRuntime {
  hasWindow : bool;
  ccxtLoaded : bool;
  knows : string -> bool;
  processEnv : option ProcessEnv
}.

Record Credentials := mkCredentials {
  apiKey : option string;
  secret : option string;
  password : option string;
  sandbox : option bool
}.

Record ProxyConfig := mkProxyConfig {
  http : option string;
  https : option string
}.

(** The options handed to the exchange class *)
Record ExchangeOptions := mkOptions {
  optApiKey : option string;
  optSecret : option string;
  optPassword : option string;
  optSandbox : bool;
  enableRateLimit : bool;
  timeout : Z;
  proxy : option string;
  proxies : option ProxyConfig
}.

(** [allProxy.replace(/^socks5:\/\//, 'http://')] *)
Definition socksToHttp (s : string) : string :=
  if String.prefix "socks5://" s
  then "http://" +:+ JS.dropn 9 s
  else s.

(** The proxy read from the environment when no [proxies] were passed *)
Definition proxyFromEnv (env : option ProcessEnv) : ProxyConfig :=
  let httpsProxy := env ≫= (fun e => JS.orOpt (https_proxy e) (HTTPS_PROXY e)) in
  let httpProxy := env ≫= (fun e => JS.orOpt (http_proxy e) (HTTP_PROXY e)) in
  let allProxy := env ≫= (fun e => JS.orOpt (all_proxy e) (ALL_PROXY e)) in
  if JS.given httpsProxy then mkProxyConfig (JS.orOpt httpProxy httpsProxy) httpsProxy
  else if JS.given allProxy
  then let p := socksToHttp <$> allProxy in mkProxyConfig p p
  else if JS.given httpProxy then mkProxyConfig httpProxy httpProxy
  else mkProxyConfig None None.

Definition proxyConfigOf (passed : option ProxyConfig) (env : option ProcessEnv)
  : ProxyConfig :=
  match passed with
  | Some p => mkProxyConfig (http p) (https p)
  | None => proxyFromEnv env
  end.

Definition browserMessage : string :=
  "CCXTDataFeeds 不支持浏览器环境。CCXT 库是专为 Node.js 设计的。
请使用以下替代方案：
1. 使用 OKXDataFeeds（已针对浏览器优化）
2. 在后端服务器上使用 CCXT，通过 API 提供数据
3. 使用代理服务器处理 CCXT 请求".

Definition notLoadedMessage : string :=
  "CCXT 库未加载。请确保：
1. 已安装 ccxt: npm install ccxt
2. 在 Node.js 环境中运行（不是在浏览器中）".

(** The constructor up to the creation of the exchange: the identifier in
    lower case and the options, or the error thrown. *)
Definition construct (rt : Runtime) (exchangeId : string)
    (credentials : option Credentials) (passed : option ProxyConfig)
  : Error + (string * ExchangeOptions) :=
  let _exchangeId := JS.toLowerCase exchangeId in
  if hasWindow rt then inl (mkError browserMessage)
  else if negb (ccxtLoaded rt) then inl (mkError notLoadedMessage)
  else if negb (knows rt _exchangeId)
  then inl (mkError ("Unsupported exchange: " +:+ exchangeId
                     +:+ ". Please check CCXT documentation for supported exchanges."))
  else
    let cfg := proxyConfigOf passed (processEnv rt) in
    let useProxy := JS.given (http cfg) || JS.given (https cfg) in
    inr (_exchangeId,
         mkOptions (credentials ≫= apiKey) (credentials ≫= secret)
                   (credentials ≫= password)
                   (match credentials ≫= sandbox with
                    | Some b => b
                    | None => false
                    end)
                   true 60000
                   (if useProxy then JS.orOpt (https cfg) (http cfg) else None)
                   (if useProxy
                    then Some (mkProxyConfig (JS.orOpt (http cfg) (https cfg))
                                             (JS.orOpt (https cfg) (http cfg)))
                    else None)).

End CCXT.

(** *** The chart host ([ChartProComponent]) *)

Module Chart.

(** What the host reads from [Date] in the local time zone, and
    [new Date(text).getTime()]. *)
Record Calendar := mkCalendar {
  getDay : Z -> Z;
  getFullYear : Z -> Z;
  getMonth : Z -> Z;
  getDate : Z -> Z;
  parseDate : string -> Z
}.

(** The pair [[from, to]] *)
Definition adjustFromTo (cal : Calendar) (period : Period)
    (toTimestamp count : Z) : Z * Z :=
  let m := multiplier period in
  let ts := timespan period in
  if String.eqb ts "minute" then
    let to := toTimestamp - JS.remainder toTimestamp (60 * 1000) in
    (to - count * m * 60 * 1000, to)
  else if String.eqb ts "hour" then
    let to := toTimestamp - JS.remainder toTimestamp (60 * 60 * 1000) in
    (to - count * m * 60 * 60 * 1000, to)
  else if String.eqb ts "day" then
    let to := toTimestamp - JS.remainder toTimestamp (60 * 60 * 1000) in
    (to - count * m * 24 * 60 * 60 * 1000, to)
  else if String.eqb ts "week" then
    let week := getDay cal toTimestamp in
    let dif := if week =? 0 then 6 else week - 1 in
    let to := toTimestamp - dif * 60 * 60 * 24 in
    let to := parseDate cal (JS.show (getFullYear cal to) +:+ "-"
                             +:+ JS.show (getMonth cal to + 1) +:+ "-"
                             +:+ JS.show (getDate cal to)) in
    (count * m * 7 * 24 * 60 * 60 * 1000, to)
  else if String.eqb ts "month" then
    let to := parseDate cal (JS.show (getFullYear cal toTimestamp) +:+ "-"
                             +:+ JS.show (getMonth cal toTimestamp + 1) +:+ "-01") in
    let from := count * m * 30 * 24 * 60 * 60 * 1000 in
    (parseDate cal (JS.show (getFullYear cal from) +:+ "-"
                    +:+ JS.show (getMonth cal from + 1) +:+ "-01"), to)
  else if String.eqb ts "year" then
    let to := parseDate cal (JS.show (getFullYear cal toTimestamp) +:+ "-01-01") in
    let from := count * m * 365 * 24 * 60 * 60 * 1000 in
    (parseDate cal (JS.show (getFullYear cal from) +:+ "-01-01"), to)
  else (toTimestamp, toTimestamp).

(** One call of the callback that the chart passes to [getBars]: the bars
    and whether there may be more. *)
Definition BarsCall : Type := list KLineData * bool.

Definition answer (kLineDataList : list KLineData) : BarsCall :=
  (kLineDataList, negb (bool_decide (kLineDataList = []))).

(** The data loader's [getBars] over a datafeed: the calls it makes to the
    callback, and the value of [loading] that it leaves.  [timestamp] is
    [None] when the chart passes none, and [now] is the clock.  The chart's
    callback is taken to return normally. *)
Definition getBars {W} (cal : Calendar)
    (getHistoryKLineData : SymbolInfo -> Period -> Z -> Z -> IO W (list KLineData))
    (type : string) (timestamp : option Z) (now : Z)
    (s : SymbolInfo) (p : Period) : IO W (list BarsCall * bool) :=
  let* calls :=
    tryCatch
      (if String.eqb type "init" || String.eqb type "forward" then
         let '(from, to) := adjustFromTo cal p (default now timestamp) 500 in
         let* kLineDataList := getHistoryKLineData s p from to in
         ret [answer kLineDataList]
       else if String.eqb type "backward" then
         let to := fst (adjustFromTo cal p (default now timestamp) 1) in
         let from := fst (adjustFromTo cal p to 500) in
         let* kLineDataList := getHistoryKLineData s p from to in
         ret [answer kLineDataList]
       else ret [([], false)])
      (fun _ => ret [([], false)]) in
  ret (calls, false).

(** What the effect on symbol and period does to the datafeed and to the
    chart *)
Inductive Action :=
  | UnsubscribeDatafeed (symbol : SymbolInfo) (period : Period)
  | SetSymbol (symbol : SymbolInfo)
  | SetPeriod (period : Period).

(** The effect that runs when the symbol or the period signal changes,
    for a symbol and a period that are set: its actions and the pair it hands
    to its next run. *)
Definition symbolPeriodEffect (loading hasWidget : bool)
    (prev : option (SymbolInfo * Period)) (s : SymbolInfo) (p : Period)
  : list Action * option (SymbolInfo * Period) :=
  if negb loading && hasWidget then
    let symbolChanged :=
      match prev with
      | Some (ps, _) => negb (String.eqb (ticker ps) (ticker s))
      | None => true
      end in
    let periodChanged :=
      match prev with
      | Some (_, pp) => negb (String.eqb (text pp) (text p))
      | None => true
      end in
    (match prev with
     | Some (ps, pp) => [UnsubscribeDatafeed ps pp]
     | None => []
     end
     ++ (if symbolChanged then [SetSymbol s] else [])
     ++ (if periodChanged then [SetPeriod p] else []),
     Some (s, p))
  else ([], prev).

(** [list.indexOf(name)]; [None] is [-1] *)
Fixpoint indexOf (name : string) (l : list string) : option nat :=
  match l with
  | [] => None
  | x :: l' => if String.eqb x name then Some 0%nat else S <$> indexOf name l'
  end.

(** [list.splice(list.indexOf(name), 1)] on a copy of the list: a start of
    [-1] counts from the end. *)
Definition removeIndicator (name : string) (l : list string) : list string :=
  match indexOf name l with
  | Some i => delete i l
  | None => removelast l
  end.

End Chart.

(** ** Vocabulary of the specification *)

(** The units that the conversions of [OKXDataFeeds] and [CCXTDataFeeds]
    have a case for. *)
Definition recognizedUnits : list string :=
  ["minute"; "hour"; "day"; "week"; "month"].

Definition timestamps (bars : list KLineData) : list Z := map timestamp bars.

(** Every bar lies in the requested range. *)
Definition withinRange (from to : Z) (bars : list KLineData) : Prop :=
  Forall (fun b => from <= timestamp b <= to) bars.

(** Oldest first, and newest first *)
Definition ascending (ts : list Z) : Prop := StronglySorted Z.le ts.
Definition descending (ts : list Z) : Prop := StronglySorted Z.ge ts.

(** A response outside 2xx, or one whose body does not parse *)
Definition failed {A} (r : Response A) : Prop :=
  ok r = false \/ json r = None.

(** The characters that a numeral is written with *)
Definition isDigit (c : ascii) : Prop :=
  exists d, (d < 10)%N /\ c = pretty_N_char d.

(** ** Invariants of the subscription state machines *)

(** [LocalDataFeeds]: the handle and the channel are set and cleared
    together, and the handle names the socket whose handlers captured the
    current channel. *)
Definition localCoherent (st : Local.State) : Prop :=
  match Local._ws st, Local._currentChannel st with
  | None, None => True
  | Some i, Some ch => captured <$> Local.sockets st !! i = Some ch
  | _, _ => False
  end.

(** Every pending deferred close of [LocalDataFeeds] carries the channel
    of its own symbol and period. *)
Definition localTimersNamed (st : Local.State) : Prop :=
  Forall (fun t => Local.timerChannel t
                   = Local.channelOf (Local.timerSymbol t) (Local.timerPeriod t))
         (Local.timers st).

(** A socket that is connecting or open *)
Definition live {K F} (s : Socket K F) : Prop :=
  readyState s = OPEN \/ readyState s = CONNECTING.

(** Only the socket that the handle names can be live. *)
Definition onlyHandleLive {K F} (ws : option nat) (socks : list (Socket K F))
  : Prop :=
  forall i s, socks !! i = Some s -> live s -> ws = Some i.

(** [socks'] has the sockets of [socks]: each one still calls the same
    subscriber ([f] reads it from what the handlers captured), and none is
    live that was not. *)
Definition evolves {K F} (f : K -> callback) (socks socks' : list (Socket K F))
  : Prop :=
  length socks' = length socks /\
  forall j s, socks !! j = Some s ->
              exists s', socks' !! j = Some s' /\
                         f (captured s') = f (captured s) /\
                         (live s' -> live s).

(** Every call of a callback was made by a socket for the subscriber that
    its handlers captured. *)
Definition deliveredTo {K F} (f : K -> callback) (socks : list (Socket K F))
    (dl : list Delivery) : Prop :=
  Forall (fun d => exists s, socks !! via d = Some s /\ receiver d = f (captured s))
         dl.

(** [DefaultDatafeed]: what a socket has sent, by its state: nothing
    while it connects, and the authentication frame first once it is open. *)
Definition authFirst (key : string) (s : Socket Default.Closure Default.Frame)
  : Prop :=
  match readyState s with
  | CONNECTING => sent s = []
  | OPEN => head (sent s) = Some (Default.mkFrame "auth" key)
  | CLOSING | CLOSED =>
      sent s = [] \/ head (sent s) = Some (Default.mkFrame "auth" key)
  end.

(** ** Sample values *)

Definition btc : SymbolInfo := mkSymbol "BTC-USDT" (Some "BTC") (Some "USDT") (Some "crypto").
Definition eth : SymbolInfo := mkSymbol "ETH-USDT" (Some "ETH") (Some "USDT") (Some "crypto").
Definition oneMinute : Period := mkPeriod 1 "minute" "1m".
Definition fiveMinutes : Period := mkPeriod 5 "minute" "5m".

Definition firstCallback : callback := 1%nat.
Definition secondCallback : callback := 2%nat.

Definition okxCandle (ts : Z) : OKX.Candle :=
  OKX.mkCandle ts 1 2 1 2 10 20.

Definition ccxtCandle (ts : Z) : CCXT.Candle :=
  CCXT.mkCandle ts 1 2 1 2 10.

Definition okxAnswer (candles : list OKX.Candle) : Answer OKX.Body :=
  Responds (mkResponse true 200 "OK" "" (Some (OKX.mkBody "0" "" (Some candles)))).

Definition defaultAnswer (aggs : list Default.Agg) : Answer Default.Body :=
  Responds (mkResponse true 200 "OK" "" (Some (Default.mkBody (Some aggs)))).

Definition serverError {A} : Response A :=
  mkResponse false 500 "Internal Server Error" "" None.

(* ================================================================== *)
(** * Properties *)

(** ** Strings *)

Lemma app_nil_l (s : string) : "" +:+ s = s.
Proof. reflexivity. Qed.

Lemma app_cons_l (c : ascii) (s t : string) :
  String c s +:+ t = String c (s +:+ t).
Proof. reflexivity. Qed.

Ltac str_norm := rewrite ?app_cons_l, ?app_nil_l in *.

Ltac ascii_cases :=
  repeat (str_norm; cbn [String.prefix] in *;
          match goal with
          | |- context [ascii_dec ?x ?y] => destruct (ascii_dec x y); subst
          | H : context [ascii_dec ?x ?y] |- _ => destruct (ascii_dec x y); subst
          end).

Lemma prefix_app (p s : string) : String.prefix p (p +:+ s) = true.
Proof.
  induction p as [|c p IH]; simpl; [by destruct s|].
  destruct (ascii_dec c c); [exact IH | congruence].
Qed.

Lemma prefix_nil_r (p : string) : String.prefix p "" = true -> p = "".
Proof. by destruct p. Qed.

Lemma includes_here (s sub : string) :
  String.prefix sub s = true -> JS.includes s sub = true.
Proof. intros H. destruct s; cbn [JS.includes]; rewrite H; reflexivity. Qed.

Lemma includes_app (a sub b : string) :
  JS.includes (a +:+ sub +:+ b) sub = true.
Proof.
  induction a as [|c a IH].
  - change ("" +:+ sub +:+ b) with (sub +:+ b).
    apply includes_here, prefix_app.
  - change (String c a +:+ sub +:+ b) with (String c (a +:+ sub +:+ b)).
    cbn [JS.includes]. rewrite IH. apply orb_true_r.
Qed.

Lemma includes_cons_false (c : ascii) (s sub : string) :
  JS.includes (String c s) sub = false ->
  String.prefix sub (String c s) = false /\ JS.includes s sub = false.
Proof. cbn [JS.includes]. intros H. by apply orb_false_elim in H. Qed.

Lemma includes_replaceFirst (pat rep s : string) :
  JS.includes s pat = true -> JS.includes (JS.replaceFirst pat rep s) rep = true.
Proof.
  induction s as [|c s IH]; cbn [JS.includes JS.replaceFirst].
  - rewrite orb_false_r. intros ->. apply includes_here, prefix_app.
  - destruct (String.prefix pat (String c s)) eqn:Hp.
    + intros _. apply includes_here, prefix_app.
    + rewrite orb_false_l. intros Hs. cbn [JS.includes].
      rewrite (IH Hs). apply orb_true_r.
Qed.

(** ** Symbol normalisation *)

Lemma default_ticker_fixed (x : string) :
  JS.includes x "-" = true -> Default._convertTickerFormat x = x.
Proof. unfold Default._convertTickerFormat. by intros ->. Qed.

Lemma okx_ticker_fixed (x q : string) :
  JS.includes x "-" = true -> OKX._convertTickerFormat x q = x.
Proof. unfold OKX._convertTickerFormat. by intros ->. Qed.

Lemma ccxt_ticker_fixed (sym : SymbolInfo) :
  JS.includes (ticker sym) "/" = true ->
  CCXT._convertTickerToSymbol sym = ticker sym.
Proof. unfold CCXT._convertTickerToSymbol. by intros ->. Qed.

Lemma default_ticker_idempotent (x : string) :
  Default._convertTickerFormat (Default._convertTickerFormat x)
  = Default._convertTickerFormat x.
Proof.
  unfold Default._convertTickerFormat at 2 3.
  destruct (JS.includes x "-") eqn:Hx; [by apply default_ticker_fixed|].
  destruct (JS.split "USD" (JS.stripPrefix "X." x)) as [|p0 [|p1 [|p2 ps]]] eqn:Hs;
    try (unfold Default._convertTickerFormat; by rewrite Hx, Hs).
  apply default_ticker_fixed.
  change (p0 +:+ "-USD") with (p0 +:+ "-" +:+ "USD"). apply includes_app.
Qed.

Lemma okx_ticker_idempotent (x q : string) :
  OKX._convertTickerFormat (OKX._convertTickerFormat x q) q
  = OKX._convertTickerFormat x q.
Proof.
  unfold OKX._convertTickerFormat at 2 3.
  destruct (JS.includes x "-") eqn:Hx; [by apply okx_ticker_fixed|].
  apply okx_ticker_fixed, includes_app.
Qed.

Lemma ccxt_ticker_idempotent (sym : SymbolInfo) :
  CCXT._convertTickerToSymbol
    (mkSymbol (CCXT._convertTickerToSymbol sym)
              (shortName sym) (priceCurrency sym) (market sym))
  = CCXT._convertTickerToSymbol sym.
Proof.
  apply ccxt_ticker_fixed. cbn [ticker].
  unfold CCXT._convertTickerToSymbol.
  destruct (JS.includes (ticker sym) "/") eqn:H1; [exact H1|].
  destruct (JS.includes (ticker sym) "-") eqn:H2.
  - by apply includes_replaceFirst.
  - apply includes_app.
Qed.

(** C7.  Symbol normalisation is idempotent in each adapter: converting a
    converted ticker gives the converted ticker again, and a ticker that
    already has the separator of the target form is returned as it is. *)
Theorem ticker_conversion_idempotent :
  (forall x,
     Default._convertTickerFormat (Default._convertTickerFormat x)
     = Default._convertTickerFormat x) /\
  (forall x q,
     OKX._convertTickerFormat (OKX._convertTickerFormat x q) q
     = OKX._convertTickerFormat x q) /\
  (forall sym,
     CCXT._convertTickerToSymbol
       (mkSymbol (CCXT._convertTickerToSymbol sym)
                 (shortName sym) (priceCurrency sym) (market sym))
     = CCXT._convertTickerToSymbol sym) /\
  (forall x, JS.includes x "-" = true -> Default._convertTickerFormat x = x) /\
  (forall x q, JS.includes x "-" = true -> OKX._convertTickerFormat x q = x) /\
  (forall sym, JS.includes (ticker sym) "/" = true ->
     CCXT._convertTickerToSymbol sym = ticker sym).
Proof.
  repeat split.
  - apply default_ticker_idempotent.
  - apply okx_ticker_idempotent.
  - apply ccxt_ticker_idempotent.
  - apply default_ticker_fixed.
  - apply okx_ticker_fixed.
  - apply ccxt_ticker_fixed.
Qed.

(** ** Splitting on ["USD"] *)

Lemma splitFrom_nonempty (sep : string) (k : nat) (s : string) :
  JS.splitFrom sep k s <> [].
Proof.
  revert k. induction s as [|c s IH]; intros k; cbn [JS.splitFrom]; [done|].
  destruct k as [|k]; [|apply IH].
  destruct (String.prefix sep (String c s)); [done|].
  specialize (IH 0%nat). by destruct (JS.splitFrom sep 0 s).
Qed.

Lemma length_consHead (c : ascii) (parts : list string) :
  parts <> [] -> length (JS.consHead c parts) = length parts.
Proof. by destruct parts. Qed.

Lemma split_usd_here (t : string) :
  JS.split "USD" ("USD" +:+ t) = "" :: JS.split "USD" t.
Proof.
  pose proof (prefix_app "USD" t) as Hp.
  unfold JS.split. change ("USD" +:+ t) with (String "U" (String "S" (String "D" t))) in *.
  cbn [JS.splitFrom]. rewrite Hp. reflexivity.
Qed.

(** ["USD"] has no border: an occurrence cannot begin inside a text free of
    it and run into an occurrence that follows the text. *)
Lemma usd_no_overlap (c : ascii) (a t : string) :
  JS.includes (String c a) "USD" = false ->
  String.prefix "USD" (String c (a +:+ "USD" +:+ t)) = false.
Proof.
  intros H. apply includes_cons_false in H as [H _].
  destruct a as [|c2 [|c3 a]]; ascii_cases; try congruence.
  by destruct a.
Qed.

Lemma split_usd_first (a b : string) :
  JS.includes a "USD" = false ->
  JS.split "USD" (a +:+ "USD" +:+ b) = a :: JS.split "USD" b.
Proof.
  induction a as [|c a IH]; intros Ha.
  - apply split_usd_here.
  - change (String c a +:+ "USD" +:+ b) with (String c (a +:+ "USD" +:+ b)).
    unfold JS.split in *. cbn [JS.splitFrom].
    rewrite (usd_no_overlap c a b Ha).
    apply includes_cons_false in Ha as [_ Ha]. by rewrite (IH Ha).
Qed.

Lemma split_usd_none (s : string) :
  JS.includes s "USD" = false -> JS.split "USD" s = [s].
Proof.
  induction s as [|c s IH]; intros Hs; [done|].
  apply includes_cons_false in Hs as [Hp Hs].
  unfold JS.split in *. cbn [JS.splitFrom]. rewrite Hp. by rewrite (IH Hs).
Qed.

Lemma usd_match_length (c : ascii) (a t : string) :
  String.prefix "USD" (String c (a +:+ "USD" +:+ t)) = true ->
  (2 <= String.length a)%nat.
Proof.
  destruct a as [|c2 [|c3 a]];
    cbn [String.length]; [| |lia]; ascii_cases; congruence.
Qed.

Lemma splitFrom_usd_later (a t : string) (k : nat) :
  (k <= String.length a)%nat ->
  (1 + length (JS.split "USD" t)
   <= length (JS.splitFrom "USD" k (a +:+ "USD" +:+ t)))%nat.
Proof.
  revert k. induction a as [|c a IH]; intros k Hk.
  - assert (k = 0%nat) as -> by (cbn in Hk; lia).
    change (JS.splitFrom "USD" 0 ("" +:+ "USD" +:+ t))
      with (JS.split "USD" ("USD" +:+ t)).
    rewrite split_usd_here. cbn [length]. lia.
  - change (String c a +:+ "USD" +:+ t) with (String c (a +:+ "USD" +:+ t)).
    cbn [JS.splitFrom]. destruct k as [|k].
    + destruct (String.prefix "USD" (String c (a +:+ "USD" +:+ t))) eqn:Hp.
      * apply usd_match_length in Hp. cbn [length String.length Nat.sub].
        specialize (IH 2%nat Hp). lia.
      * rewrite length_consHead by apply splitFrom_nonempty.
        apply IH. lia.
    + apply IH. cbn in Hk. lia.
Qed.

Lemma split_usd_many (a b c : string) :
  (3 <= length (JS.split "USD" (a +:+ "USD" +:+ b +:+ "USD" +:+ c)))%nat.
Proof.
  pose proof (splitFrom_usd_later a (b +:+ "USD" +:+ c) 0 ltac:(lia)) as H1.
  pose proof (splitFrom_usd_later b c 0 ltac:(lia)) as H2.
  pose proof (splitFrom_nonempty "USD" 0 c) as H3.
  unfold JS.split in *. destruct (JS.splitFrom "USD" 0 c); [done|].
  cbn [length] in H2. lia.
Qed.

Lemma stripPrefix_here (p s : string) : JS.stripPrefix p (p +:+ s) = s.
Proof.
  unfold JS.stripPrefix. rewrite prefix_app.
  induction p as [|c p IH]; [done | exact IH].
Qed.

(** C10.  On a ticker without ['-'], [DefaultDatafeed] removes a leading
    ["X."] and splits the rest on ["USD"]: with exactly one occurrence the
    result is the text before it followed by ["-USD"] (what follows the
    occurrence is dropped); with none, or with several, the ticker comes back
    unchanged. *)
Theorem default_ticker_conversion (t : string) :
  JS.includes t "-" = false ->
  let rest := JS.stripPrefix "X." t in
  (forall s, t = "X." +:+ s -> rest = s) /\
  (String.prefix "X." t = false -> rest = t) /\
  (forall a b, rest = a +:+ "USD" +:+ b ->
     JS.includes a "USD" = false -> JS.includes b "USD" = false ->
     Default._convertTickerFormat t = a +:+ "-USD") /\
  (JS.includes rest "USD" = false -> Default._convertTickerFormat t = t) /\
  (forall a b c, rest = a +:+ "USD" +:+ b +:+ "USD" +:+ c ->
     Default._convertTickerFormat t = t).
Proof.
  intros Ht rest. unfold Default._convertTickerFormat. rewrite Ht.
  fold rest. repeat split.
  - intros s ->. apply stripPrefix_here.
  - intros Hp. unfold rest, JS.stripPrefix. by rewrite Hp.
  - intros a b -> Ha Hb. by rewrite (split_usd_first a b Ha), (split_usd_none b Hb).
  - intros Hr. by rewrite (split_usd_none rest Hr).
  - intros a b c ->. pose proof (split_usd_many a b c) as H.
    destruct (JS.split "USD" (a +:+ "USD" +:+ b +:+ "USD" +:+ c))
      as [|p0 [|p1 [|p2 ps]]]; cbn [length] in H; (done || lia).
Qed.

Lemma default_ticker_conversion_witness :
  JS.includes "ETHUSDT" "-" = false /\
  Default._convertTickerFormat "ETHUSDT" = "ETH-USD".
Proof.
  split; [reflexivity|].
  apply (proj1 (proj2 (proj2 (default_ticker_conversion "ETHUSDT" eq_refl)))
           "ETH" "T"); reflexivity.
Defined.

(** ** Period normalisation *)

Lemma unit_cases (ts : string) :
  ts ∉ recognizedUnits ->
  String.eqb ts "minute" = false /\ String.eqb ts "hour" = false /\
  String.eqb ts "day" = false /\ String.eqb ts "week" = false /\
  String.eqb ts "month" = false.
Proof.
  intros H. repeat split; apply String.eqb_neq; intros ->; apply H;
    unfold recognizedUnits; set_solver.
Qed.

(** C9 (amended).  On a period whose unit is none of minute, hour, day, week
    and month, the conversions of [CCXTDataFeeds] and [OKXDataFeeds] return
    the one-minute interval and the conversion of [LocalDataFeeds] returns
    fifteen minutes; the three are total functions, so none throws. *)
Theorem unrecognized_unit_default (p : Period) :
  timespan p ∉ recognizedUnits ->
  CCXT._convertPeriodToTimeframe p = "1m" /\
  OKX._convertPeriodToBar p = "1m" /\
  Local._convertPeriodToTimeframe p = "15m".
Proof.
  intros H. apply unit_cases in H as (H1 & H2 & H3 & H4 & H5).
  unfold CCXT._convertPeriodToTimeframe, CCXT.suffixOf,
    OKX._convertPeriodToBar, OKX.suffixOf, Local._convertPeriodToTimeframe.
  cbn zeta. by rewrite H1, H2, H3, H4, H5.
Qed.

Lemma year_unrecognized : "year" ∉ recognizedUnits.
Proof.
  unfold recognizedUnits. intros H.
  repeat (apply elem_of_cons in H as [H|H]; [discriminate H|]).
  by apply elem_of_nil in H.
Qed.

Lemma unrecognized_unit_default_witness :
  (timespan (mkPeriod 1 "year" "1Y") ∉ recognizedUnits) /\
  Local._convertPeriodToTimeframe (mkPeriod 1 "year" "1Y") = "15m".
Proof.
  split; [exact year_unrecognized|].
  exact (proj2 (proj2 (unrecognized_unit_default
                         (mkPeriod 1 "year" "1Y") year_unrecognized))).
Defined.

(** C9, as stated, fails on [LocalDataFeeds]: a yearly period is converted to
    fifteen minutes, not to one minute. *)
Lemma local_unrecognized_unit_not_one_minute :
  ~ (forall p : Period, timespan p ∉ recognizedUnits ->
       Local._convertPeriodToTimeframe p = "1m").
Proof.
  intros H. specialize (H (mkPeriod 1 "year" "1Y") year_unrecognized).
  vm_compute in H. discriminate H.
Qed.

Lemma supported_cases (ts : string) (values : list Z) :
  OKX.supportedPeriods ts = Some values ->
  (ts = "minute" /\ values = [1; 3; 5; 15; 30]) \/
  (ts = "hour" /\ values = [1; 2; 4; 6; 12]) \/
  ((ts = "day" \/ ts = "week" \/ ts = "month") /\ values = [1]).
Proof.
  unfold OKX.supportedPeriods, OKX.minuteValues.
  repeat (case String.eqb_spec; [intros -> [= <-]; tauto | intros _]).
  discriminate.
Qed.

Ltac leb_cases :=
  repeat match goal with
         | |- context [Z.leb ?x ?y] => destruct (Z.leb_spec x y)
         end;
  cbn [from_option id];
  repeat match goal with
         | |- context [Z.ltb ?x ?y] => destruct (Z.ltb_spec x y)
         end.

Ltac elem_cases H :=
  repeat (apply elem_of_cons in H as [H|H]; [subst|]);
  try (by apply elem_of_nil in H).

(** C2 (amended).  [OKXDataFeeds] rounds onto its table: on a period whose
    unit has an entry, the bar is the unit's letter (m, H, D, W, M) after a
    multiplier taken from that entry, which is the largest supported value
    that does not exceed the requested multiplier when the request reaches
    the smallest supported value, and the smallest supported value otherwise.
    [CCXTDataFeeds] has no table and rounds nothing: its timeframe is the
    requested multiplier itself before the unit's letter (m, h, d, w, M). *)
Theorem interval_rounds_down (p : Period) (values : list Z) (sfx sfx' : string) :
  (timespan p, values, sfx, sfx')
  ∈ [("minute", [1; 3; 5; 15; 30], "m", "m");
     ("hour", [1; 2; 4; 6; 12], "H", "h");
     ("day", [1], "D", "d");
     ("week", [1], "W", "w");
     ("month", [1], "M", "M")] ->
  let m := multiplier p in
  exists v0 m',
    head values = Some v0 /\
    (forall v, v ∈ values -> v0 <= v) /\
    OKX._convertPeriodToBar p = JS.show m' +:+ sfx /\
    m' ∈ values /\
    (v0 <= m -> m' <= m /\ forall v, v ∈ values -> v <= m -> v <= m') /\
    (m < v0 -> m' = v0) /\
    CCXT._convertPeriodToTimeframe p = JS.show m +:+ sfx'.
Proof.
  destruct p as [m ts tx]. cbn [timespan multiplier]. intros H.
  rewrite !elem_of_cons, elem_of_nil in H.
  unfold OKX._convertPeriodToBar, OKX.actualMultiplier, OKX.supportedValues,
    CCXT._convertPeriodToTimeframe.
  cbn [timespan multiplier].
  destruct H as [H|[H|[H|[H|[H|[]]]]]]; injection H as -> -> -> ->;
    cbn -[JS.show Z.leb Z.ltb String.append];
    eexists 1, _;
    (split; [reflexivity|]);
    (split; [intros v Hv; elem_cases Hv; lia|]);
    (split; [reflexivity|]);
    (split; [leb_cases; try lia; set_solver|]);
    (split; [intros ?; split;
               [leb_cases; lia|intros v Hv ?; elem_cases Hv; leb_cases; lia]|]);
    (split; [intros ?; leb_cases; lia | reflexivity]).
Qed.

Lemma interval_rounds_down_witness :
  let p := mkPeriod 7 "minute" "7m" in
  let values := [1; 3; 5; 15; 30] in
  exists v0 m',
    head values = Some v0 /\
    (forall v, v ∈ values -> v0 <= v) /\
    OKX._convertPeriodToBar p = JS.show m' +:+ "m" /\
    m' ∈ values /\
    (v0 <= 7 -> m' <= 7 /\ forall v, v ∈ values -> v <= 7 -> v <= m') /\
    (7 < v0 -> m' = v0) /\
    CCXT._convertPeriodToTimeframe p = JS.show 7 +:+ "m".
Proof.
  exact (interval_rounds_down (mkPeriod 7 "minute" "7m") [1; 3; 5; 15; 30] "m" "m"
           (list_elem_of_here _ _)).
Defined.

Example okx_seven_minutes :
  OKX._convertPeriodToBar (mkPeriod 7 "minute" "7m") = "5m".
Proof. reflexivity. Qed.

(** ** Historical fetch *)

Lemma ascending_rev (ts : list Z) : descending ts -> ascending (rev ts).
Proof.
  unfold descending, ascending. induction 1 as [|a ts Hs IH Ha]; cbn [rev].
  - constructor.
  - assert (Forall (fun x => x <= a) (rev ts)) as Hle.
    { apply Forall_forall. intros x Hx. apply list_elem_of_In, in_rev in Hx.
      rewrite Forall_forall in Ha. specialize (Ha x).
      rewrite list_elem_of_In in Ha. specialize (Ha Hx). lia. }
    clear Hs Ha. induction IH as [|b l Hl IHl Hb]; cbn [app].
    + repeat constructor.
    + apply Forall_cons in Hle as [Hba Hle]. constructor; [by apply IHl|].
      apply Forall_app. split; [exact Hb | by constructor].
Qed.

Lemma sorted_filter {A} (R : Z -> Z -> Prop) (g : A -> Z) (f : A -> bool)
    (l : list A) :
  StronglySorted R (map g l) -> StronglySorted R (map g (List.filter f l)).
Proof.
  induction l as [|a l IH]; cbn [map List.filter]; [done|].
  intros Hs. apply StronglySorted_inv in Hs as [Hs Ha].
  destruct (f a); cbn [map]; [|by apply IH].
  constructor; [by apply IH|].
  rewrite Forall_forall in *. intros x Hx. apply Ha.
  apply list_elem_of_In, in_map_iff in Hx as (y & <- & Hy).
  apply list_elem_of_In, in_map. by apply filter_In in Hy as [Hy _].
Qed.

Lemma ccxt_timestamps (l : list CCXT.Candle) :
  timestamps (map CCXT.toKLineData l) = map CCXT.c_ts l.
Proof. unfold timestamps. rewrite map_map. reflexivity. Qed.

Lemma okx_timestamps (l : list OKX.Candle) :
  timestamps (map OKX.toKLineData l) = map OKX.c_ts l.
Proof. unfold timestamps. rewrite map_map. reflexivity. Qed.

Lemma filter_map_ts (from to : Z) (l : list CCXT.Candle) :
  map CCXT.c_ts (List.filter (CCXT.inRange from to) l)
  = List.filter (fun ts => (from <=? ts) && (ts <=? to)) (map CCXT.c_ts l).
Proof.
  induction l as [|a l IH]; cbn [map List.filter]; [done|].
  unfold CCXT.inRange at 1. destruct ((from <=? CCXT.c_ts a) && (CCXT.c_ts a <=? to));
    cbn [map]; by rewrite IH.
Qed.

Lemma ccxt_filtered_within (from to : Z) (l : list CCXT.Candle) :
  withinRange from to (map CCXT.toKLineData (List.filter (CCXT.inRange from to) l)).
Proof.
  unfold withinRange. apply Forall_forall. intros b Hb.
  apply list_elem_of_In, in_map_iff in Hb as (c & <- & Hc).
  apply filter_In in Hc as [_ Hc]. unfold CCXT.inRange in Hc.
  apply andb_prop in Hc as [H1 H2]. cbn [timestamp CCXT.toKLineData]. lia.
Qed.

(** *** Reading a computation backwards *)

Lemma bind_resolved {W A B} (m : IO W A) (k : A -> IO W B) (w w' : W) (b : B) :
  bind m k w = (Resolved b, w') ->
  exists a w1, m w = (Resolved a, w1) /\ k a w1 = (Resolved b, w').
Proof.
  unfold bind. destruct (m w) as [[a|e] w1]; [|discriminate]. eauto.
Qed.

Lemma tryCatch_rethrow {W A} (m : IO W A) (w : W) :
  tryCatch m (fun error => throw error) w = m w.
Proof. unfold tryCatch, throw. by destruct (m w) as [[a|e] w']. Qed.

Lemma toISOString_resolved {W} (ms : Z) (w w' : W) (u : unit) :
  toISOString ms w = (Resolved u, w') -> validTime ms = true /\ w' = w.
Proof.
  unfold toISOString. destruct (validTime ms); [|discriminate].
  by intros [= _ <-].
Qed.

Lemma toISOString_valid {W} (ms : Z) (w : W) :
  validTime ms = true -> toISOString ms w = (Resolved (), w).
Proof. unfold toISOString. by intros ->. Qed.

Lemma ret_resolved {W A} (a b : A) (w w' : W) :
  ret a w = (Resolved b, w') -> b = a /\ w' = w.
Proof. by intros [= <- <-]. Qed.

Lemma fetch_resolved {A} (req : Request) (net net' : Net A) (r : Response A) :
  fetch req net = (Resolved r, net') ->
  head (answers net) = Some (Responds r).
Proof.
  unfold fetch. destruct (answers net) as [|[|r0] rest]; try discriminate.
  by intros [= <- _].
Qed.

Lemma parseJson_resolved {W A} (r : Response A) (w w' : W) (a : A) :
  parseJson r w = (Resolved a, w') -> json r = Some a.
Proof. unfold parseJson. destruct (json r); [|discriminate]. by intros [= <- _]. Qed.

Lemma ensure_resolved (x x' : CCXT.Exchange) (u : unit) :
  CCXT._ensureMarketsLoaded x = (Resolved u, x') -> CCXT.ohlcvs x' = CCXT.ohlcvs x.
Proof.
  unfold CCXT._ensureMarketsLoaded, CCXT.loadMarkets, tryCatch, bind, throw.
  destruct (CCXT._markets x); [by intros [= _ <-]|].
  destruct (CCXT.loads x) as [|[[]|e] lds]; try discriminate.
  by intros [= _ <-].
Qed.

Lemma fetchOHLCV_resolved (c : CCXT.Call) (x x' : CCXT.Exchange)
    (ohlcv : list CCXT.Candle) :
  CCXT.fetchOHLCV c x = (Resolved ohlcv, x') ->
  head (CCXT.ohlcvs x) = Some (Resolved ohlcv).
Proof.
  unfold CCXT.fetchOHLCV. destruct (CCXT.ohlcvs x) as [|[o|e] rest]; try discriminate.
  by intros [= <- _].
Qed.

(** A resolved fetch of [CCXTDataFeeds] is the exchange's answer, clipped. *)
Lemma ccxt_history_resolved (sym : SymbolInfo) (per : Period) (from to : Z)
    (x x' : CCXT.Exchange) (bars : list KLineData) :
  CCXT.getHistoryKLineData sym per from to x = (Resolved bars, x') ->
  exists ohlcv,
    head (CCXT.ohlcvs x) = Some (Resolved ohlcv) /\
    bars = map CCXT.toKLineData (List.filter (CCXT.inRange from to) ohlcv).
Proof.
  unfold CCXT.getHistoryKLineData. rewrite tryCatch_rethrow. intros H.
  apply bind_resolved in H as (u & x1 & He & H).
  apply ensure_resolved in He.
  apply bind_resolved in H as (u1 & x2 & H1 & H).
  apply toISOString_resolved in H1 as [_ ->].
  apply bind_resolved in H as (u2 & x3 & H2 & H).
  apply toISOString_resolved in H2 as [_ ->].
  apply bind_resolved in H as (ohlcv & x4 & Hf & H).
  apply fetchOHLCV_resolved in Hf. rewrite He in Hf.
  exists ohlcv. split; [exact Hf|].
  destruct ohlcv as [|c0 ohlcv]; [by apply ret_resolved in H as [-> _]|].
  apply bind_resolved in H as (u3 & x5 & _ & H).
  apply bind_resolved in H as (u4 & x6 & _ & H).
  by apply ret_resolved in H as [-> _].
Qed.

(** A resolved fetch of [OKXDataFeeds] is the upstream's answer, reversed. *)
Lemma okx_history_resolved (sym : SymbolInfo) (per : Period) (from to : Z)
    (net net' : Net OKX.Body) (bars : list KLineData) :
  OKX.getHistoryKLineData sym per from to net = (Resolved bars, net') ->
  exists r body,
    head (answers net) = Some (Responds r) /\ ok r = true /\
    json r = Some body /\ OKX.code body = "0" /\
    bars = rev (map OKX.toKLineData (default [] (OKX.data body))).
Proof.
  unfold OKX.getHistoryKLineData. intros H.
  apply bind_resolved in H as (u1 & n1 & H1 & H).
  apply toISOString_resolved in H1 as [_ ->].
  apply bind_resolved in H as (u2 & n2 & H2 & H).
  apply toISOString_resolved in H2 as [_ ->].
  rewrite tryCatch_rethrow in H.
  apply bind_resolved in H as (r & n3 & Hf & H).
  apply fetch_resolved in Hf.
  destruct (ok r) eqn:Hok; cbn [negb] in H; [|discriminate].
  apply bind_resolved in H as (body & n4 & Hj & H).
  apply parseJson_resolved in Hj.
  destruct (String.eqb_spec (OKX.code body) "0") as [Hc|Hc]; cbn [negb] in H;
    [|discriminate].
  apply ret_resolved in H as [-> _]. by exists r, body.
Qed.

(** A resolved fetch of [DefaultDatafeed] is the upstream's answer, in its
    order. *)
Lemma default_history_resolved (apiKey : string) (sym : SymbolInfo)
    (per : Period) (from to : Z)
    (net net' : Net Default.Body) (bars : list KLineData) :
  Default.getHistoryKLineData apiKey sym per from to net = (Resolved bars, net') ->
  exists r body,
    head (answers net) = Some (Responds r) /\ ok r = true /\
    json r = Some body /\
    bars = map Default.toKLineData (default [] (Default.results body)).
Proof.
  unfold Default.getHistoryKLineData. intros H.
  apply bind_resolved in H as (u1 & n1 & H1 & H).
  apply toISOString_resolved in H1 as [_ ->].
  apply bind_resolved in H as (u2 & n2 & H2 & H).
  apply toISOString_resolved in H2 as [_ ->].
  rewrite tryCatch_rethrow in H.
  apply bind_resolved in H as (r & n3 & Hf & H).
  apply fetch_resolved in Hf.
  destruct (ok r) eqn:Hok; cbn [negb] in H; [|discriminate].
  apply bind_resolved in H as (body & n4 & Hj & H).
  apply parseJson_resolved in Hj.
  apply ret_resolved in H as [-> _]. by exists r, body.
Qed.

(** C5 (amended).  A historical fetch that succeeds returns, in
    [CCXTDataFeeds], the exchange's candles that lie in the requested range,
    in the exchange's order (so oldest first when the exchange answers oldest
    first); in [OKXDataFeeds], all the candles of the answer in reverse order
    (so oldest first when the upstream answers newest first); in
    [DefaultDatafeed], all the aggregates of the answer in their order. *)
Theorem history_order_and_range (apiKey : string) (sym : SymbolInfo)
    (per : Period) (from to : Z) :
  (forall x bars x',
     CCXT.getHistoryKLineData sym per from to x = (Resolved bars, x') ->
     withinRange from to bars /\
     exists ohlcv,
       head (CCXT.ohlcvs x) = Some (Resolved ohlcv) /\
       timestamps bars
       = List.filter (fun ts => (from <=? ts) && (ts <=? to)) (map CCXT.c_ts ohlcv) /\
       (ascending (map CCXT.c_ts ohlcv) -> ascending (timestamps bars))) /\
  (forall net bars net',
     OKX.getHistoryKLineData sym per from to net = (Resolved bars, net') ->
     exists r body,
       head (answers net) = Some (Responds r) /\ json r = Some body /\
       timestamps bars = rev (map OKX.c_ts (default [] (OKX.data body))) /\
       (descending (map OKX.c_ts (default [] (OKX.data body))) ->
        ascending (timestamps bars))) /\
  (forall net bars net',
     Default.getHistoryKLineData apiKey sym per from to net = (Resolved bars, net') ->
     exists r body,
       head (answers net) = Some (Responds r) /\ json r = Some body /\
       bars = map Default.toKLineData (default [] (Default.results body))).
Proof.
  repeat split.
  - apply ccxt_history_resolved in H as (ohlcv & _ & ->).
    apply ccxt_filtered_within.
  - apply ccxt_history_resolved in H as (ohlcv & Hh & ->).
    exists ohlcv. rewrite ccxt_timestamps, filter_map_ts. repeat split; [done|].
    rewrite <- filter_map_ts. apply sorted_filter.
  - intros net bars net' H.
    apply okx_history_resolved in H as (r & body & Hh & _ & Hj & _ & ->).
    exists r, body. unfold timestamps. rewrite map_rev. fold (timestamps (map OKX.toKLineData (default [] (OKX.data body)))).
    rewrite okx_timestamps. repeat split; [done..|]. apply ascending_rev.
  - intros net bars net' H.
    apply default_history_resolved in H as (r & body & Hh & _ & Hj & ->).
    by exists r, body.
Qed.

Lemma history_order_and_range_witness :
  let x := CCXT.mkExchange true [] [Resolved [ccxtCandle 500; ccxtCandle 5000]] [] in
  let net := mkNet [okxAnswer [okxCandle 5000; okxCandle 500]] [] in
  let net0 := mkNet [defaultAnswer [Default.mkAgg None 5000 1 2 1 2 10 None]] [] in
  (exists bars x', CCXT.getHistoryKLineData btc oneMinute 0 1000 x = (Resolved bars, x')
                   /\ withinRange 0 1000 bars) /\
  (exists bars net', OKX.getHistoryKLineData btc oneMinute 0 1000 net = (Resolved bars, net')
                     /\ timestamps bars = [500; 5000]) /\
  (exists bars net', Default.getHistoryKLineData "key" btc oneMinute 0 1000 net0 = (Resolved bars, net')
                     /\ timestamps bars = [5000]).
Proof.
  intros x net net0.
  destruct (history_order_and_range "key" btc oneMinute 0 1000) as (Hc & Ho & Hd).
  split; [|split].
  - eexists _, _. split; [reflexivity|].
    eapply (proj1 (Hc x _ _ eq_refl)).
  - eexists _, _. split; [reflexivity|].
    destruct (Ho net _ _ eq_refl) as (r & body & [= <-] & [= <-] & Ht & _).
    exact Ht.
  - eexists _, _. split; [reflexivity|].
    destruct (Hd net0 _ _ eq_refl) as (r & body & [= <-] & [= <-] & _).
    reflexivity.
Defined.

(** C5, as stated, fails on [OKXDataFeeds]: a candle outside the requested
    range that the upstream sends is returned. *)
Lemma okx_history_not_clipped :
  ~ (forall from to net bars net',
       OKX.getHistoryKLineData btc oneMinute from to net = (Resolved bars, net') ->
       withinRange from to bars /\ ascending (timestamps bars)).
Proof.
  intros H.
  destruct (H 0 1000 (mkNet [okxAnswer [okxCandle 5000]] []) _ _ eq_refl) as [Hr _].
  apply Forall_inv in Hr. cbn in Hr. lia.
Qed.

(** Nor is the order repaired: [DefaultDatafeed] hands on an answer that is
    newest first as it is. *)
Example default_history_not_sorted :
  exists bars net',
    Default.getHistoryKLineData "key" btc oneMinute 0 9000
      (mkNet [defaultAnswer [Default.mkAgg None 5000 1 2 1 2 10 None;
                             Default.mkAgg None 500 1 2 1 2 10 None]] [])
    = (Resolved bars, net') /\
    timestamps bars = [5000; 500] /\ ~ ascending (timestamps bars).
Proof.
  eexists _, _. split; [reflexivity|]. split; [reflexivity|].
  intros Hs. apply StronglySorted_inv in Hs as [_ Hs].
  apply Forall_inv in Hs. cbn in Hs. lia.
Qed.

Lemma local_history_caught (sym : SymbolInfo) (per : Period) (from to : Z)
    (net : Net (list KLineData)) :
  exists bars,
    Local.getHistoryKLineData sym per from to net
    = (Resolved bars,
       mkNet (tail (answers net))
             (requests net
                ++ [Local.klinesRequest sym (Local._convertPeriodToTimeframe per)
                      from to])).
Proof.
  unfold Local.getHistoryKLineData, tryCatch, bind, fetch, parseJson, throw, ret.
  destruct net as [[|[|r] rest] reqs]; cbn [answers requests tail]; eauto.
  destruct (ok r); cbn [negb]; eauto. destruct (json r); eauto.
Qed.

Lemma validTime_seconds (ms : Z) :
  validTime ms = true -> validTime (toSeconds ms * 1000) = true.
Proof.
  unfold validTime, toSeconds. rewrite !Z.leb_le. intros H.
  pose proof (Z.div_mod ms 1000 ltac:(lia)) as Hd.
  pose proof (Z.mod_pos_bound ms 1000 ltac:(lia)) as Hm. lia.
Qed.

(** C6 (amended).  When the upstream answers a historical fetch (for a
    range within the range of [Date]) with a status outside 2xx or with a
    body that does not parse, [DefaultDatafeed] and [OKXDataFeeds] reject.
    So does [CCXTDataFeeds] when the exchange library rejects, on a fresh
    adapter as on one whose markets are loaded: with the error of
    [fetchOHLCV] once the markets are there, and without calling
    [fetchOHLCV] when the markets cannot be loaded.  [LocalDataFeeds]
    catches the failure and resolves with the empty list.  In each adapter
    the one request is all that is sent. *)
Theorem history_failure_policy (apiKey : string) (sym : SymbolInfo)
    (per : Period) (from to : Z) :
  validTime from = true -> validTime to = true ->
  (forall (r : Response Default.Body) rest reqs, failed r ->
     exists e req,
       Default.getHistoryKLineData apiKey sym per from to (mkNet (Responds r :: rest) reqs)
       = (Rejected e, mkNet rest (reqs ++ [req]))) /\
  (forall (r : Response OKX.Body) rest reqs, failed r ->
     exists e req,
       OKX.getHistoryKLineData sym per from to (mkNet (Responds r :: rest) reqs)
       = (Rejected e, mkNet rest (reqs ++ [req]))) /\
  (forall x e rest,
     CCXT.ohlcvs x = Rejected e :: rest ->
     CCXT._markets x = true \/ head (CCXT.loads x) = Some (Resolved ()) ->
     exists call x',
       CCXT.getHistoryKLineData sym per from to x = (Rejected e, x') /\
       CCXT.ohlcvs x' = rest /\ CCXT.calls x' = CCXT.calls x ++ [call]) /\
  (forall x,
     CCXT._markets x = false -> head (CCXT.loads x) <> Some (Resolved ()) ->
     exists e x',
       CCXT.getHistoryKLineData sym per from to x = (Rejected e, x') /\
       CCXT.ohlcvs x' = CCXT.ohlcvs x /\ CCXT.calls x' = CCXT.calls x) /\
  (forall (r : Response (list KLineData)) rest reqs, failed r ->
     exists req,
       Local.getHistoryKLineData sym per from to (mkNet (Responds r :: rest) reqs)
       = (Resolved [], mkNet rest (reqs ++ [req]))).
Proof.
  intros Hfrom Hto.
  pose proof (validTime_seconds from Hfrom) as Hfrom'.
  pose proof (validTime_seconds to Hto) as Hto'.
  split; [|split; [|split; [|split]]].
  - intros r rest reqs Hf. unfold Default.getHistoryKLineData.
    unfold bind at 1. rewrite (toISOString_valid _ _ Hfrom').
    unfold bind at 1. rewrite (toISOString_valid _ _ Hto').
    unfold tryCatch, bind, fetch, parseJson, throw, ret. cbn [answers requests].
    destruct (ok r) eqn:Hok; cbn [negb]; [|by eexists _, _].
    destruct Hf as [Hf|Hf]; [congruence|]. rewrite Hf. by eexists _, _.
  - intros r rest reqs Hf. unfold OKX.getHistoryKLineData.
    unfold bind at 1. rewrite (toISOString_valid _ _ Hfrom').
    unfold bind at 1. rewrite (toISOString_valid _ _ Hto').
    unfold tryCatch, bind, fetch, parseJson, throw, ret. cbn [answers requests].
    destruct (ok r) eqn:Hok; cbn [negb]; [|by eexists _, _].
    destruct Hf as [Hf|Hf]; [congruence|]. rewrite Hf. by eexists _, _.
  - intros x e rest Ho Hm.
    unfold CCXT.getHistoryKLineData, tryCatch, bind, CCXT._ensureMarketsLoaded,
      CCXT.loadMarkets, tryCatch, bind, toISOString, CCXT.fetchOHLCV, throw, ret.
    rewrite Hfrom, Hto.
    destruct (CCXT._markets x) eqn:Hmk.
    + rewrite Ho. by eexists _, _.
    + destruct Hm as [Hm|Hm]; [discriminate|].
      destruct (CCXT.loads x) as [|[[]|e0] lds]; try discriminate Hm.
      cbn [CCXT.ohlcvs CCXT._markets CCXT.loads CCXT.calls].
      rewrite Ho. by eexists _, _.
  - intros x Hmk Hl.
    unfold CCXT.getHistoryKLineData, tryCatch, bind, CCXT._ensureMarketsLoaded,
      CCXT.loadMarkets, tryCatch, bind, throw.
    rewrite Hmk.
    destruct (CCXT.loads x) as [|[[]|e0] lds]; [by eexists _, _|by destruct Hl|].
    by eexists _, _.
  - intros r rest reqs Hf.
    unfold Local.getHistoryKLineData, tryCatch, bind, fetch, parseJson, throw, ret.
    cbn [answers requests].
    destruct (ok r) eqn:Hok; cbn [negb]; [|by eexists].
    destruct Hf as [Hf|Hf]; [congruence|]. rewrite Hf. by eexists.
Qed.

Lemma server_error_failed {A} : failed (@serverError A).
Proof. by left. Qed.

Lemma history_failure_policy_witness :
  validTime 0 = true /\ validTime 1000 = true /\
  (exists e req,
     Default.getHistoryKLineData "key" btc oneMinute 0 1000 (mkNet [Responds serverError] [])
     = (Rejected e, mkNet [] [req])) /\
  (exists e req,
     OKX.getHistoryKLineData btc oneMinute 0 1000 (mkNet [Responds serverError] [])
     = (Rejected e, mkNet [] [req])) /\
  (exists call x',
     CCXT.getHistoryKLineData btc oneMinute 0 1000
       (CCXT.mkExchange false [Resolved ()] [Rejected (mkError "502 Bad Gateway")] [])
     = (Rejected (mkError "502 Bad Gateway"), x') /\
     CCXT.ohlcvs x' = [] /\ CCXT.calls x' = [] ++ [call]) /\
  (exists e x',
     CCXT.getHistoryKLineData btc oneMinute 0 1000
       (CCXT.mkExchange false [Rejected (mkError "502 Bad Gateway")] [] [])
     = (Rejected e, x') /\
     CCXT.ohlcvs x' = [] /\ CCXT.calls x' = []) /\
  (exists req,
     Local.getHistoryKLineData btc oneMinute 0 1000 (mkNet [Responds serverError] [])
     = (Resolved [], mkNet [] [req])).
Proof.
  destruct (history_failure_policy "key" btc oneMinute 0 1000 eq_refl eq_refl)
    as (Hd & Ho & Hc & Hm & Hl).
  split; [reflexivity|]. split; [reflexivity|]. split; [|split; [|split; [|split]]].
  - exact (Hd serverError [] [] server_error_failed).
  - exact (Ho serverError [] [] server_error_failed).
  - exact (Hc (CCXT.mkExchange false [Resolved ()]
                 [Rejected (mkError "502 Bad Gateway")] [])
              (mkError "502 Bad Gateway") [] eq_refl (or_intror eq_refl)).
  - exact (Hm (CCXT.mkExchange false [Rejected (mkError "502 Bad Gateway")] [] [])
              eq_refl ltac:(discriminate)).
  - exact (Hl serverError [] [] server_error_failed).
Defined.

(** C6, as stated, fails on [LocalDataFeeds]: a response with status 500
    becomes the empty list. *)
Lemma local_history_failure_is_empty_list :
  ~ (forall r : Response (list KLineData), failed r ->
       exists e net',
         Local.getHistoryKLineData btc oneMinute 0 1000 (mkNet [Responds r] [])
         = (Rejected e, net')).
Proof.
  intros H.
  destruct (H serverError server_error_failed) as (e & net' & He).
  discriminate He.
Qed.

(** ** The subscription state machines *)

Lemma isString_true (o : option string) (s : string) :
  isString o s = true <-> o = Some s.
Proof.
  destruct o as [x|]; cbn; [|done].
  rewrite String.eqb_eq. split; congruence.
Qed.

Lemma isString_false (o : option string) (s : string) :
  isString o s = false <-> o <> Some s.
Proof.
  rewrite <- isString_true. destruct (isString o s); split; congruence.
Qed.

(** [LocalDataFeeds.unsubscribe] for a channel that is not the current one
    changes nothing. *)
Lemma local_unsubscribe_other (st : Local.State) (sym : SymbolInfo) (per : Period) :
  Local._currentChannel st <> Some (Local.channelOf sym per) ->
  Local.unsubscribe sym per st = st.
Proof.
  intros H. apply isString_false in H. unfold Local.unsubscribe.
  destruct (Local._ws st); [|done]. by rewrite H.
Qed.

(** [CCXTDataFeeds.unsubscribe] does not read its arguments. *)
Lemma ccxt_unsubscribe_any (st : CCXT.State) (sym sym' : SymbolInfo)
    (per per' : Period) :
  CCXT.unsubscribe sym per st = CCXT.unsubscribe sym' per' st.
Proof. reflexivity. Qed.

(** C3 (amended).  In [LocalDataFeeds], [unsubscribe] with a symbol and
    period whose channel is not the active channel changes nothing: socket,
    channel and callback stay.  [CCXTDataFeeds] keeps no channel:
    [unsubscribe] with any symbol and period clears the callback and the
    last timestamp and stops the polling timer. *)
Theorem unsubscribe_other_channel :
  (forall (st : Local.State) sym per C,
     Local._currentChannel st = Some C ->
     Local.channelOf sym per <> C ->
     Local.unsubscribe sym per st = st) /\
  (forall (st : CCXT.State) sym per,
     let st' := CCXT.unsubscribe sym per st in
     CCXT._currentCallback st' = None /\
     CCXT._lastTimestamp st' = None /\
     CCXT._pollingInterval st' = None /\
     (forall h iv, CCXT._pollingInterval st = Some h ->
        CCXT.intervals st' !! h = Some iv -> CCXT.ticking iv = false)).
Proof.
  split.
  - intros st sym per C HC Hne. apply local_unsubscribe_other. congruence.
  - intros st sym per. cbn. repeat split. intros h iv -> .
    unfold CCXT.clearInterval. destruct (CCXT.intervals st !! h) as [iv0|] eqn:Hh.
    + rewrite list_lookup_insert_eq by (by eapply lookup_lt_Some). by intros [= <-].
    + congruence.
Qed.

Lemma unsubscribe_other_channel_witness :
  let st := Local.subscribe btc oneMinute firstCallback (Local.init false) in
  let ct := CCXT.subscribe btc oneMinute firstCallback 0 (CCXT.init false) in
  (Local._currentChannel st = Some "BTC-USDT_1m" /\
   Local.channelOf eth fiveMinutes <> "BTC-USDT_1m" /\
   Local.unsubscribe eth fiveMinutes st = st) /\
  (CCXT._pollingInterval ct = Some 0%nat /\
   CCXT.intervals (CCXT.unsubscribe eth fiveMinutes ct) !! 0%nat
   = Some (CCXT.mkInterval false
             (CCXT.mkClosure "BTC/USDT" "1m" firstCallback (Some 60000)))).
Proof.
  intros st ct.
  assert (Local.channelOf eth fiveMinutes <> "BTC-USDT_1m") as Hne by discriminate.
  destruct unsubscribe_other_channel as [Hl Hc].
  split.
  - split; [reflexivity|]. split; [exact Hne|].
    exact (Hl st eth fiveMinutes _ eq_refl Hne).
  - split; [reflexivity|].
    destruct (Hc ct eth fiveMinutes) as (_ & _ & _ & Ht).
    specialize (Ht 0%nat _ eq_refl eq_refl). reflexivity.
Defined.

(** C3, as stated, fails on [CCXTDataFeeds]: after a subscription to
    BTC/USDT at one minute, [unsubscribe] for ETH/USDT at five minutes
    clears the callback and stops the timer of the active subscription. *)
Lemma ccxt_unsubscribe_other_channel_tears_down :
  let st := CCXT.subscribe btc oneMinute firstCallback 0 (CCXT.init false) in
  (CCXT._convertTickerToSymbol eth, CCXT._convertPeriodToTimeframe fiveMinutes)
  <> (CCXT._convertTickerToSymbol btc, CCXT._convertPeriodToTimeframe oneMinute) /\
  CCXT._currentCallback st = Some firstCallback /\
  CCXT.activeIntervals st = [0%nat] /\
  CCXT.unsubscribe eth fiveMinutes st <> st /\
  CCXT._currentCallback (CCXT.unsubscribe eth fiveMinutes st) = None /\
  CCXT.activeIntervals (CCXT.unsubscribe eth fiveMinutes st) = [].
Proof. cbv zeta. repeat split; try reflexivity; discriminate. Qed.

Lemma stateOf_lookup {K F} (socks : list (Socket K F)) (i : nat) (s : Socket K F) :
  socks !! i = Some s -> stateOf socks i = readyState s.
Proof. unfold stateOf. by intros ->. Qed.

Lemma option_eqb_refl (o : option string) : OKX.option_eqb o o = true.
Proof. destruct o; cbn; [apply String.eqb_refl | done]. Qed.

Lemma default_option_eqb_refl (o : option string) : Default.option_eqb o o = true.
Proof. destruct o; cbn; [apply String.eqb_refl | done]. Qed.

(** What a [subscribe] for the channel of the open connection does: in
    [LocalDataFeeds] it stores the new callback and changes nothing else.
    In [OKXDataFeeds] (for a symbol of the same market) and in
    [DefaultDatafeed] it keeps the connection and sends one more subscribe
    frame on it; the callback that is passed is not stored, and what the
    handlers of the socket captured stays as it was. *)
Theorem resubscribe_same_channel :
  (forall (st : Local.State) sym per cb i,
     Local._ws st = Some i ->
     stateOf (Local.sockets st) i = OPEN ->
     Local._currentChannel st = Some (Local.channelOf sym per) ->
     Local.subscribe sym per cb st
     = Local.mkState (Local._ws st) (Local._currentChannel st) (Some cb)
         (Local.sockets st) (Local.timers st) (Local.delivered st)
         (Local.wsThrows st)) /\
  (forall (st : OKX.State) sym per cb i s,
     OKX._ws st = Some i ->
     OKX.sockets st !! i = Some s -> readyState s = OPEN ->
     OKX._prevSymbolMarket st = market sym ->
     OKX._currentChannel st = Some (OKX.channelOf per) ->
     exists instId,
       OKX.subscribe sym per cb st
       = OKX.mkState (market sym) (Some i) (Some (OKX.channelOf per))
           (<[i := mkSocket OPEN (captured s)
                     (sent s ++ [OKX.mkFrame "subscribe" (OKX.channelOf per) instId])]>
              (OKX.sockets st))
           (OKX.delivered st)) /\
  (forall (st : Default.State) sym per cb i s,
     Default._ws st = Some i ->
     Default.sockets st !! i = Some s -> readyState s = OPEN ->
     Default._prevSymbolMarket st = market sym ->
     Default.subscribe sym per cb st
     = Default.mkState (Default._apiKey st) (market sym) (Some i)
         (<[i := mkSocket OPEN (captured s)
                   (sent s ++ [Default.mkFrame "subscribe"
                                 ("XA." +:+ Default._convertTickerFormat (ticker sym))])]>
            (Default.sockets st))
         (Default.delivered st)).
Proof.
  split; [|split].
  - intros st sym per cb i Hws Hopen Hch. unfold Local.subscribe.
    rewrite Hws, Hopen, Hch. cbn [isString ReadyState_eqb].
    by rewrite String.eqb_refl.
  - intros st sym per cb i s Hws Hs Hopen Hm Hch. eexists.
    unfold OKX.subscribe. rewrite Hws, Hm, Hch, option_eqb_refl.
    rewrite (stateOf_lookup _ _ _ Hs), Hopen. cbn [ReadyState_eqb negb orb].
    unfold OKX.channelOf. rewrite app_cons_l.
    cbn [JS.orElse String.eqb negb]. unfold wsSend. rewrite Hs, Hopen.
    reflexivity.
  - intros st sym per cb i s Hws Hs Hopen Hm.
    unfold Default.subscribe. rewrite Hws, Hm, default_option_eqb_refl.
    rewrite (stateOf_lookup _ _ _ Hs), Hopen. cbn [ReadyState_eqb negb orb].
    unfold wsSend. rewrite Hs, Hopen. reflexivity.
Qed.

Lemma resubscribe_same_channel_witness :
  let lt := Local.run (Local.init false)
              [Local.Subscribe btc oneMinute firstCallback; Local.SocketOpened 0] in
  let ot := OKX.run OKX.init
              [OKX.Subscribe btc oneMinute firstCallback; OKX.SocketOpened 0] in
  let dt := Default.run (Default.init "key")
              [Default.Subscribe btc oneMinute firstCallback; Default.SocketOpened 0] in
  Local.subscribe btc oneMinute secondCallback lt
  = Local.mkState (Some 0%nat) (Some "BTC-USDT_1m") (Some secondCallback)
      [mkSocket OPEN "BTC-USDT_1m" []] [] [] false /\
  (exists instId,
     OKX.subscribe btc oneMinute secondCallback ot
     = OKX.mkState (Some "crypto") (Some 0%nat) (Some "candles1m")
         [mkSocket OPEN (OKX.mkClosure "candles1m" "BTC-USDT" "BTC-USDT" firstCallback)
            [OKX.mkFrame "subscribe" "candles1m" "BTC-USDT";
             OKX.mkFrame "subscribe" "candles1m" instId]]
         []) /\
  Default.subscribe btc oneMinute secondCallback dt
  = Default.mkState "key" (Some "crypto") (Some 0%nat)
      [mkSocket OPEN (Default.mkClosure "BTC-USDT" firstCallback false)
         [Default.mkFrame "auth" "key"; Default.mkFrame "subscribe" "XA.BTC-USDT"]]
      [].
Proof.
  intros lt ot dt.
  destruct resubscribe_same_channel as (Hl & Ho & Hd).
  split; [|split].
  - exact (Hl lt btc oneMinute secondCallback 0%nat eq_refl eq_refl eq_refl).
  - destruct (Ho ot btc oneMinute secondCallback 0%nat _ eq_refl eq_refl eq_refl
                eq_refl eq_refl) as [instId H].
    exists instId. exact H.
  - exact (Hd dt btc oneMinute secondCallback 0%nat _ eq_refl eq_refl eq_refl eq_refl).
Defined.

(** In [OKXDataFeeds] the second [subscribe] for the channel of the open
    connection does not replace the callback (a bar that arrives afterwards
    goes to the first one) and a second subscribe frame is sent. *)
Lemma okx_resubscribe_keeps_first_callback :
  let st := OKX.run OKX.init
              [OKX.Subscribe btc oneMinute firstCallback; OKX.SocketOpened 0] in
  let st' := OKX.subscribe btc oneMinute secondCallback st in
  let m := OKX.mkMessage None (Some ("candles1m", "BTC-USDT"))
             (Some [Some (okxCandle 60000)]) in
  OKX._ws st = Some 0%nat /\
  stateOf (OKX.sockets st) 0 = OPEN /\
  OKX._currentChannel st = Some (OKX.channelOf oneMinute) /\
  map receiver (OKX.delivered (OKX.step st' (OKX.SocketMessage 0 (Some m))))
  = [firstCallback] /\
  (sent <$> OKX.sockets st' !! 0%nat)
  = Some [OKX.mkFrame "subscribe" "candles1m" "BTC-USDT";
          OKX.mkFrame "subscribe" "candles1m" "BTC-USDT"].
Proof. cbv zeta. repeat split; reflexivity. Qed.

(** The same in [DefaultDatafeed]: the aggregate goes to the first
    callback. *)
Example default_resubscribe_keeps_first_callback :
  let st := Default.run (Default.init "key")
              [Default.Subscribe btc oneMinute firstCallback;
               Default.SocketOpened 0;
               Default.SocketMessage 0
                 (Some [Default.mkMessage (Some "status") (Some "auth_success")
                          None None None None 0 0 0 0 0 0 None]);
               Default.Subscribe btc oneMinute secondCallback;
               Default.SocketMessage 0
                 (Some [Default.mkMessage (Some "XA") None None None None
                          (Some "BTC-USDT") 60000 1 2 1 2 10 None])] in
  map receiver (Default.delivered st) = [firstCallback].
Proof. reflexivity. Qed.

(** C8.  The code departs from the claim that a [subscribe] reusing the
    open connection replaces the stored callback.  In [OKXDataFeeds] and in
    [DefaultDatafeed] the reuse branch, whose comments say that the new
    subscription is made, only sends a subscribe frame: the callback it is
    given is stored nowhere, and the handlers of the socket keep the first
    callback and keep filtering on the first symbol.  After [subscribe] for
    BTC-USDT and, on the open connection, [subscribe] for ETH-USDT of the
    same market and period (in [OKXDataFeeds] the same channel, [candles1m]),
    the connection and the channel are kept and the frame for ETH-USDT goes
    out; but a bar for ETH-USDT is discarded, and a bar for BTC-USDT still
    goes to the first callback.  The second callback is never called. *)
Theorem resubscribe_drops_new_subscriber :
  let ot := OKX.run OKX.init
              [OKX.Subscribe btc oneMinute firstCallback; OKX.SocketOpened 0] in
  let ot' := OKX.subscribe eth oneMinute secondCallback ot in
  let candle inst :=
    OKX.SocketMessage 0
      (Some (OKX.mkMessage None (Some ("candles1m", inst))
                           (Some [Some (okxCandle 60000)]))) in
  let dt := Default.run (Default.init "key")
              [Default.Subscribe btc oneMinute firstCallback;
               Default.SocketOpened 0;
               Default.SocketMessage 0
                 (Some [Default.mkMessage (Some "status") (Some "auth_success")
                          None None None None 0 0 0 0 0 0 None])] in
  let dt' := Default.subscribe eth oneMinute secondCallback dt in
  let aggregate pair :=
    Default.SocketMessage 0
      (Some [Default.mkMessage (Some "XA") None None None None
               (Some pair) 60000 1 2 1 2 10 None]) in
  (OKX._ws ot = Some 0%nat /\ stateOf (OKX.sockets ot) 0 = OPEN /\
   OKX._currentChannel ot = Some (OKX.channelOf oneMinute)) /\
  (OKX._ws ot' = Some 0%nat /\ OKX._currentChannel ot' = Some "candles1m" /\
   (sent <$> OKX.sockets ot' !! 0%nat)
   = Some [OKX.mkFrame "subscribe" "candles1m" "BTC-USDT";
           OKX.mkFrame "subscribe" "candles1m" "ETH-USDT"]) /\
  OKX.delivered (OKX.run ot' [candle "ETH-USDT"]) = [] /\
  map receiver (OKX.delivered (OKX.run ot' [candle "ETH-USDT"; candle "BTC-USDT"]))
  = [firstCallback] /\
  (Default._ws dt = Some 0%nat /\ stateOf (Default.sockets dt) 0 = OPEN) /\
  (Default._ws dt' = Some 0%nat /\
   (sent <$> Default.sockets dt' !! 0%nat)
   = Some [Default.mkFrame "auth" "key";
           Default.mkFrame "subscribe" "XA.BTC-USDT";
           Default.mkFrame "subscribe" "XA.ETH-USDT"]) /\
  Default.delivered (Default.run dt' [aggregate "ETH-USDT"]) = [] /\
  map receiver
      (Default.delivered (Default.run dt' [aggregate "ETH-USDT"; aggregate "BTC-USDT"]))
  = [firstCallback].
Proof. cbv zeta. repeat split; reflexivity. Qed.

(** C1.  The code departs from the claim of at most one live connection:
    in [LocalDataFeeds], a [subscribe] for another channel while the socket
    of the first is open calls [unsubscribe] with the new symbol and period,
    which the channel test of [unsubscribe] turns into nothing, so the first
    socket is never closed.  Once everything has settled two sockets are
    open, the first still bound to the first channel. *)
Theorem local_subscribe_after_open_leaves_two_sockets :
  let st := Local.run (Local.init false)
              [Local.Subscribe btc oneMinute firstCallback;
               Local.SocketOpened 0;
               Local.Subscribe eth oneMinute firstCallback;
               Local.SocketOpened 1] in
  Local.settled st = true /\
  liveSockets (Local.sockets st) = [0; 1]%nat /\
  openSockets (Local.sockets st) = [0; 1]%nat /\
  (captured <$> Local.sockets st !! 0%nat) = Some "BTC-USDT_1m" /\
  (captured <$> Local.sockets st !! 1%nat) = Some "ETH-USDT_1m" /\
  Local._ws st = Some 1%nat /\
  Local._currentChannel st = Some "ETH-USDT_1m".
Proof. cbv zeta. repeat split; reflexivity. Qed.

(** The same departure when the second [subscribe] is for the same channel
    and comes before the first socket has opened: both sockets open and both
    deliver to the callback. *)
Example local_subscribe_twice_delivers_twice :
  let st := Local.run (Local.init false)
              [Local.Subscribe btc oneMinute firstCallback;
               Local.Subscribe btc oneMinute firstCallback;
               Local.SocketOpened 0;
               Local.SocketOpened 1;
               Local.TimerFired 0;
               Local.SocketMessage 0 (Some (OKX.toKLineData (okxCandle 60000)));
               Local.SocketMessage 1 (Some (OKX.toKLineData (okxCandle 60000)))] in
  Local.settled st = true /\
  openSockets (Local.sockets st) = [0; 1]%nat /\
  map via (Local.delivered st) = [0; 1]%nat.
Proof. cbv zeta. repeat split; reflexivity. Qed.

(** In [CCXTDataFeeds] a poll of the first subscription that is still in
    flight when the second [subscribe] comes delivers its bar, to the first
    callback, after the switch. *)
Example ccxt_poll_in_flight_delivers_after_switch :
  let st := CCXT.run (CCXT.init false)
              [CCXT.Subscribe btc oneMinute firstCallback 0;
               CCXT.Subscribe eth oneMinute secondCallback 10;
               CCXT.FetchSettled 0 (Resolved [ccxtCandle 60000])] in
  CCXT.activeIntervals st = [1%nat] /\
  map (fun d => (CCXT.symbol (fst d), CCXT.subscriber (fst d), timestamp (snd d)))
      (CCXT.delivered st)
  = [("BTC/USDT", firstCallback, 60000)].
Proof. cbv zeta. split; reflexivity. Qed.

(** C4.  The code departs from the claim of strictly increasing
    deliveries: the guard of [fetchLatest] reads [this._lastTimestamp] as a
    condition, so a last timestamp of [0] counts as none.  Within one polling
    subscription, two polls that both find the candle of timestamp [0] both
    reach the callback. *)
Theorem polling_redelivers_timestamp_zero :
  let st := CCXT.run (CCXT.init false)
              [CCXT.Subscribe btc oneMinute firstCallback 1000;
               CCXT.FetchSettled 0 (Resolved [ccxtCandle 0]);
               CCXT.Tick 0 61000;
               CCXT.FetchSettled 0 (Resolved [ccxtCandle 0])] in
  map (fun d => (CCXT.subscriber (fst d), timestamp (snd d))) (CCXT.delivered st)
  = [(firstCallback, 0); (firstCallback, 0)].
Proof. reflexivity. Qed.

(** After a candle of timestamp [0] an older candle is delivered as well. *)
Example polling_goes_back_after_zero :
  let st := CCXT.run (CCXT.init false)
              [CCXT.Subscribe btc oneMinute firstCallback 1000;
               CCXT.FetchSettled 0 (Resolved [ccxtCandle 0]);
               CCXT.Tick 0 61000;
               CCXT.FetchSettled 0 (Resolved [ccxtCandle (-60000)])] in
  map (fun d => timestamp (snd d)) (CCXT.delivered st) = [0; -60000].
Proof. reflexivity. Qed.

(** ** Polling: what the guard does guarantee *)

Lemma sorted_snoc (l : list Z) (a : Z) :
  StronglySorted Z.lt l -> Forall (fun x => x < a) l ->
  StronglySorted Z.lt (l ++ [a]).
Proof.
  induction 1 as [|b l Hl IH Hb]; intros Ha; cbn [app].
  - repeat constructor.
  - apply Forall_cons in Ha as [Hba Ha]. constructor; [by apply IH|].
    apply Forall_app. split; [exact Hb | by constructor].
Qed.

Lemma last_elem {A} (l : list A) (x : A) : last l = Some x -> In x l.
Proof.
  induction l as [|a [|b l] IH]; cbn; [done| |].
  - intros [= ->]. by left.
  - intros H. right. by apply IH.
Qed.

Lemma polling_step_invariant (st : CCXT.State) (e : CCXT.Event) :
  CCXT.isEnvironment e = true ->
  Forall (fun c => CCXT.c_ts c <> 0) (CCXT.candlesOf e) ->
  CCXT.pollingInvariant st -> CCXT.pollingInvariant (CCXT.step st e).
Proof.
  intros He Hnz (Hw & Hs & Hl). destruct e as [| |h now|n r|n r now|n];
    try discriminate He; cbn [CCXT.step].
  - destruct (CCXT.intervals st !! h) as [iv|]; [|done].
    destruct (CCXT.ticking iv); [|done].
    unfold CCXT.startFetch. by destruct (CCXT._currentCallback st).
  - destruct (CCXT.inFlight st !! n) as [k|]; [|done].
    unfold CCXT.finishFetch. destruct r as [ohlcv|err]; [|done].
    destruct (last ohlcv) as [latest|] eqn:Hlast; [|done].
    cbn [CCXT._lastTimestamp].
    destruct (CCXT.isNewer (CCXT._lastTimestamp st) (CCXT.c_ts latest)) eqn:Hn;
      [|done].
    assert (CCXT.c_ts latest <> 0) as Hz.
    { cbn [CCXT.candlesOf] in Hnz. rewrite Forall_forall in Hnz.
      apply Hnz, list_elem_of_In. by apply last_elem. }
    unfold CCXT.pollingInvariant, CCXT.deliveredTimestamps in *.
    cbn [CCXT.watchers CCXT.delivered CCXT._lastTimestamp].
    rewrite map_app. cbn [map snd timestamp CCXT.toKLineData].
    destruct (CCXT._lastTimestamp st) as [l|].
    + destruct Hl as [Hl0 Hle]. cbn [CCXT.isNewer] in Hn.
      apply orb_prop in Hn as [Hn|Hn]; [lia|].
      repeat split; [done| |done|].
      * apply sorted_snoc; [done|]. eapply Forall_impl; [exact Hle|].
        cbn. intros. lia.
      * apply Forall_app. split; [|by repeat constructor].
        eapply Forall_impl; [exact Hle|]. cbn. intros. lia.
    + rewrite Hl. cbn [map app]. repeat split; [done| |done|].
      * repeat constructor.
      * by repeat constructor.
  - by rewrite Hw.
  - by rewrite Hw.
Qed.

(** X23.  Within one polling subscription (no watcher, nothing delivered
    yet, no call of the host among the events), whatever the interleaving of timer
    ticks and answers of the exchange, the timestamps that reach the callback
    are strictly increasing, provided no candle has the timestamp [0]. *)
Lemma polling_increasing_when_nonzero (st : CCXT.State) (evs : list CCXT.Event) :
  CCXT.watchers st = [] -> CCXT.delivered st = [] ->
  CCXT._lastTimestamp st = None ->
  forallb CCXT.isEnvironment evs = true ->
  Forall (fun e => Forall (fun c => CCXT.c_ts c <> 0) (CCXT.candlesOf e)) evs ->
  StronglySorted Z.lt (CCXT.deliveredTimestamps (CCXT.run st evs)).
Proof.
  intros Hw Hd Hl Henv Hnz.
  assert (CCXT.pollingInvariant st) as Hinv.
  { unfold CCXT.pollingInvariant, CCXT.deliveredTimestamps.
    rewrite Hw, Hd, Hl. repeat split. constructor. }
  clear Hw Hd Hl. revert st Hinv.
  induction evs as [|e evs IH]; intros st Hinv; cbn [CCXT.run fold_left].
  - by destruct Hinv as (_ & Hs & _).
  - cbn [forallb] in Henv. apply andb_prop in Henv as [He Henv].
    apply Forall_cons in Hnz as [Hz Hnz].
    apply (IH Henv Hnz). by apply polling_step_invariant.
Qed.

(** ** Switching channels before the first socket has opened *)

(** The deferred close that [subscribe] schedules never closes anything:
    its test asks for a current channel other than the timer's, and
    [unsubscribe] then asks for the same channel. *)
Lemma local_timeout_does_nothing (t : Local.Timer) (st : Local.State) :
  Local.timerChannel t = Local.channelOf (Local.timerSymbol t) (Local.timerPeriod t) ->
  Local.ontimeout t st = st.
Proof.
  intros Ht. unfold Local.ontimeout. destruct (Local._ws st) eqn:Hws; [|done].
  destruct (isString (Local._currentChannel st) (Local.timerChannel t)) eqn:Hc;
    cbn [negb]; [done|].
  apply local_unsubscribe_other. rewrite <- Ht. by apply isString_false.
Qed.

Ltac switched_done :=
  solve [repeat split; first [done | by left | by right | discriminate | auto]].

Lemma local_switched_step (chA chB : string) (st : Local.State) (e : Local.Event) :
  chA <> chB -> Local.isEnvironment e = true ->
  Local.switched chA chB st -> Local.switched chA chB (Local.step st e).
Proof.
  intros Hne He (Hcap & H0 & Hch & Hd & Ht).
  assert (String.eqb chB chA = false) as Hba by (apply String.eqb_neq; congruence).
  destruct st as [ws ch cb socks tms dl thr].
  cbn [Local.sockets Local._currentChannel Local.delivered Local.timers] in *.
  destruct socks as [|[r0 k0 f0] [|[r1 k1 f1] [|? ?]]]; try discriminate Hcap.
  injection Hcap as -> ->. unfold stateOf in H0. cbn in H0.
  unfold Local.switched.
  destruct e as [| |i|i data|i|i|k]; try discriminate He; cbn [Local.step].
  - destruct i as [|[|i]]; cbn; [| |switched_done].
    + destruct r0; cbn; try switched_done.
      unfold Local.onopen, Local.setSockets. cbn.
      destruct Hch as [->| ->]; cbn; rewrite ?Hba; cbn; switched_done.
    + destruct r1; cbn; try switched_done.
      unfold Local.onopen, Local.setSockets. cbn.
      destruct Hch as [->| ->]; cbn; rewrite ?String.eqb_refl; cbn;
        switched_done.
  - destruct i as [|[|i]]; cbn; [| |switched_done].
    + destruct r0; cbn; switched_done.
    + destruct r1; cbn; try switched_done.
      unfold Local.onmessage. cbn.
      destruct Hch as [->| ->]; cbn; rewrite ?String.eqb_refl; cbn;
        [|switched_done].
      destruct data, cb; cbn; try switched_done.
      repeat split; auto. apply Forall_app. split; [done|by repeat constructor].
  - switched_done.
  - destruct i as [|[|i]]; cbn; [| |switched_done].
    + destruct r0; cbn; try switched_done;
        unfold Local.onclose, Local.setSockets; cbn;
        destruct Hch as [->| ->]; cbn; rewrite ?Hba; cbn; switched_done.
    + destruct r1; cbn; try switched_done;
        unfold Local.onclose, Local.setSockets; cbn;
        destruct Hch as [->| ->]; cbn; rewrite ?String.eqb_refl; cbn;
        switched_done.
  - cbn [Local.timers Local._ws Local._currentChannel Local._callback
         Local.sockets Local.delivered Local.wsThrows].
    destruct (tms !! k) as [t|] eqn:Hk; [|cbn; switched_done].
    rewrite local_timeout_does_nothing.
    + cbn. repeat split; auto. by apply Forall_delete.
    + rewrite Forall_forall in Ht. apply Ht. by eapply list_elem_of_lookup_2.
Qed.

Lemma local_switched_initially (symA symB : SymbolInfo) (perA perB : Period)
    (cbA cbB : callback) :
  Local.subscribe symB perB cbB (Local.subscribe symA perA cbA (Local.init false))
  = Local.mkState (Some 1%nat) (Some (Local.channelOf symB perB)) (Some cbB)
      [mkSocket CONNECTING (Local.channelOf symA perA) [];
       mkSocket CONNECTING (Local.channelOf symB perB) []]
      [Local.mkTimer symB perB (Local.channelOf symB perB)] [] false.
Proof.
  unfold Local.subscribe at 2. cbn.
  unfold Local.subscribe. cbn. rewrite andb_false_r. reflexivity.
Qed.

Lemma local_switched_run (chA chB : string) (evs : list Local.Event)
    (st : Local.State) :
  chA <> chB -> forallb Local.isEnvironment evs = true ->
  Local.switched chA chB st -> Local.switched chA chB (Local.run st evs).
Proof.
  intros Hne. revert st. induction evs as [|e evs IH]; intros st Henv Hst; [done|].
  cbn [forallb] in Henv. apply andb_prop in Henv as [He Henv].
  cbn [Local.run fold_left]. apply (IH _ Henv). by apply local_switched_step.
Qed.

(** X25.  On a fresh [LocalDataFeeds] adapter (nothing subscribed before,
    and [new WebSocket] not throwing), after [subscribe] for a channel A
    and, before its socket has opened, [subscribe] for another channel B,
    whatever the sockets and the timer do afterwards, and in whatever order,
    the only socket that can be open is the second, which is bound to B, and
    every bar that reaches a callback came through it. *)
Lemma local_switch_before_open (symA symB : SymbolInfo) (perA perB : Period)
    (cbA cbB : callback) (evs : list Local.Event) :
  Local.channelOf symA perA <> Local.channelOf symB perB ->
  forallb Local.isEnvironment evs = true ->
  let st := Local.run (Local.subscribe symB perB cbB
                         (Local.subscribe symA perA cbA (Local.init false))) evs in
  (forall i, In i (openSockets (Local.sockets st)) -> i = 1%nat) /\
  (captured <$> Local.sockets st !! 1%nat) = Some (Local.channelOf symB perB) /\
  Forall (fun d => via d = 1%nat) (Local.delivered st).
Proof.
  intros Hne Henv st.
  assert (Local.switched (Local.channelOf symA perA) (Local.channelOf symB perB) st)
    as (Hcap & H0 & _ & Hd & _).
  { apply local_switched_run; [done..|]. rewrite local_switched_initially.
    unfold Local.switched, stateOf. cbn. switched_done. }
  destruct (Local.sockets st) as [|s0 [|s1 [|? ?]]]; try discriminate Hcap.
  injection Hcap as Hc0 Hc1. repeat split; [|by cbn; rewrite Hc1|done].
  intros i Hi. unfold openSockets in Hi. apply filter_In in Hi as [Hi Ho].
  cbn in Hi. destruct Hi as [<-|[<-|[]]]; [|done].
  unfold stateOf in H0, Ho. cbn in H0, Ho. by destruct (readyState s0).
Qed.

(** At the settle time of the scenario, here with the first socket opening
    first, exactly the second socket is open. *)
Example local_switch_settles :
  let st := Local.run (Local.init false)
              [Local.Subscribe btc oneMinute firstCallback;
               Local.Subscribe eth oneMinute secondCallback;
               Local.SocketOpened 0;
               Local.SocketOpened 1;
               Local.TimerFired 0;
               Local.SocketClosed 0;
               Local.SocketMessage 1 (Some (OKX.toKLineData (okxCandle 60000)))] in
  Local.settled st = true /\
  openSockets (Local.sockets st) = [1%nat] /\
  Local._currentChannel st = Some "ETH-USDT_1m" /\
  map (fun d => (receiver d, via d)) (Local.delivered st) = [(secondCallback, 1%nat)].
Proof. cbv zeta. repeat split; reflexivity. Qed.

Lemma ticker_conversion_idempotent_witness :
  JS.includes "BTC-USD" "-" = true /\
  Default._convertTickerFormat "BTC-USD" = "BTC-USD" /\
  OKX._convertTickerFormat "BTC-USD" "USDT" = "BTC-USD" /\
  JS.includes (ticker (mkSymbol "BTC/USDT" None None None)) "/" = true /\
  CCXT._convertTickerToSymbol (mkSymbol "BTC/USDT" None None None) = "BTC/USDT".
Proof.
  destruct ticker_conversion_idempotent as (_ & _ & _ & Hd & Ho & Hc).
  split; [reflexivity|]. split; [exact (Hd "BTC-USD" eq_refl)|].
  split; [exact (Ho "BTC-USD" "USDT" eq_refl)|]. split; [reflexivity|].
  exact (Hc (mkSymbol "BTC/USDT" None None None) eq_refl).
Defined.

(** ** At most one polling timer *)

Lemma clearInterval_ticking (h h' : nat) (ivs : list CCXT.Interval)
    (iv : CCXT.Interval) :
  CCXT.clearInterval h ivs !! h' = Some iv -> CCXT.ticking iv = true ->
  h' <> h /\ ivs !! h' = Some iv.
Proof.
  unfold CCXT.clearInterval. destruct (ivs !! h) as [iv0|] eqn:Hh.
  - destruct (decide (h' = h)) as [->|Hne].
    + rewrite list_lookup_insert_eq by (by eapply lookup_lt_Some).
      intros [= <-]. discriminate.
    + rewrite list_lookup_insert_ne by done. by intros.
  - intros H Ht. split; [|done]. intros ->. congruence.
Qed.

Lemma cleared_none_ticking (st : CCXT.State) (h : nat) (iv : CCXT.Interval) :
  CCXT.oneTimer st ->
  match CCXT._pollingInterval st with
  | Some h0 => CCXT.clearInterval h0 (CCXT.intervals st)
  | None => CCXT.intervals st
  end !! h = Some iv ->
  CCXT.ticking iv = false.
Proof.
  intros Hone. destruct (CCXT.ticking iv) eqn:Ht; [|done].
  destruct (CCXT._pollingInterval st) as [h0|] eqn:Hp.
  - intros H. apply clearInterval_ticking in H as [Hne H]; [|done].
    specialize (Hone _ _ H Ht). congruence.
  - intros H. specialize (Hone _ _ H Ht). congruence.
Qed.

Lemma unsubscribe_oneTimer (st : CCXT.State) (sym : SymbolInfo) (per : Period) :
  CCXT.oneTimer st -> CCXT.oneTimer (CCXT.unsubscribe sym per st).
Proof.
  intros Hone h iv H Ht. cbn in H.
  by rewrite (cleared_none_ticking st h iv Hone H) in Ht.
Qed.

Lemma subscribePolling_oneTimer (st : CCXT.State) (sym tf : string)
    (cb : callback) (now : Z) :
  CCXT.oneTimer st -> CCXT.oneTimer (CCXT._subscribePolling sym tf cb now st).
Proof.
  intros Hone h iv. unfold CCXT._subscribePolling, CCXT.startFetch.
  cbn [CCXT._currentCallback CCXT.intervals CCXT._pollingInterval].
  destruct (CCXT._currentCallback st);
    cbn [CCXT._currentCallback CCXT.intervals CCXT._pollingInterval];
    intros H Ht;
    (apply lookup_app_Some in H as [H|[Hlen H]];
     [by rewrite (cleared_none_ticking st h iv Hone H) in Ht|]);
    (destruct (h - _)%nat as [|n] eqn:Hn; [|by destruct n]);
    f_equal; lia.
Qed.

Lemma step_oneTimer (st : CCXT.State) (e : CCXT.Event) :
  CCXT.oneTimer st -> CCXT.oneTimer (CCXT.step st e).
Proof.
  intros Hone. destruct e as [sym per cb now|sym per|h now|n r|n r now|n];
    cbn [CCXT.step].
  - unfold CCXT.subscribe.
    set (st2 := CCXT.mkState (Some cb) _ _ _ _ _ _ _ _ _).
    assert (CCXT.oneTimer st2) as H2 by exact (unsubscribe_oneTimer st sym per Hone).
    destruct (CCXT.hasWatchOHLCV st2).
    + exact H2.
    + exact (subscribePolling_oneTimer st2 _ _ cb now H2).
  - by apply unsubscribe_oneTimer.
  - destruct (CCXT.intervals st !! h) as [iv|]; [|done].
    destruct (CCXT.ticking iv); [|done].
    unfold CCXT.startFetch. by destruct (CCXT._currentCallback st).
  - destruct (CCXT.inFlight st !! n) as [k|]; [|done].
    unfold CCXT.finishFetch. destruct r as [ohlcv|err]; [|exact Hone].
    destruct (last ohlcv); [|exact Hone].
    by destruct (CCXT.isNewer _ _).
  - destruct (CCXT.watchers st !! n) as [w|]; [|done].
    destruct (CCXT.phase w); try done.
    unfold CCXT.watchSettled. destruct r as [ohlcv|err].
    + by destruct (last ohlcv).
    + by apply subscribePolling_oneTimer.
  - destruct (CCXT.watchers st !! n) as [w|]; [|done].
    by destruct (CCXT.phase w).
Qed.

(** X24.  Whatever the host calls and whatever happens in between,
    [CCXTDataFeeds] never has two polling timers ticking. *)
Lemma ccxt_at_most_one_timer (hasWatch : bool) (evs : list CCXT.Event)
    (h h' : nat) :
  In h (CCXT.activeIntervals (CCXT.run (CCXT.init hasWatch) evs)) ->
  In h' (CCXT.activeIntervals (CCXT.run (CCXT.init hasWatch) evs)) ->
  h = h'.
Proof.
  assert (CCXT.oneTimer (CCXT.run (CCXT.init hasWatch) evs)) as Hone.
  { assert (CCXT.oneTimer (CCXT.init hasWatch)) as H0 by (intros ? ? H; done).
    revert H0. generalize (CCXT.init hasWatch).
    induction evs as [|e evs IH]; intros st Hst; [done|].
    cbn [CCXT.run fold_left]. apply IH. by apply step_oneTimer. }
  unfold CCXT.activeIntervals. rewrite !filter_In.
  intros [_ H1] [_ H2].
  destruct (CCXT.intervals _ !! h) as [iv|] eqn:E1; [|done].
  destruct (CCXT.intervals _ !! h') as [iv'|] eqn:E2; [|done].
  pose proof (Hone _ _ E1 H1). pose proof (Hone _ _ E2 H2). congruence.
Qed.

(* ================================================================== *)
(** * Further properties of the adapters and of the chart host *)

(** ** Normalisation *)

Lemma supportedValues_cases (ts : string) :
  OKX.suffixOf ts = None \/
  (OKX.suffixOf ts = Some "m" /\ OKX.supportedValues ts = [1; 3; 5; 15; 30]) \/
  (OKX.suffixOf ts = Some "H" /\ OKX.supportedValues ts = [1; 2; 4; 6; 12]) \/
  (exists sfx, (sfx = "D" \/ sfx = "W" \/ sfx = "M") /\
               OKX.suffixOf ts = Some sfx /\ OKX.supportedValues ts = [1]).
Proof.
  unfold OKX.suffixOf, OKX.supportedValues, OKX.supportedPeriods, OKX.minuteValues.
  repeat (case String.eqb_spec; [intros _; cbn; eauto 10|intros _]).
  by left.
Qed.

Ltac in_list := apply list_elem_of_In; cbn [In]; repeat (first [by left | right]).

(** X1.  Whatever the period, the bar that [OKXDataFeeds] sends is one of
    the thirteen bars of its comment: 1m, 3m, 5m, 15m, 30m, 1H, 2H, 4H, 6H,
    12H, 1D, 1W and 1M. *)
Theorem okx_bar_vocabulary (p : Period) :
  OKX._convertPeriodToBar p
  ∈ ["1m"; "3m"; "5m"; "15m"; "30m"; "1H"; "2H"; "4H"; "6H"; "12H";
     "1D"; "1W"; "1M"].
Proof.
  destruct p as [m ts tx]. unfold OKX._convertPeriodToBar, OKX.actualMultiplier.
  cbn [timespan multiplier].
  destruct (supportedValues_cases ts)
    as [->|[[-> ->]|[[-> ->]|(sfx & Hs & -> & ->)]]];
    [in_list| | |];
    cbn [rev app List.find]; leb_cases; try lia;
    try (destruct Hs as [->|[->| ->]]); vm_compute; in_list.
Qed.

Lemma replaceFirst_first (pat rep a b : string) :
  pat <> "" -> JS.includes a pat = false ->
  (forall c a', String.prefix pat (String c a') = false ->
                String.prefix pat (String c (a' +:+ pat +:+ b)) = false) ->
  JS.replaceFirst pat rep (a +:+ pat +:+ b) = a +:+ rep +:+ b.
Proof.
  intros Hp Ha Hfar. induction a as [|c a IH].
  - rewrite !app_nil_l. destruct pat as [|c pat]; [done|].
    pose proof (prefix_app (String c pat) b) as Hpre.
    rewrite app_cons_l in *. cbn [JS.replaceFirst]. rewrite Hpre. f_equal.
    clear. change (JS.dropn (String.length (String c pat)) (String c (pat +:+ b)))
      with (JS.dropn (String.length pat) (pat +:+ b)).
    induction pat as [|d pat IH]; [done|exact IH].
  - apply includes_cons_false in Ha as [Hc Ha]. rewrite !app_cons_l.
    cbn [JS.replaceFirst]. rewrite (Hfar c a Hc). f_equal. by apply IH.
Qed.

Lemma dash_not_prefix (c : ascii) (a t : string) :
  String.prefix "-" (String c a) = false ->
  String.prefix "-" (String c (a +:+ t)) = false.
Proof.
  cbn [String.prefix]. destruct (ascii_dec "-" c); [|done].
  intros H. by destruct a.
Qed.

(** X2.  On a ticker with dashes and no slash, [CCXTDataFeeds] turns the
    first dash into a slash and leaves the others: BTC-USDT-SWAP becomes
    BTC/USDT-SWAP. *)
Theorem ccxt_first_dash_becomes_slash (a b : string) (sym : SymbolInfo) :
  ticker sym = a +:+ "-" +:+ b ->
  JS.includes (ticker sym) "/" = false ->
  JS.includes a "-" = false ->
  CCXT._convertTickerToSymbol sym = a +:+ "/" +:+ b.
Proof.
  intros Ht Hslash Ha. unfold CCXT._convertTickerToSymbol.
  rewrite Hslash, Ht, includes_app.
  apply replaceFirst_first; [done..|].
  intros c a' H. by apply dash_not_prefix.
Qed.

Lemma ccxt_first_dash_becomes_slash_witness :
  CCXT._convertTickerToSymbol (mkSymbol "BTC-USDT-SWAP" None None None)
  = "BTC" +:+ "/" +:+ "USDT-SWAP".
Proof.
  exact (ccxt_first_dash_becomes_slash "BTC" "USDT-SWAP"
           (mkSymbol "BTC-USDT-SWAP" None None None) eq_refl eq_refl eq_refl).
Defined.

(** ** Numerals: what a template literal writes, [parseInt] reads back *)

Lemma digitOf_char (d : N) :
  (d < 10)%N -> JS.digitOf (pretty_N_char d) = Some (Z.of_N d).
Proof.
  intros H.
  assert (d = 0 \/ d = 1 \/ d = 2 \/ d = 3 \/ d = 4 \/ d = 5 \/ d = 6 \/ d = 7
          \/ d = 8 \/ d = 9)%N as Hd by lia.
  repeat (destruct Hd as [->|Hd]; [reflexivity|]). by subst.
Qed.

Lemma digits_go (x : N) (s : string) :
  (0 < x)%N ->
  JS.digits None (pretty_N_go x s) = JS.digits (Some (Z.of_N x)) s.
Proof.
  revert s. induction (N.lt_wf_0 x) as [x _ IH]. intros s Hx.
  rewrite pretty_N_go_step by done.
  assert (x `mod` 10 < 10)%N as Hm by (apply N.mod_lt; lia).
  assert (x `div` 10 < x)%N as Hlt by (apply N.div_lt; lia).
  pose proof (N.div_mod x 10 ltac:(lia)) as Hdm.
  revert IH Hm Hlt Hdm. generalize (x `div` 10)%N (x `mod` 10)%N.
  intros q r IH Hm Hlt Hdm.
  destruct (decide (q = 0)%N) as [Hq|Hq].
  - rewrite Hq, pretty_N_go_0. cbn [JS.digits]. rewrite (digitOf_char _ Hm).
    cbn [default from_option id]. f_equal. f_equal. lia.
  - rewrite IH; [|done|lia].
    cbn [JS.digits]. rewrite (digitOf_char _ Hm). cbn [default from_option id].
    f_equal. f_equal. lia.
Qed.

Lemma go_head (x : N) (s : string) :
  (0 < x)%N -> exists c rest, pretty_N_go x s = String c rest /\ isDigit c.
Proof.
  revert s. induction (N.lt_wf_0 x) as [x _ IH]. intros s Hx.
  rewrite pretty_N_go_step by done.
  destruct (decide (x `div` 10 = 0)%N) as [Hq|Hq].
  - rewrite Hq, pretty_N_go_0. eexists _, _. split; [done|].
    exists (x `mod` 10)%N. split; [apply N.mod_lt; lia|done].
  - apply IH; [apply N.div_lt; lia|by apply N.neq_0_lt_0].
Qed.

Lemma digit_plain (c : ascii) :
  isDigit c ->
  JS.isSpace c = false /\ c <> "-"%char /\ c <> "+"%char /\ c <> "m"%char.
Proof.
  intros (d & Hd & ->).
  assert (d = 0 \/ d = 1 \/ d = 2 \/ d = 3 \/ d = 4 \/ d = 5 \/ d = 6 \/ d = 7
          \/ d = 8 \/ d = 9)%N as H by lia.
  repeat (destruct H as [->|H]; [by repeat split|]). subst. by repeat split.
Qed.

Lemma parseInt_digits (s : string) (c : ascii) (rest : string) :
  s = String c rest -> isDigit c -> JS.parseInt s = JS.digits None s.
Proof.
  intros -> Hc. apply digit_plain in Hc as (Hsp & Hm & Hp & _).
  unfold JS.parseInt. cbn [JS.trimStart]. rewrite Hsp.
  destruct c as [[] [] [] [] [] [] [] []]; try done.
Qed.

Lemma parseInt_positive (p : positive) :
  JS.parseInt (pretty (N.pos p)) = Some (Z.pos p).
Proof.
  unfold pretty, pretty_N. destruct (decide (N.pos p = 0%N)) as [|_]; [done|].
  destruct (go_head (N.pos p) "" ltac:(lia)) as (c & rest & Hs & Hc).
  rewrite (parseInt_digits _ c rest Hs Hc), digits_go by lia. reflexivity.
Qed.

(** An integer written by a template literal is read back by [parseInt] as
    the same integer. *)
Lemma parseInt_show (z : Z) : JS.parseInt (JS.show z) = Some z.
Proof.
  unfold JS.show, pretty, pretty_Z. destruct z as [|p|p].
  - reflexivity.
  - apply parseInt_positive.
  - pose proof (parseInt_positive p) as H.
    unfold pretty at 1, pretty_positive. rewrite app_cons_l, app_nil_l.
    unfold JS.parseInt in *. cbn [JS.trimStart].
    change (JS.isSpace "-") with false. cbv iota.
    unfold pretty, pretty_N in *.
    destruct (decide (N.pos p = 0%N)) as [|_]; [done|].
    destruct (go_head (N.pos p) "" ltac:(lia)) as (c & rest & Hs & Hc).
    rewrite digits_go by lia. reflexivity.
Qed.

Lemma char_not_prefix (d c : ascii) (a t : string) :
  String.prefix (String d "") (String c a) = false ->
  String.prefix (String d "") (String c (a +:+ t)) = false.
Proof.
  cbn [String.prefix]. destruct (ascii_dec d c); [|done].
  intros H. by destruct a.
Qed.

Lemma go_without_m (x : N) (s : string) :
  JS.includes s "m" = false -> JS.includes (pretty_N_go x s) "m" = false.
Proof.
  revert s. induction (N.lt_wf_0 x) as [x _ IH]. intros s Hs.
  destruct (decide (x = 0)%N) as [->|Hx]; [by rewrite pretty_N_go_0|].
  rewrite pretty_N_go_step by (by apply N.neq_0_lt_0).
  apply IH; [apply N.div_lt; [by apply N.neq_0_lt_0|done]|].
  cbn [JS.includes String.prefix]. rewrite Hs.
  assert (isDigit (pretty_N_char (x `mod` 10))) as Hd.
  { eexists. split; [|done]. by apply N.mod_lt. }
  apply digit_plain in Hd as (_ & _ & _ & Hm).
  destruct (ascii_dec "m" (pretty_N_char (x `mod` 10))); [congruence|done].
Qed.

Lemma show_without_m (z : Z) : JS.includes (JS.show z) "m" = false.
Proof.
  unfold JS.show, pretty, pretty_Z.
  destruct z as [|p|p]; [done| |];
    unfold pretty, pretty_positive, pretty, pretty_N;
    (destruct (decide (N.pos p = 0%N)) as [|_]; [done|]).
  - by apply go_without_m.
  - rewrite app_cons_l, app_nil_l. cbn [JS.includes String.prefix].
    rewrite go_without_m by done. by destruct (ascii_dec "m" "-").
Qed.

Lemma app_nil_r (s : string) : s +:+ "" = s.
Proof. induction s as [|c s IH]; [done|]. by rewrite app_cons_l, IH. Qed.

Lemma eqb_snoc_single (c0 : ascii) (a : string) (c d : ascii) :
  String.eqb (String c0 (a +:+ String c "")) (String d "") = false.
Proof.
  cbn [String.eqb]. destruct (Ascii.eqb c0 d); [|done]. by destruct a.
Qed.

Lemma endsWith_snoc (a : string) (c d : ascii) :
  JS.endsWith (a +:+ String c "") (String d "") = Ascii.eqb c d.
Proof.
  induction a as [|c0 a IH].
  - rewrite app_nil_l. cbn [JS.endsWith String.eqb]. by destruct (Ascii.eqb c d).
  - rewrite app_cons_l. cbn [JS.endsWith]. by rewrite eqb_snoc_single, IH.
Qed.

Lemma minutes_read_back (z : Z) :
  JS.parseInt (JS.replaceFirst "m" "" (JS.show z +:+ "m")) = Some z.
Proof.
  assert (JS.replaceFirst "m" "" (JS.show z +:+ "m" +:+ "")
          = JS.show z +:+ "" +:+ "") as H.
  { apply replaceFirst_first; [done|apply show_without_m|].
    intros c a' Hp. by apply (char_not_prefix "m"). }
  rewrite !app_nil_r in H. rewrite H. apply parseInt_show.
Qed.

Lemma show_minutes_inj (a b : Z) :
  JS.show a +:+ "m" = JS.show b +:+ "m" -> a = b.
Proof.
  intros H. pose proof (minutes_read_back a) as Ha. rewrite H in Ha.
  rewrite minutes_read_back in Ha. congruence.
Qed.

Lemma max_bound (l : list Z) (v : Z) : v ∈ l -> v <= foldr Z.max 0 l.
Proof.
  induction l as [|x l IH]; intros H; [by apply elem_of_nil in H|].
  apply elem_of_cons in H as [->|H]; cbn [foldr]; [lia|].
  specialize (IH H). lia.
Qed.

(** C2, as stated, fails on [CCXTDataFeeds]: its conversion does not round
    onto a set of supported values, whatever that set may be.  A request
    above every supported value comes back as it is. *)
Lemma ccxt_interval_not_rounded :
  ~ (exists values : list Z,
       forall p : Period, timespan p = "minute" ->
         exists m', m' ∈ values /\
                    CCXT._convertPeriodToTimeframe p = JS.show m' +:+ "m").
Proof.
  intros [values H].
  destruct (H (mkPeriod (foldr Z.max 0 values + 1) "minute" "") eq_refl)
    as (m' & Hin & Heq).
  change (CCXT._convertPeriodToTimeframe
            (mkPeriod (foldr Z.max 0 values + 1) "minute" ""))
    with (JS.show (foldr Z.max 0 values + 1) +:+ "m") in Heq.
  apply show_minutes_inj in Heq. apply max_bound in Hin. lia.
Qed.

(** The request for seven minutes: [OKXDataFeeds] asks for five, and
    [CCXTDataFeeds] for seven. *)
Example ccxt_seven_minutes :
  CCXT._convertPeriodToTimeframe (mkPeriod 7 "minute" "7m") = "7m" /\
  OKX._convertPeriodToBar (mkPeriod 7 "minute" "7m") = "5m".
Proof. split; reflexivity. Qed.

(** X3.  The polling interval that [CCXTDataFeeds] derives from the
    timeframe of a period: for minutes, the bar length capped at one minute
    (so one minute for every multiplier of one or more); five minutes for
    hours; fifteen minutes for days; one minute for weeks, months and
    unknown units. *)
Theorem polling_interval_of_period (p : Period) :
  CCXT._getPollingInterval (CCXT._convertPeriodToTimeframe p)
  = Some (if String.eqb (timespan p) "minute"
          then Z.min (multiplier p * 60 * 1000) 60000
          else if String.eqb (timespan p) "hour" then 300000
          else if String.eqb (timespan p) "day" then 900000
          else 60000) /\
  (1 <= multiplier p ->
   exists i, CCXT._getPollingInterval (CCXT._convertPeriodToTimeframe p) = Some i
             /\ 60000 <= i <= 900000).
Proof.
  assert (CCXT._getPollingInterval (CCXT._convertPeriodToTimeframe p)
          = Some (if String.eqb (timespan p) "minute"
                  then Z.min (multiplier p * 60 * 1000) 60000
                  else if String.eqb (timespan p) "hour" then 300000
                  else if String.eqb (timespan p) "day" then 900000
                  else 60000)) as H.
  { destruct p as [m ts tx]. cbn [timespan multiplier].
    unfold CCXT._convertPeriodToTimeframe, CCXT.suffixOf. cbn [timespan multiplier].
    unfold CCXT._getPollingInterval.
    repeat (case String.eqb_spec; intros _);
      rewrite ?endsWith_snoc; cbn [Ascii.eqb Bool.eqb];
      rewrite ?minutes_read_back; reflexivity. }
  split; [exact H|]. intros Hm. rewrite H. eexists. split; [reflexivity|].
  repeat (case String.eqb_spec; intros _); lia.
Qed.

Lemma polling_interval_of_period_witness :
  1 <= multiplier fiveMinutes /\
  exists i, CCXT._getPollingInterval (CCXT._convertPeriodToTimeframe fiveMinutes)
            = Some i /\ 60000 <= i <= 900000.
Proof.
  split; [done|].
  exact (proj2 (polling_interval_of_period fiveMinutes) ltac:(done)).
Defined.

(** ** Historical fetch: what a failure says and what it costs *)

(** X4.  [OKXDataFeeds.getHistoryKLineData] on a range within the range of
    [Date]: a response outside 2xx rejects with the status code and the
    status text, and a 2xx response whose body carries a code other than
    ['0'] rejects with the upstream's message, whatever candles the body
    holds. *)
Theorem okx_history_error_messages (sym : SymbolInfo) (per : Period) (from to : Z)
    (r : Response OKX.Body) (rest : list (Answer OKX.Body)) (reqs : list Request) :
  validTime from = true -> validTime to = true ->
  (ok r = false ->
   fst (OKX.getHistoryKLineData sym per from to (mkNet (Responds r :: rest) reqs))
   = Rejected (mkError ("API request failed: " +:+ JS.show (status r)
                        +:+ " " +:+ statusText r))) /\
  (forall body, ok r = true -> json r = Some body -> OKX.code body <> "0" ->
   fst (OKX.getHistoryKLineData sym per from to (mkNet (Responds r :: rest) reqs))
   = Rejected (mkError ("API error: " +:+ OKX.msg body))).
Proof.
  intros Hfrom%validTime_seconds Hto%validTime_seconds.
  split; [intros Hok|intros body Hok Hj Hc]; unfold OKX.getHistoryKLineData;
    (unfold bind at 1; rewrite (toISOString_valid _ _ Hfrom));
    (unfold bind at 1; rewrite (toISOString_valid _ _ Hto));
    unfold tryCatch, bind, fetch, parseJson, throw, ret; cbn [answers requests];
    rewrite Hok; cbn [negb]; [done|].
  rewrite Hj. by destruct (String.eqb_spec (OKX.code body) "0").
Qed.

Lemma okx_history_error_messages_witness :
  fst (OKX.getHistoryKLineData btc oneMinute 0 1000
         (mkNet [Responds (mkResponse true 200 "OK" ""
                             (Some (OKX.mkBody "51001" "Instrument ID does not exist"
                                               (Some [okxCandle 500]))))] []))
  = Rejected (mkError "API error: Instrument ID does not exist").
Proof.
  exact (proj2 (okx_history_error_messages btc oneMinute 0 1000
                  (mkResponse true 200 "OK" ""
                     (Some (OKX.mkBody "51001" "Instrument ID does not exist"
                                       (Some [okxCandle 500])))) [] []
                  eq_refl eq_refl)
               _ eq_refl eq_refl ltac:(discriminate)).
Defined.

(** X5.  A 2xx answer that parses but holds no list of bars is no failure:
    [OKXDataFeeds] (code ['0'], no [data]) and [DefaultDatafeed] (no
    [results]) resolve with the empty list. *)
Theorem history_without_list_is_empty (apiKey : string) (sym : SymbolInfo)
    (per : Period)
    (from to : Z) :
  validTime from = true -> validTime to = true ->
  (forall (r : Response OKX.Body) msg rest reqs,
     ok r = true -> json r = Some (OKX.mkBody "0" msg None) ->
     fst (OKX.getHistoryKLineData sym per from to (mkNet (Responds r :: rest) reqs))
     = Resolved []) /\
  (forall (r : Response Default.Body) rest reqs,
     ok r = true -> json r = Some (Default.mkBody None) ->
     fst (Default.getHistoryKLineData apiKey sym per from to
            (mkNet (Responds r :: rest) reqs))
     = Resolved []).
Proof.
  intros Hfrom%validTime_seconds Hto%validTime_seconds.
  split; [intros r msg rest reqs Hok Hj|intros r rest reqs Hok Hj];
    [unfold OKX.getHistoryKLineData|unfold Default.getHistoryKLineData];
    (unfold bind at 1; rewrite (toISOString_valid _ _ Hfrom));
    (unfold bind at 1; rewrite (toISOString_valid _ _ Hto));
    unfold tryCatch, bind, fetch, parseJson, throw, ret; cbn [answers requests];
    rewrite Hok; cbn [negb]; by rewrite Hj.
Qed.

Lemma history_without_list_is_empty_witness :
  fst (OKX.getHistoryKLineData btc oneMinute 0 1000
         (mkNet [Responds (mkResponse true 200 "OK" ""
                             (Some (OKX.mkBody "0" "" None)))] []))
  = Resolved [] /\
  fst (Default.getHistoryKLineData "key" btc oneMinute 0 1000
         (mkNet [Responds (mkResponse true 200 "OK" ""
                             (Some (Default.mkBody None)))] []))
  = Resolved [].
Proof.
  destruct (history_without_list_is_empty "key" btc oneMinute 0 1000 eq_refl eq_refl)
    as [Ho Hd].
  split.
  - exact (Ho (mkResponse true 200 "OK" "" (Some (OKX.mkBody "0" "" None)))
              "" [] [] eq_refl eq_refl).
  - exact (Hd (mkResponse true 200 "OK" "" (Some (Default.mkBody None)))
              [] [] eq_refl eq_refl).
Defined.

(** X6.  A range that [Date] cannot render fails before anything is sent:
    [DefaultDatafeed] and [OKXDataFeeds] reject with the [RangeError] of
    their log line and leave the network untouched, and [CCXTDataFeeds],
    with its markets loaded, rejects without a call of [fetchOHLCV]. *)
Theorem history_invalid_range_sends_nothing (apiKey : string)
    (sym : SymbolInfo) (per : Period)
    (from to : Z) :
  (validTime (toSeconds from * 1000) = false \/
   validTime (toSeconds to * 1000) = false ->
   (forall net, exists e,
      Default.getHistoryKLineData apiKey sym per from to net = (Rejected e, net)) /\
   (forall net, exists e,
      OKX.getHistoryKLineData sym per from to net = (Rejected e, net))) /\
  (validTime from = false \/ validTime to = false ->
   forall x, CCXT._markets x = true ->
             exists e, CCXT.getHistoryKLineData sym per from to x = (Rejected e, x)).
Proof.
  split.
  - intros H. split; intros net;
      [unfold Default.getHistoryKLineData|unfold OKX.getHistoryKLineData];
      unfold bind, toISOString, throw, ret;
      destruct (validTime (toSeconds from * 1000));
      destruct (validTime (toSeconds to * 1000)); try (by eexists);
      by destruct H.
  - intros H x Hx. unfold CCXT.getHistoryKLineData, tryCatch.
    unfold bind at 1. unfold CCXT._ensureMarketsLoaded. rewrite Hx.
    unfold bind, toISOString, throw, ret.
    destruct (validTime from); destruct (validTime to); try (by eexists);
      by destruct H.
Qed.

Lemma history_invalid_range_sends_nothing_witness :
  (exists e,
     Default.getHistoryKLineData "key" btc oneMinute 0 9000000000000000
       (mkNet [defaultAnswer []] [])
     = (Rejected e, mkNet [defaultAnswer []] [])) /\
  (exists e,
     OKX.getHistoryKLineData btc oneMinute 0 9000000000000000
       (mkNet [okxAnswer []] [])
     = (Rejected e, mkNet [okxAnswer []] [])) /\
  (exists e,
     CCXT.getHistoryKLineData btc oneMinute 0 9000000000000000
       (CCXT.mkExchange true [] [Resolved []] [])
     = (Rejected e, CCXT.mkExchange true [] [Resolved []] [])).
Proof.
  destruct (history_invalid_range_sends_nothing "key" btc oneMinute 0 9000000000000000)
    as [H1 H2].
  destruct (H1 (or_intror eq_refl)) as [Hd Ho].
  split; [exact (Hd _)|]. split; [exact (Ho _)|].
  exact (H2 (or_intror eq_refl) (CCXT.mkExchange true [] [Resolved []] []) eq_refl).
Defined.

(** X7.  [CCXTDataFeeds]: while the markets are not loaded, a rejection of
    [loadMarkets] rejects the historical fetch with an error that begins
    ['Failed to load markets: '], no call of [fetchOHLCV] is made, and the
    markets stay unloaded, so that the next fetch tries again. *)
Theorem ccxt_markets_failure (sym : SymbolInfo) (per : Period) (from to : Z)
    (x : CCXT.Exchange) (e : Error) (rest : list (Outcome unit)) :
  CCXT._markets x = false -> CCXT.loads x = Rejected e :: rest ->
  exists e',
    CCXT.getHistoryKLineData sym per from to x
    = (Rejected e', CCXT.mkExchange false rest (CCXT.ohlcvs x) (CCXT.calls x)) /\
    JS.startsWith (message e') "Failed to load markets: " = true.
Proof.
  intros Hm Hl.
  unfold CCXT.getHistoryKLineData, tryCatch. unfold bind at 1.
  unfold CCXT._ensureMarketsLoaded, tryCatch, bind, CCXT.loadMarkets, throw.
  rewrite Hm, Hl. eexists. split; [reflexivity|].
  apply prefix_app.
Qed.

Lemma ccxt_markets_failure_witness :
  exists e',
    CCXT.getHistoryKLineData btc oneMinute 0 1000
      (CCXT.mkExchange false [Rejected (mkError "timeout")]
                       [Resolved [ccxtCandle 500]] [])
    = (Rejected e', CCXT.mkExchange false [] [Resolved [ccxtCandle 500]] []) /\
    JS.startsWith (message e') "Failed to load markets: " = true.
Proof.
  exact (ccxt_markets_failure btc oneMinute 0 1000
           (CCXT.mkExchange false [Rejected (mkError "timeout")]
                            [Resolved [ccxtCandle 500]] [])
           (mkError "timeout") [] eq_refl eq_refl).
Defined.

Ltac ccxt_history_cases from to x :=
  unfold CCXT.getHistoryKLineData, tryCatch, bind, CCXT._ensureMarketsLoaded,
    CCXT.loadMarkets, tryCatch, bind, toISOString, CCXT.fetchOHLCV, throw, ret;
  destruct (CCXT._markets x) eqn:?;
  [|destruct (CCXT.loads x) as [|[[]|?] ?] eqn:?; try done];
  (destruct (validTime from); [|done]);
  (destruct (validTime to); [|done]);
  cbn [CCXT.ohlcvs CCXT._markets CCXT.loads CCXT.calls];
  (destruct (CCXT.ohlcvs x) as [|[[|? ?]|?] ?]; try done);
  try match goal with
  | |- context [head ?l] =>
      let kl := fresh "kl" in
      let b1 := fresh "first" in
      let b2 := fresh "final" in
      set (kl := l); clearbody kl;
      destruct (head kl) as [b1|]; [destruct (validTime (timestamp b1))|];
      try done;
      (destruct (last kl) as [b2|]; [destruct (validTime (timestamp b2))|]);
      try done
  end.

(** X8.  [CCXTDataFeeds] loads the markets once: with the markets loaded, a
    historical fetch never calls [loadMarkets]; and a historical fetch that
    resolves leaves the markets loaded, having called [loadMarkets] at most
    once. *)
Theorem ccxt_markets_loaded_once (sym : SymbolInfo) (per : Period) (from to : Z)
    (x : CCXT.Exchange) :
  (CCXT._markets x = true ->
   CCXT.loads (snd (CCXT.getHistoryKLineData sym per from to x)) = CCXT.loads x /\
   CCXT._markets (snd (CCXT.getHistoryKLineData sym per from to x)) = true) /\
  (forall bars x', CCXT.getHistoryKLineData sym per from to x = (Resolved bars, x') ->
     CCXT._markets x' = true /\
     (length (CCXT.loads x) <= length (CCXT.loads x') + 1)%nat).
Proof.
  split.
  - intros Hm. ccxt_history_cases from to x; first [done | congruence].
  - intros bars x'. ccxt_history_cases from to x;
      intros [= <- <-]; cbn; split; first [done | congruence | lia].
Qed.

Lemma ccxt_markets_loaded_once_witness :
  let x := CCXT.mkExchange true [Resolved ()] [Resolved [ccxtCandle 500]] [] in
  CCXT.loads (snd (CCXT.getHistoryKLineData btc oneMinute 0 1000 x)) = [Resolved ()] /\
  CCXT._markets (snd (CCXT.getHistoryKLineData btc oneMinute 0 1000 x)) = true.
Proof.
  exact (proj1 (ccxt_markets_loaded_once btc oneMinute 0 1000
                  (CCXT.mkExchange true [Resolved ()] [Resolved [ccxtCandle 500]] []))
               eq_refl).
Defined.

(** ** Search *)

(** X9.  [searchSymbols] of [LocalDataFeeds], [OKXDataFeeds] and
    [CCXTDataFeeds] never rejects, whatever the network or the exchange does:
    it resolves, and with the empty list when the upstream cannot be reached,
    answers outside 2xx or sends a body that does not parse (and, for
    [CCXTDataFeeds], when the markets cannot be loaded). *)
Theorem search_never_rejects (search : option string) :
  (forall P (net : Net (list (SymbolEntry P))),
     exists l net', Local.searchSymbols search net = (Resolved l, net') /\
       match answers net with
       | Responds r :: _ => failed r -> l = []
       | _ => l = []
       end) /\
  (forall net,
     exists l net', OKX.searchSymbols search net = (Resolved l, net') /\
       match answers net with
       | Responds r :: _ => failed r -> l = []
       | _ => l = []
       end) /\
  (forall exchangeId markets x,
     exists l x', CCXT.searchSymbols exchangeId markets search x = (Resolved l, x') /\
       (CCXT._markets x = false ->
        head (CCXT.loads x) <> Some (Resolved ()) -> l = [])).
Proof.
  split; [|split].
  - intros P [[|[|r] rest] reqs];
      unfold Local.searchSymbols, tryCatch, bind, fetch, parseJson, throw, ret;
      cbn [answers requests]; try by eexists _, _.
    destruct (ok r) eqn:Hok; cbn [negb].
    + destruct (json r) eqn:Hj; eexists _, _; (split; [reflexivity|]);
        intros [?|?]; congruence.
    + by eexists _, _.
  - intros [[|[|r] rest] reqs];
      unfold OKX.searchSymbols, tryCatch, bind, fetch, parseJson, throw, ret;
      cbn [answers requests]; try by eexists _, _.
    destruct (ok r) eqn:Hok; cbn [negb].
    + destruct (json r) as [body|] eqn:Hj.
      * destruct (negb (String.eqb (OKX.listCode body) "0"));
          eexists _, _; (split; [reflexivity|]); intros [?|?]; congruence.
      * by eexists _, _.
    + by eexists _, _.
  - intros exchangeId markets x.
    unfold CCXT.searchSymbols, tryCatch, bind, CCXT._ensureMarketsLoaded,
      CCXT.loadMarkets, tryCatch, bind, throw, ret.
    destruct (CCXT._markets x) eqn:Hm.
    + rewrite Hm. cbn [negb]. by eexists _, _.
    + destruct (CCXT.loads x) as [|[[]|e] lds]; cbn [CCXT._markets negb head];
        eexists _, _; (split; [reflexivity|]); done.
Qed.

(** X10.  [DefaultDatafeed.searchSymbols] has neither guard: it rejects
    when the upstream cannot be reached or the body does not parse, and a
    body that parses is used whatever the status of the response. *)
Theorem default_search_unguarded (apiKey : string) (search : option string)
    (rest : list (Answer Default.Tickers)) (reqs : list Request) :
  (exists e, fst (Default.searchSymbols apiKey search (mkNet (Unreachable :: rest) reqs))
             = Rejected e) /\
  (forall r, json r = None ->
     exists e, fst (Default.searchSymbols apiKey search
                      (mkNet (Responds r :: rest) reqs)) = Rejected e) /\
  (forall r body, json r = Some body ->
     fst (Default.searchSymbols apiKey search (mkNet (Responds r :: rest) reqs))
     = Resolved (map Default.toSymbolInfo (default [] (Default.tickerResults body)))).
Proof.
  unfold Default.searchSymbols, bind, fetch, parseJson, throw, ret.
  cbn [answers requests]. split; [by eexists|]. split.
  - intros r ->. by eexists.
  - by intros r body ->.
Qed.

Lemma default_search_unguarded_witness :
  fst (Default.searchSymbols "key" (Some "btc")
         (mkNet [Responds (mkResponse false 403 "Forbidden" ""
                             (Some (Default.mkTickers None)))] []))
  = Resolved [].
Proof.
  exact (proj2 (proj2 (default_search_unguarded "key" (Some "btc") [] []))
               (mkResponse false 403 "Forbidden" "" (Some (Default.mkTickers None)))
               (Default.mkTickers None) eq_refl).
Defined.

Lemma filter_sublist {A} (f : A -> bool) (l : list A) :
  sublist (List.filter f l) l.
Proof.
  induction l as [|a l IH]; cbn [List.filter]; [constructor|].
  destruct (f a); by constructor.
Qed.

Lemma map_sublist {A B} (f : A -> B) (l1 l2 : list A) :
  sublist l1 l2 -> sublist (map f l1) (map f l2).
Proof. induction 1; cbn [map]; by constructor. Qed.

(** X11.  In [OKXDataFeeds] and [CCXTDataFeeds] the query only narrows: on
    the same network or exchange, the symbols found for a query are, in
    their order, among the symbols found without one; the empty query is no
    query; and the query changes nothing in what is sent or loaded. *)
Theorem search_query_narrows (q : string) :
  (forall net,
     exists all found net',
       OKX.searchSymbols None net = (Resolved all, net') /\
       OKX.searchSymbols (Some q) net = (Resolved found, net') /\
       sublist found all /\ (q = "" -> found = all)) /\
  (forall exchangeId markets x,
     exists all found x',
       CCXT.searchSymbols exchangeId markets None x = (Resolved all, x') /\
       CCXT.searchSymbols exchangeId markets (Some q) x = (Resolved found, x') /\
       sublist found all /\ (q = "" -> found = all)).
Proof.
  split.
  - intros [[|[|r] rest] reqs];
      unfold OKX.searchSymbols, tryCatch, bind, fetch, parseJson, throw, ret;
      cbn [answers requests JS.given]; try by eexists _, _, _.
    destruct (ok r); cbn [negb]; [|by eexists _, _, _].
    destruct (json r) as [body|]; [|by eexists _, _, _].
    destruct (negb (String.eqb (OKX.listCode body) "0")); [by eexists _, _, _|].
    eexists _, _, _. split; [reflexivity|]. split; [reflexivity|]. split.
    + destruct (negb (String.eqb q "")); [|done].
      apply map_sublist, filter_sublist.
    + by intros ->.
  - intros exchangeId markets x.
    unfold CCXT.searchSymbols, tryCatch, bind, CCXT._ensureMarketsLoaded,
      CCXT.loadMarkets, tryCatch, bind, throw, ret. cbn [JS.given].
    assert (forall y : CCXT.Exchange,
              exists all found,
                (if negb (CCXT._markets y) then (Resolved [], y)
                 else (Resolved (map (CCXT.toSymbolInfo exchangeId)
                                     (List.filter CCXT.isActiveSpot markets)), y))
                = (Resolved all, y) /\
                (if negb (CCXT._markets y) then (Resolved [], y)
                 else (Resolved
                         (map (CCXT.toSymbolInfo exchangeId)
                              (if negb (String.eqb q "")
                               then List.filter (CCXT.matches (JS.toLowerCase q))
                                      (List.filter CCXT.isActiveSpot markets)
                               else List.filter CCXT.isActiveSpot markets)), y))
                = (Resolved found, y) /\
                sublist found all /\ (q = "" -> found = all)) as Hy.
    { intros y. destruct (negb (CCXT._markets y)); [by eexists _, _|].
      eexists _, _. split; [reflexivity|]. split; [reflexivity|]. split.
      - destruct (negb (String.eqb q "")); [|done].
        apply map_sublist, filter_sublist.
      - by intros ->. }
    destruct (CCXT._markets x) eqn:Hm.
    + destruct (Hy x) as (all & found & H1 & H2 & H3). rewrite Hm in H1, H2.
      rewrite Hm. by exists all, found, x.
    + destruct (CCXT.loads x) as [|[[]|e] lds]; cbn [CCXT._markets negb];
        try by eexists _, _, _.
      eexists _, _, _. split; [reflexivity|]. split; [reflexivity|]. split.
      * destruct (negb (String.eqb q "")); [|done].
        apply map_sublist, filter_sublist.
      * by intros ->.
Qed.

(** X12.  [CCXTDataFeeds.searchSymbols] returns spot markets that are not
    switched off, and nothing else: every symbol found is the image of a
    market of the table whose type is ['spot'] and whose [active] is not
    [false]; its ticker is the market's symbol and its exchange is the
    adapter's identifier in upper case. *)
Theorem ccxt_search_only_active_spot (exchangeId : string)
    (markets : list CCXT.Market) (search : option string) (x x' : CCXT.Exchange)
    (found : list (SymbolEntry float)) :
  CCXT.searchSymbols exchangeId markets search x = (Resolved found, x') ->
  Forall (fun entry =>
            entryExchange entry = JS.toUpperCase exchangeId /\
            exists m, In m markets /\ entryTicker entry = CCXT.mk_symbol m /\
                      CCXT.mk_type m = Some "spot" /\
                      CCXT.active m <> Some false) found.
Proof.
  assert (forall l,
            (forall m, In m l -> In m markets /\ CCXT.isActiveSpot m = true) ->
            Forall (fun entry =>
                      entryExchange entry = JS.toUpperCase exchangeId /\
                      exists m, In m markets /\ entryTicker entry = CCXT.mk_symbol m /\
                                CCXT.mk_type m = Some "spot" /\
                                CCXT.active m <> Some false)
                   (map (CCXT.toSymbolInfo exchangeId) l)) as Hmap.
  { intros l Hl. apply Forall_forall. intros entry He.
    apply list_elem_of_In, in_map_iff in He as (m & <- & Hm).
    destruct (Hl m Hm) as [Hin Hs]. split; [done|]. exists m.
    unfold CCXT.isActiveSpot in Hs. apply andb_prop in Hs as [Ht Ha].
    apply isString_true in Ht. repeat split; [done..|].
    intros E. by rewrite E in Ha. }
  assert (forall m, In m (List.filter CCXT.isActiveSpot markets) ->
                    In m markets /\ CCXT.isActiveSpot m = true) as Hspot
    by (intros m; apply filter_In).
  unfold CCXT.searchSymbols, tryCatch, bind, throw, ret.
  destruct (CCXT._ensureMarketsLoaded x) as [[u|e] x1]; [|by intros [= <- _]].
  destruct (negb (CCXT._markets x1)); [by intros [= <- _]|].
  intros [= <- _]. apply Hmap. destruct (JS.given search); [|done].
  intros m [Hm _]%filter_In. by apply Hspot.
Qed.

Lemma ccxt_search_only_active_spot_witness :
  let spot := CCXT.mkMarket "BTC/USDT" (Some "BTC") (Some "USDT") None None
                            (Some "spot") None None in
  let swap := CCXT.mkMarket "BTC/USDT:USDT" (Some "BTC") (Some "USDT") None None
                            (Some "swap") None None in
  exists found x',
    CCXT.searchSymbols "okx" [spot; swap] (Some "btc")
      (CCXT.mkExchange true [] [] []) = (Resolved found, x') /\
    map entryTicker found = ["BTC/USDT"] /\
    Forall (fun entry =>
              entryExchange entry = JS.toUpperCase "okx" /\
              exists m, In m [spot; swap] /\ entryTicker entry = CCXT.mk_symbol m /\
                        CCXT.mk_type m = Some "spot" /\
                        CCXT.active m <> Some false) found.
Proof.
  intros spot swap. eexists _, _. split; [reflexivity|]. split; [reflexivity|].
  exact (ccxt_search_only_active_spot "okx" [spot; swap] (Some "btc")
           (CCXT.mkExchange true [] [] []) _ _ eq_refl).
Defined.

Lemma search_never_rejects_witness :
  exists l net',
    OKX.searchSymbols (Some "btc") (mkNet [Responds serverError] [])
    = (Resolved l, net') /\ l = [].
Proof.
  destruct (proj1 (proj2 (search_never_rejects (Some "btc")))
              (mkNet [Responds serverError] [])) as (l & net' & H & Hl).
  exists l, net'. split; [exact H|exact (Hl server_error_failed)].
Defined.

Lemma search_query_narrows_witness :
  exists all found net',
    OKX.searchSymbols None (mkNet [] []) = (Resolved all, net') /\
    OKX.searchSymbols (Some "") (mkNet [] []) = (Resolved found, net') /\
    found = all.
Proof.
  destruct (proj1 (search_query_narrows "") (mkNet [] []))
    as (all & found & net' & H1 & H2 & _ & H3).
  exists all, found, net'. split; [exact H1|]. split; [exact H2|exact (H3 eq_refl)].
Defined.

(** ** Construction of [CCXTDataFeeds] *)

(** X13.  The constructor of [CCXTDataFeeds] creates an exchange exactly
    when there is no [window], the exchange library is loaded and the library
    has a class for the identifier in lower case; the exchange is then
    created under the lower-case identifier, with rate limiting on and a
    timeout of 60 seconds.  With a [window] it throws the browser message
    whatever else holds. *)
Theorem ccxt_construct_guards (rt : CCXT.Runtime) (exchangeId : string)
    (credentials : option CCXT.Credentials) (passed : option CCXT.ProxyConfig) :
  ((exists created, CCXT.construct rt exchangeId credentials passed = inr created)
   <-> CCXT.hasWindow rt = false /\ CCXT.ccxtLoaded rt = true /\
       CCXT.knows rt (JS.toLowerCase exchangeId) = true) /\
  (forall i o, CCXT.construct rt exchangeId credentials passed = inr (i, o) ->
     i = JS.toLowerCase exchangeId /\
     CCXT.enableRateLimit o = true /\ CCXT.timeout o = 60000) /\
  (CCXT.hasWindow rt = true ->
   CCXT.construct rt exchangeId credentials passed
   = inl (mkError CCXT.browserMessage)).
Proof.
  unfold CCXT.construct.
  destruct (CCXT.hasWindow rt), (CCXT.ccxtLoaded rt),
    (CCXT.knows rt (JS.toLowerCase exchangeId)); cbn [negb];
    (split; [split; [by intros [? ?]|by intros (? & ? & ?); eauto]|]);
    (split; [|done]); intros i o [= <- <-]; done.
Qed.

Lemma ccxt_construct_guards_witness :
  let rt := CCXT.mkRuntime false true (String.eqb "okx") None in
  exists created, CCXT.construct rt "OKX" None None = inr created.
Proof.
  intros rt.
  exact (proj2 (proj1 (ccxt_construct_guards rt "OKX" None None))
               (conj eq_refl (conj eq_refl eq_refl))).
Defined.

(** X14.  The proxy options that the constructor of [CCXTDataFeeds] hands
    to the exchange: either none at all, or both [proxy] and [proxies], with
    both entries of [proxies] non-empty and [proxy] equal to the https
    entry.  Proxies passed to the constructor hide the environment
    altogether. *)
Theorem ccxt_proxy_options (exchangeId : string)
    (credentials : option CCXT.Credentials) :
  (forall rt passed i o,
     CCXT.construct rt exchangeId credentials passed = inr (i, o) ->
     match CCXT.proxies o with
     | None => CCXT.proxy o = None
     | Some cfg => JS.given (CCXT.http cfg) = true /\
                   JS.given (CCXT.https cfg) = true /\
                   CCXT.proxy o = CCXT.https cfg
     end) /\
  (forall w l k env env' explicit,
     CCXT.construct (CCXT.mkRuntime w l k env) exchangeId credentials (Some explicit)
     = CCXT.construct (CCXT.mkRuntime w l k env') exchangeId credentials
         (Some explicit)).
Proof.
  split; [|done]. intros rt passed i o. unfold CCXT.construct.
  destruct (CCXT.hasWindow rt); [done|].
  destruct (negb (CCXT.ccxtLoaded rt)); [done|].
  destruct (negb (CCXT.knows rt (JS.toLowerCase exchangeId))); [done|].
  intros [= _ <-]. cbn [CCXT.proxies CCXT.proxy].
  set (cfg := CCXT.proxyConfigOf passed (CCXT.processEnv rt)). clearbody cfg.
  unfold JS.orOpt.
  destruct (JS.given (CCXT.http cfg)) eqn:Hh;
    destruct (JS.given (CCXT.https cfg)) eqn:Hs; cbn [orb CCXT.http CCXT.https];
    by rewrite ?Hh, ?Hs.
Qed.

Lemma ccxt_proxy_options_witness :
  let rt := CCXT.mkRuntime false true (String.eqb "okx") None in
  let explicit := CCXT.mkProxyConfig (Some "http://127.0.0.1:7890") None in
  exists i o,
    CCXT.construct rt "okx" None (Some explicit) = inr (i, o) /\
    CCXT.proxy o = Some "http://127.0.0.1:7890" /\
    match CCXT.proxies o with
    | None => CCXT.proxy o = None
    | Some cfg => JS.given (CCXT.http cfg) = true /\
                  JS.given (CCXT.https cfg) = true /\
                  CCXT.proxy o = CCXT.https cfg
    end.
Proof.
  intros rt explicit. eexists _, _. split; [reflexivity|]. split; [reflexivity|].
  exact (proj1 (ccxt_proxy_options "okx" None) rt (Some explicit) _ _ eq_refl).
Defined.

(** X15.  The proxy read from the environment when none was passed: with
    no https proxy set, the all-proxy variable ([all_proxy], or [ALL_PROXY]
    when that one is unset or empty) decides both entries, whatever
    [http_proxy] says: an address that begins [socks5://] is rewritten to
    [http://], and any other address is taken as it is. *)
Theorem ccxt_all_proxy_over_http (env : CCXT.ProcessEnv) (address : string) :
  JS.given (JS.orOpt (CCXT.https_proxy env) (CCXT.HTTPS_PROXY env)) = false ->
  JS.orOpt (CCXT.all_proxy env) (CCXT.ALL_PROXY env) = Some address ->
  address <> "" ->
  (forall host, address = "socks5://" +:+ host ->
     CCXT.proxyConfigOf None (Some env)
     = CCXT.mkProxyConfig (Some ("http://" +:+ host)) (Some ("http://" +:+ host))) /\
  (JS.startsWith address "socks5://" = false ->
   CCXT.proxyConfigOf None (Some env)
   = CCXT.mkProxyConfig (Some address) (Some address)).
Proof.
  intros Hs Ha Hne. unfold CCXT.proxyConfigOf, CCXT.proxyFromEnv.
  cbn [mbind option_bind]. rewrite Hs, Ha.
  assert (JS.given (Some address) = true) as ->.
  { cbn [JS.given]. by destruct (String.eqb_spec address ""). }
  cbn [fmap option_fmap option_map]. unfold CCXT.socksToHttp, JS.startsWith.
  split.
  - intros host ->. by rewrite prefix_app.
  - by intros ->.
Qed.

Lemma ccxt_all_proxy_over_http_witness :
  CCXT.proxyConfigOf None
    (Some (CCXT.mkProcessEnv None None (Some "http://10.0.0.1:3128") None
                             (Some "socks5://127.0.0.1:1080") None))
  = CCXT.mkProxyConfig (Some "http://127.0.0.1:1080") (Some "http://127.0.0.1:1080") /\
  CCXT.proxyConfigOf None
    (Some (CCXT.mkProcessEnv None (Some "") (Some "http://10.0.0.1:3128") None
                             None (Some "https://proxy.example:8443")))
  = CCXT.mkProxyConfig (Some "https://proxy.example:8443")
                       (Some "https://proxy.example:8443").
Proof.
  split.
  - exact (proj1 (ccxt_all_proxy_over_http
                    (CCXT.mkProcessEnv None None (Some "http://10.0.0.1:3128") None
                                       (Some "socks5://127.0.0.1:1080") None)
                    "socks5://127.0.0.1:1080" eq_refl eq_refl ltac:(discriminate))
                 "127.0.0.1:1080" eq_refl).
  - exact (proj2 (ccxt_all_proxy_over_http
                    (CCXT.mkProcessEnv None (Some "") (Some "http://10.0.0.1:3128") None
                                       None (Some "https://proxy.example:8443"))
                    "https://proxy.example:8443" eq_refl eq_refl ltac:(discriminate))
                 eq_refl).
Defined.

(** ** [LocalDataFeeds]: handle, channel and the deferred close *)

Lemma captured_setReadyState {K F} (socks : list (Socket K F)) (i j : nat)
    (s : Socket K F) (r : ReadyState) :
  socks !! i = Some s ->
  captured <$> (<[i := setReadyState r s]> socks) !! j = captured <$> socks !! j.
Proof.
  intros Hi. destruct (decide (i = j)) as [<-|Hne].
  - rewrite list_lookup_insert_eq by (by eapply lookup_lt_Some). by rewrite Hi.
  - by rewrite list_lookup_insert_ne.
Qed.

Lemma captured_wsClose {K F} (socks : list (Socket K F)) (i j : nat) :
  captured <$> wsClose i socks !! j = captured <$> socks !! j.
Proof.
  unfold wsClose. destruct (socks !! i) as [s|] eqn:Hi; [|done].
  destruct (readyState s); try done; by apply captured_setReadyState.
Qed.

Lemma local_coherent_sockets (st : Local.State)
    (socks : list (Socket string unit)) :
  (forall j, captured <$> socks !! j = captured <$> Local.sockets st !! j) ->
  localCoherent st -> localCoherent (Local.setSockets socks st).
Proof.
  unfold localCoherent. cbn [Local.setSockets Local._ws Local._currentChannel
                             Local.sockets].
  intros H. destruct (Local._ws st), (Local._currentChannel st); try done.
  by rewrite H.
Qed.

Lemma local_unsubscribe_coherent (sym : SymbolInfo) (per : Period)
    (st : Local.State) :
  localCoherent st -> localCoherent (Local.unsubscribe sym per st).
Proof.
  intros H. unfold Local.unsubscribe. destruct (Local._ws st); [|done].
  by destruct (isString _ _).
Qed.

Lemma local_step_coherent (st : Local.State) (e : Local.Event) :
  localCoherent st -> localCoherent (Local.step st e).
Proof.
  intros H. destruct e as [sym per cb|sym per|i|i data|i|i|k]; cbn [Local.step].
  - unfold Local.subscribe.
    match goal with |- context [if ?b then _ else _] => destruct b end; [exact H|].
    match goal with |- context [Local.wsThrows ?x] => generalize x end.
    intros st1. destruct (Local.wsThrows st1); [done|].
    unfold localCoherent. cbn [Local._ws Local._currentChannel Local.sockets].
    by rewrite list_lookup_middle.
  - by apply local_unsubscribe_coherent.
  - destruct (Local.sockets st !! i) as [s|] eqn:Hi; [|done].
    destruct (readyState s); try done.
    assert (localCoherent
              (Local.setSockets (<[i:=setReadyState OPEN s]> (Local.sockets st)) st))
      as H1 by (apply local_coherent_sockets; [|done];
                intros j; by apply captured_setReadyState).
    unfold Local.onopen. destruct (isString _ _); [done|].
    apply (local_coherent_sockets (Local.setSockets _ st)); [|done].
    intros j. apply captured_wsClose.
  - destruct (Local.sockets st !! i) as [s|]; [|done].
    destruct (readyState s); try done. unfold Local.onmessage.
    destruct (negb _); [done|]. destruct data; [|done].
    by destruct (Local._callback st).
  - done.
  - destruct (Local.sockets st !! i) as [s|] eqn:Hi; [|done].
    assert (localCoherent
              (Local.setSockets (<[i:=setReadyState CLOSED s]> (Local.sockets st)) st))
      as H1 by (apply local_coherent_sockets; [|done];
                intros j; by apply captured_setReadyState).
    destruct (readyState s); try done; unfold Local.onclose;
      by destruct (isString _ _).
  - destruct (Local.timers st !! k) as [t|]; [|done].
    unfold Local.ontimeout. cbn [Local._ws Local._currentChannel].
    destruct (Local._ws st) eqn:Hws; [|by unfold localCoherent in *; cbn; rewrite Hws in *].
    destruct (negb _).
    + apply local_unsubscribe_coherent. unfold localCoherent in *. cbn.
      by rewrite Hws in *.
    + unfold localCoherent in *. cbn. by rewrite Hws in *.
Qed.

(** X16.  [LocalDataFeeds], whatever is called and whatever happens: the
    socket handle and the current channel are set and cleared together, and
    while they are set the handle names the socket whose handlers captured
    the current channel. *)
Theorem local_handle_and_channel (throws : bool) (evs : list Local.Event) :
  match Local._ws (Local.run (Local.init throws) evs),
        Local._currentChannel (Local.run (Local.init throws) evs) with
  | None, None => True
  | Some i, Some ch =>
      captured <$> Local.sockets (Local.run (Local.init throws) evs) !! i = Some ch
  | _, _ => False
  end.
Proof.
  change (localCoherent (Local.run (Local.init throws) evs)).
  assert (localCoherent (Local.init throws)) as H0 by done.
  revert H0. generalize (Local.init throws).
  induction evs as [|e evs IH]; intros st Hst; [done|].
  cbn [Local.run fold_left]. apply IH. by apply local_step_coherent.
Qed.

Lemma local_step_timers (st : Local.State) (e : Local.Event) :
  localTimersNamed st -> localTimersNamed (Local.step st e).
Proof.
  unfold localTimersNamed. intros H.
  destruct e as [sym per cb|sym per|i|i data|i|i|k]; cbn [Local.step].
  - unfold Local.subscribe.
    match goal with |- context [if ?b then _ else _] => destruct b end; [exact H|].
    assert (forall st', Local.timers (Local.unsubscribe sym per st') = Local.timers st')
      as Hu.
    { intros st'. unfold Local.unsubscribe. destruct (Local._ws st'); [|done].
      by destruct (isString _ _). }
    match goal with |- context [Local.wsThrows ?x] => set (st1 := x) end.
    assert (Forall (fun t => Local.timerChannel t
                             = Local.channelOf (Local.timerSymbol t)
                                               (Local.timerPeriod t))
                   (Local.timers st1)) as H1.
    { subst st1. destruct (Local._ws st) as [i|]; [|done].
      destruct (stateOf (Local.sockets st) i); rewrite ?Hu; try done;
        cbn [Local.timers]; apply Forall_app; split; by repeat constructor. }
    by destruct (Local.wsThrows st1).
  - unfold Local.unsubscribe. destruct (Local._ws st); [|done].
    by destruct (isString _ _).
  - destruct (Local.sockets st !! i) as [s|]; [|done].
    destruct (readyState s); try done. unfold Local.onopen.
    by destruct (isString _ _).
  - destruct (Local.sockets st !! i) as [s|]; [|done].
    destruct (readyState s); try done. unfold Local.onmessage.
    destruct (negb _); [done|]. destruct data; [|done].
    by destruct (Local._callback st).
  - done.
  - destruct (Local.sockets st !! i) as [s|]; [|done].
    destruct (readyState s); try done; unfold Local.onclose;
      by destruct (isString _ _).
  - destruct (Local.timers st !! k) as [t|] eqn:Hk; [|done].
    rewrite local_timeout_does_nothing.
    + cbn [Local.timers]. by apply Forall_delete.
    + rewrite Forall_forall in H. apply H. by eapply list_elem_of_lookup_2.
Qed.

Lemma delete_absent {A} (l : list A) (k : nat) :
  l !! k = None -> delete k l = l.
Proof.
  revert k. induction l as [|a l IH]; intros [|k]; cbn; try done.
  intros H. f_equal. by apply IH.
Qed.

(** X17.  The deferred close that [LocalDataFeeds.subscribe] schedules
    while the previous socket is connecting is dead code: in every state that
    the adapter can reach, the timeout does nothing when it fires (its entry
    leaves the list of pending timeouts, and that is all). *)
Theorem local_deferred_close_is_dead (throws : bool) (evs : list Local.Event)
    (k : nat) :
  Local.step (Local.run (Local.init throws) evs) (Local.TimerFired k)
  = let st := Local.run (Local.init throws) evs in
    Local.mkState (Local._ws st) (Local._currentChannel st) (Local._callback st)
                  (Local.sockets st) (delete k (Local.timers st))
                  (Local.delivered st) (Local.wsThrows st).
Proof.
  assert (localTimersNamed (Local.run (Local.init throws) evs)) as H.
  { assert (localTimersNamed (Local.init throws)) as H0 by constructor.
    revert H0. generalize (Local.init throws).
    induction evs as [|e evs IH]; intros st Hst; [done|].
    cbn [Local.run fold_left]. apply IH. by apply local_step_timers. }
  cbv zeta. revert H. generalize (Local.run (Local.init throws) evs).
  intros st H. cbn [Local.step].
  destruct (Local.timers st !! k) as [t|] eqn:Hk.
  - apply local_timeout_does_nothing. unfold localTimersNamed in H.
    rewrite Forall_forall in H. apply H. by eapply list_elem_of_lookup_2.
  - rewrite delete_absent by done. by destruct st.
Qed.

Lemma local_idle_step (st : Local.State) (e : Local.Event) :
  Local.isEnvironment e = true -> Local._currentChannel st = None ->
  Local._currentChannel (Local.step st e) = None /\
  Local.delivered (Local.step st e) = Local.delivered st.
Proof.
  intros He Hc.
  destruct e as [sym per cb|sym per|i|i data|i|i|k]; try discriminate He;
    cbn [Local.step].
  - destruct (Local.sockets st !! i) as [s|]; [|done].
    destruct (readyState s); try done. unfold Local.onopen.
    cbn [Local.setSockets Local._currentChannel]. by rewrite Hc.
  - destruct (Local.sockets st !! i) as [s|]; [|done].
    destruct (readyState s); try done. unfold Local.onmessage. by rewrite Hc.
  - done.
  - destruct (Local.sockets st !! i) as [s|]; [|done].
    destruct (readyState s); try done; unfold Local.onclose;
      cbn [Local.setSockets Local._currentChannel]; by rewrite Hc.
  - destruct (Local.timers st !! k) as [t|]; [|done].
    unfold Local.ontimeout, Local.unsubscribe.
    cbn [Local._ws Local._currentChannel]. rewrite Hc.
    by destruct (Local._ws st).
Qed.

Lemma local_idle_run (st : Local.State) (evs : list Local.Event) :
  forallb Local.isEnvironment evs = true -> Local._currentChannel st = None ->
  Local.delivered (Local.run st evs) = Local.delivered st /\
  Local._currentChannel (Local.run st evs) = None.
Proof.
  revert st. induction evs as [|e evs IH]; intros st Henv Hc; [done|].
  cbn [forallb] in Henv. apply andb_prop in Henv as [He Henv].
  change (Local.run st (e :: evs)) with (Local.run (Local.step st e) evs).
  destruct (local_idle_step st e He Hc) as [Hc' Hd'].
  destruct (IH _ Henv Hc') as [H1 H2]. split; [congruence|done].
Qed.

(** X18.  [LocalDataFeeds.unsubscribe] for the current channel ends the
    subscription: the socket of the handle is no longer connecting or open,
    and whatever the sockets and timers do afterwards, no bar reaches a
    callback until the host subscribes again. *)
Theorem local_unsubscribe_silences (st : Local.State) (sym : SymbolInfo)
    (per : Period) (i : nat) (evs : list Local.Event) :
  Local._ws st = Some i ->
  Local._currentChannel st = Some (Local.channelOf sym per) ->
  forallb Local.isEnvironment evs = true ->
  stateOf (Local.sockets (Local.unsubscribe sym per st)) i <> OPEN /\
  stateOf (Local.sockets (Local.unsubscribe sym per st)) i <> CONNECTING /\
  Local.delivered (Local.run (Local.unsubscribe sym per st) evs)
  = Local.delivered st /\
  Local._currentChannel (Local.run (Local.unsubscribe sym per st) evs) = None.
Proof.
  intros Hws Hch Henv.
  assert (Local.unsubscribe sym per st
          = Local.mkState None None None
              (match stateOf (Local.sockets st) i with
               | OPEN | CONNECTING => wsClose i (Local.sockets st)
               | _ => Local.sockets st
               end)
              (Local.timers st) (Local.delivered st) (Local.wsThrows st)) as ->.
  { unfold Local.unsubscribe. rewrite Hws, Hch. cbn [isString].
    by rewrite String.eqb_refl. }
  cbn [Local.sockets].
  assert (forall r, stateOf (match stateOf (Local.sockets st) i with
                             | OPEN | CONNECTING => wsClose i (Local.sockets st)
                             | _ => Local.sockets st
                             end) i = r -> r <> OPEN /\ r <> CONNECTING) as Hst.
  { intros r. unfold stateOf, wsClose.
    destruct (Local.sockets st !! i) as [s|] eqn:Hi; [|rewrite Hi; by intros <-].
    destruct (readyState s) eqn:Hr; rewrite ?Hi, ?Hr;
      rewrite ?list_lookup_insert_eq by (by eapply lookup_lt_Some);
      by intros <-. }
  destruct (Hst _ eq_refl) as [H1 H2]. split; [done|]. split; [done|].
  by apply (local_idle_run (Local.mkState None None None _ _ _ _)).
Qed.

Lemma local_unsubscribe_silences_witness :
  let st := Local.run (Local.init false)
              [Local.Subscribe btc oneMinute firstCallback; Local.SocketOpened 0] in
  let evs := [Local.SocketMessage 0 (Some (OKX.toKLineData (okxCandle 60000)));
              Local.SocketClosed 0] in
  Local._ws st = Some 0%nat /\
  Local.delivered (Local.run (Local.unsubscribe btc oneMinute st) evs) = [] /\
  stateOf (Local.sockets (Local.unsubscribe btc oneMinute st)) 0 <> OPEN.
Proof.
  intros st evs.
  destruct (local_unsubscribe_silences st btc oneMinute 0 evs
              eq_refl eq_refl eq_refl) as (H1 & _ & H2 & _).
  split; [reflexivity|]. split; [exact H2|exact H1].
Defined.

(** ** [OKXDataFeeds] and [DefaultDatafeed]: one socket, one subscriber *)

Section Evolution.
Context {K F : Type} (f : K -> callback).

Lemma evolves_refl (socks : list (Socket K F)) : evolves f socks socks.
Proof. split; [done|]. intros j s Hj. by exists s. Qed.

Lemma evolves_trans (a b c : list (Socket K F)) :
  evolves f a b -> evolves f b c -> evolves f a c.
Proof.
  intros [Hl1 H1] [Hl2 H2]. split; [congruence|]. intros j s Hj.
  destruct (H1 j s Hj) as (s1 & Hj1 & Hf1 & Hv1).
  destruct (H2 j s1 Hj1) as (s2 & Hj2 & Hf2 & Hv2).
  exists s2. repeat split; [done|congruence|auto].
Qed.

Lemma evolves_insert (socks : list (Socket K F)) (i : nat) (s s' : Socket K F) :
  socks !! i = Some s -> f (captured s') = f (captured s) ->
  (live s' -> live s) -> evolves f socks (<[i := s']> socks).
Proof.
  intros Hi Hf Hv. split; [by rewrite length_insert|]. intros j t Hj.
  destruct (decide (i = j)) as [<-|Hne].
  - rewrite list_lookup_insert_eq by (by eapply lookup_lt_Some).
    exists s'. by simplify_eq.
  - rewrite list_lookup_insert_ne by done. by exists t.
Qed.

Lemma evolves_wsClose (socks : list (Socket K F)) (i : nat) :
  evolves f socks (wsClose i socks).
Proof.
  unfold wsClose. destruct (socks !! i) as [s|] eqn:Hi; [|apply evolves_refl].
  destruct (readyState s) eqn:Hr; try apply evolves_refl;
    (apply (evolves_insert _ _ s); [done..|]); intros _; unfold live; rewrite Hr; auto.
Qed.

Lemma evolves_closeCurrent (socks : list (Socket K F)) (ws : option nat) :
  evolves f socks (closeCurrent ws socks).
Proof. destruct ws; [apply evolves_wsClose|apply evolves_refl]. Qed.

Lemma evolves_wsSend (socks socks' : list (Socket K F)) (i : nat) (x : F) :
  wsSend i x socks = Some socks' -> evolves f socks socks'.
Proof.
  unfold wsSend. destruct (socks !! i) as [s|] eqn:Hi;
    [|intros [= <-]; apply evolves_refl].
  destruct (readyState s) eqn:Hr; try discriminate;
    intros [= <-]; try apply evolves_refl.
  apply (evolves_insert _ _ s); [done..|]. intros _. by left.
Qed.

Lemma onlyHandleLive_evolves (ws : option nat) (socks socks' : list (Socket K F)) :
  evolves f socks socks' -> onlyHandleLive ws socks -> onlyHandleLive ws socks'.
Proof.
  intros [Hlen He] H i s' Hi Hv.
  destruct (socks !! i) as [s|] eqn:Hs.
  - destruct (He i s Hs) as (s1 & Hs1 & _ & Hv1). simplify_eq. by eapply H; eauto.
  - apply lookup_ge_None in Hs. apply lookup_lt_Some in Hi. lia.
Qed.

Lemma deliveredTo_evolves (socks socks' : list (Socket K F)) (dl : list Delivery) :
  evolves f socks socks' -> deliveredTo f socks dl -> deliveredTo f socks' dl.
Proof.
  intros [_ He] H. unfold deliveredTo in *. eapply Forall_impl; [exact H|].
  intros d (s & Hs & Hr). destruct (He _ s Hs) as (s' & Hs' & Hf & _).
  exists s'. split; [done|congruence].
Qed.

Lemma deliveredTo_app (socks more : list (Socket K F)) (dl : list Delivery) :
  deliveredTo f socks dl -> deliveredTo f (socks ++ more) dl.
Proof.
  intros H. unfold deliveredTo in *. eapply Forall_impl; [exact H|].
  intros d (s & Hs & Hr).
  exists s. split; [by apply lookup_app_l_Some|done].
Qed.

Lemma wsClose_live (socks : list (Socket K F)) (i j : nat) (s : Socket K F) :
  wsClose i socks !! j = Some s -> live s -> j <> i.
Proof.
  unfold wsClose. intros Hj Hv ->.
  destruct (socks !! i) as [t|] eqn:Hi; [|congruence].
  destruct (readyState t) eqn:Hr;
    rewrite ?list_lookup_insert_eq in Hj by (by eapply lookup_lt_Some);
    simplify_eq; destruct Hv as [Hv|Hv]; cbn in Hv; congruence.
Qed.

(** A new connection: the current socket is closed and the new one takes
    the handle. *)
Lemma onlyHandleLive_reconnect (ws : option nat) (socks : list (Socket K F))
    (new : Socket K F) :
  onlyHandleLive ws socks ->
  onlyHandleLive (Some (length (closeCurrent ws socks)))
                 (closeCurrent ws socks ++ [new]).
Proof.
  intros H i s Hi Hv. apply lookup_app_Some in Hi as [Hi|[Hlen Hi]].
  - exfalso.
    assert (onlyHandleLive ws (closeCurrent ws socks)) as H'
      by (eapply onlyHandleLive_evolves; [apply evolves_closeCurrent|done]).
    pose proof (H' i s Hi Hv) as Hws. subst ws. cbn [closeCurrent] in Hi.
    by eapply wsClose_live.
  - destruct (i - length (closeCurrent ws socks))%nat as [|n] eqn:Hn;
      [f_equal; lia|by destruct n].
Qed.

End Evolution.

Lemma okx_deliverAll_from (i : nat) (cb : callback)
    (candles : list (option OKX.Candle)) :
  Forall (fun d => via d = i /\ receiver d = cb) (OKX.deliverAll i cb candles).
Proof.
  induction candles as [|[c|] rest IH]; cbn [OKX.deliverAll]; [constructor| |done].
  destruct (validTime (OKX.c_ts c)); by constructor.
Qed.

Lemma okx_inv_evolves (st st' : OKX.State) :
  OKX._ws st' = OKX._ws st -> OKX.delivered st' = OKX.delivered st ->
  evolves OKX.pendingCallback (OKX.sockets st) (OKX.sockets st') ->
  onlyHandleLive (OKX._ws st) (OKX.sockets st) /\
  deliveredTo OKX.pendingCallback (OKX.sockets st) (OKX.delivered st) ->
  onlyHandleLive (OKX._ws st') (OKX.sockets st') /\
  deliveredTo OKX.pendingCallback (OKX.sockets st') (OKX.delivered st').
Proof.
  intros -> -> He [H1 H2]. split.
  - by eapply onlyHandleLive_evolves.
  - by eapply deliveredTo_evolves.
Qed.

Lemma okx_step_inv (st : OKX.State) (e : OKX.Event) :
  onlyHandleLive (OKX._ws st) (OKX.sockets st) /\
  deliveredTo OKX.pendingCallback (OKX.sockets st) (OKX.delivered st) ->
  onlyHandleLive (OKX._ws (OKX.step st e)) (OKX.sockets (OKX.step st e)) /\
  deliveredTo OKX.pendingCallback (OKX.sockets (OKX.step st e))
              (OKX.delivered (OKX.step st e)).
Proof.
  intros H. destruct e as [sym per cb|sym per|i|i m|i]; cbn [OKX.step].
  - unfold OKX.subscribe.
    match goal with |- context [if ?b then _ else _] => destruct b end.
    + destruct H as [H1 H2]. cbn [OKX._ws OKX.sockets OKX.delivered]. split.
      * by apply (onlyHandleLive_reconnect OKX.pendingCallback).
      * apply deliveredTo_app.
        eapply deliveredTo_evolves; [apply evolves_closeCurrent|done].
    + destruct (OKX._ws st) as [i|] eqn:Hws in |- *; [|done].
      destruct (negb _).
      * destruct (wsSend _ _ _) as [socks|] eqn:Hs; [|done].
        apply (okx_inv_evolves st); [done..| |done].
        by eapply evolves_wsSend.
      * apply (okx_inv_evolves st); [done..|apply evolves_refl|done].
  - unfold OKX.unsubscribe. destruct (OKX._ws st) as [i|] eqn:Hws in |- *; [|done].
    destruct (ReadyState_eqb _ _); [|done].
    destruct (wsSend _ _ _) as [socks|] eqn:Hs; [|done].
    apply (okx_inv_evolves st); [done..| |done]. by eapply evolves_wsSend.
  - destruct (OKX.sockets st !! i) as [s|] eqn:Hi; [|done].
    destruct (readyState s) eqn:Hr; try done.
    assert (evolves OKX.pendingCallback (OKX.sockets st)
                    (<[i:=setReadyState OPEN s]> (OKX.sockets st))) as He.
    { apply (evolves_insert _ _ _ s); [done..|]. intros _. by right. }
    set (st1 := OKX.setSockets (<[i:=setReadyState OPEN s]> (OKX.sockets st)) st).
    pose proof (okx_inv_evolves st st1 eq_refl eq_refl He H) as H1.
    unfold OKX.onopen.
    destruct (OKX._ws st1) as [j|] eqn:Hws in |- *; [|done].
    destruct (wsSend _ _ _) as [socks|] eqn:Hs; [|done].
    apply (okx_inv_evolves st1); [done..| |done].
    by eapply evolves_wsSend.
  - destruct (OKX.sockets st !! i) as [s|] eqn:Hi; [|done].
    destruct (readyState s) eqn:Hr; try done.
    unfold OKX.onmessage. destruct m as [m|]; [|done].
    destruct (isString _ _); [done|]. destruct (isString _ _); [done|].
    destruct (OKX.arg m) as [[ch inst]|]; [|done].
    destruct (_ && _); [|done].
    destruct H as [H1 H2]. cbn [OKX._ws OKX.sockets OKX.delivered].
    split; [done|]. apply Forall_app. split; [done|].
    eapply Forall_impl; [apply okx_deliverAll_from|].
    intros d [-> ->]. by exists s.
  - destruct (OKX.sockets st !! i) as [s|] eqn:Hi; [|done].
    assert (evolves OKX.pendingCallback (OKX.sockets st)
                    (<[i:=setReadyState CLOSED s]> (OKX.sockets st))) as He.
    { apply (evolves_insert _ _ _ s); [done..|]. by intros [?|?]. }
    destruct (readyState s) eqn:Hr; try done;
      by apply (okx_inv_evolves st (OKX.setSockets _ st)).
Qed.

Lemma live_liveSockets {K F} (socks : list (Socket K F)) (i : nat) :
  In i (liveSockets socks) -> exists s, socks !! i = Some s /\ live s.
Proof.
  unfold liveSockets, stateOf. intros [_ H]%filter_In.
  destruct (socks !! i) as [s|]; [|done]. exists s. split; [done|].
  unfold live. destruct (readyState s); auto; discriminate.
Qed.

Lemma okx_run_inv (evs : list OKX.Event) :
  onlyHandleLive (OKX._ws (OKX.run OKX.init evs))
                 (OKX.sockets (OKX.run OKX.init evs)) /\
  deliveredTo OKX.pendingCallback (OKX.sockets (OKX.run OKX.init evs))
              (OKX.delivered (OKX.run OKX.init evs)).
Proof.
  assert (onlyHandleLive (OKX._ws OKX.init) (OKX.sockets OKX.init) /\
          deliveredTo OKX.pendingCallback (OKX.sockets OKX.init)
                      (OKX.delivered OKX.init)) as H0
    by (split; [by intros i s Hi|constructor]).
  revert H0. generalize OKX.init.
  induction evs as [|e evs IH]; intros st Hst; [done|].
  cbn [OKX.run fold_left]. apply IH. by apply okx_step_inv.
Qed.

Lemma authFirst_closed (key : string) (r : ReadyState)
    (s : Socket Default.Closure Default.Frame) :
  r = CLOSING \/ r = CLOSED -> authFirst key s -> authFirst key (setReadyState r s).
Proof.
  unfold authFirst. cbn [setReadyState readyState sent].
  intros [-> | ->]; destruct (readyState s); auto.
Qed.

Lemma authFirst_sent (key : string) (x : Default.Frame)
    (s : Socket Default.Closure Default.Frame) :
  readyState s = OPEN -> authFirst key s ->
  authFirst key (mkSocket OPEN (captured s) (sent s ++ [x])).
Proof.
  unfold authFirst. intros ->. cbn [readyState sent].
  by destruct (sent s).
Qed.

Lemma authFirst_wsClose (key : string) (i : nat)
    (socks : list (Socket Default.Closure Default.Frame)) :
  Forall (authFirst key) socks -> Forall (authFirst key) (wsClose i socks).
Proof.
  intros H. unfold wsClose. destruct (socks !! i) as [s|] eqn:Hi; [|done].
  pose proof (Forall_lookup_1 _ _ _ _ H Hi) as Hs.
  destruct (readyState s); try done;
    (apply Forall_insert; [done|]); apply authFirst_closed; auto.
Qed.

Lemma authFirst_wsSend (key : string) (i : nat) (x : Default.Frame)
    (socks socks' : list (Socket Default.Closure Default.Frame)) :
  wsSend i x socks = Some socks' ->
  Forall (authFirst key) socks -> Forall (authFirst key) socks'.
Proof.
  intros Hsend H. unfold wsSend in Hsend.
  destruct (socks !! i) as [s|] eqn:Hi; [|by simplify_eq].
  pose proof (Forall_lookup_1 _ _ _ _ H Hi) as Hs.
  destruct (readyState s) eqn:Hr; simplify_eq; try done.
  apply Forall_insert; [done|]. by apply authFirst_sent.
Qed.

Lemma default_inv_evolves (st st' : Default.State) :
  Default._ws st' = Default._ws st ->
  Default.delivered st' = Default.delivered st ->
  Default._apiKey st' = Default._apiKey st ->
  evolves Default.subscriber (Default.sockets st) (Default.sockets st') ->
  Forall (authFirst (Default._apiKey st)) (Default.sockets st') ->
  onlyHandleLive (Default._ws st) (Default.sockets st) /\
  deliveredTo Default.subscriber (Default.sockets st) (Default.delivered st) /\
  Forall (authFirst (Default._apiKey st)) (Default.sockets st) ->
  onlyHandleLive (Default._ws st') (Default.sockets st') /\
  deliveredTo Default.subscriber (Default.sockets st') (Default.delivered st') /\
  Forall (authFirst (Default._apiKey st')) (Default.sockets st').
Proof.
  intros -> -> -> He Ha (H1 & H2 & _). split; [|split; [|done]].
  - by eapply onlyHandleLive_evolves.
  - by eapply deliveredTo_evolves.
Qed.

Lemma default_setAuthenticated_inv (i : nat) (st : Default.State) :
  onlyHandleLive (Default._ws st) (Default.sockets st) /\
  deliveredTo Default.subscriber (Default.sockets st) (Default.delivered st) /\
  Forall (authFirst (Default._apiKey st)) (Default.sockets st) ->
  let st1 := Default.setAuthenticated i st in
  Default._ws st1 = Default._ws st /\ Default._apiKey st1 = Default._apiKey st /\
  onlyHandleLive (Default._ws st1) (Default.sockets st1) /\
  deliveredTo Default.subscriber (Default.sockets st1) (Default.delivered st1) /\
  Forall (authFirst (Default._apiKey st1)) (Default.sockets st1).
Proof.
  intros H. unfold Default.setAuthenticated.
  destruct (Default.sockets st !! i) as [sk|] eqn:Hi; [|by cbv zeta].
  cbv zeta. split; [done|]. split; [done|].
  apply (default_inv_evolves st (Default.setSockets _ st)); [done..| | |done].
  - by apply (evolves_insert _ _ _ sk).
  - destruct H as (_ & _ & H). apply Forall_insert; [done|].
    exact (Forall_lookup_1 _ _ _ _ H Hi).
Qed.

Lemma default_handleMessages_inv (i : nat) (ms : list Default.Message)
    (st : Default.State) :
  onlyHandleLive (Default._ws st) (Default.sockets st) /\
  deliveredTo Default.subscriber (Default.sockets st) (Default.delivered st) /\
  Forall (authFirst (Default._apiKey st)) (Default.sockets st) ->
  let st' := Default.handleMessages i ms st in
  onlyHandleLive (Default._ws st') (Default.sockets st') /\
  deliveredTo Default.subscriber (Default.sockets st') (Default.delivered st') /\
  Forall (authFirst (Default._apiKey st')) (Default.sockets st').
Proof.
  cbv zeta. revert st. induction ms as [|m ms IH]; intros st H; [done|].
  cbn [Default.handleMessages].
  destruct (Default.sockets st !! i) as [sk|] eqn:Hi; [|done].
  destruct (Default.isStatus m).
  - destruct (isString (Default.m_status m) "auth_failed").
    + apply (default_inv_evolves st (Default.setSockets _ st)); [done..| | |done].
      * apply evolves_closeCurrent.
      * destruct H as (_ & _ & H).
        destruct (Default._ws st); [by apply authFirst_wsClose|done].
    + destruct (_ && _); [|by apply IH].
      destruct (default_setAuthenticated_inv i st H) as (Hws & Hkey & H1).
      revert Hws Hkey H1. generalize (Default.setAuthenticated i st).
      intros st1 Hws Hkey H1.
      destruct (Default._ws st1) as [j|] eqn:Hj in |- *; [|by apply IH].
      destruct (wsSend _ _ _) as [socks|] eqn:Hs; [|done].
      apply IH.
      apply (default_inv_evolves st1 (Default.setSockets _ st1)); [done..| | |done].
      * by eapply evolves_wsSend.
      * destruct H1 as (_ & _ & H1). by eapply authFirst_wsSend.
  - destruct (isString (Default.ev m) "XA"); [|by apply IH].
    destruct (isString _ _); [|by apply IH].
    destruct (validTime _); [|done].
    apply IH. destruct H as (H1 & H2 & H3).
    cbn [Default._ws Default.sockets Default.delivered Default._apiKey].
    split; [done|]. split; [|done].
    apply Forall_app. split; [done|]. constructor; [|constructor].
    by exists sk.
Qed.

Lemma default_onclose_inv (i : nat) (st : Default.State) :
  onlyHandleLive (Default._ws st) (Default.sockets st) /\
  deliveredTo Default.subscriber (Default.sockets st) (Default.delivered st) /\
  Forall (authFirst (Default._apiKey st)) (Default.sockets st) ->
  onlyHandleLive (Default._ws (Default.onclose i st))
                 (Default.sockets (Default.onclose i st)) /\
  deliveredTo Default.subscriber (Default.sockets (Default.onclose i st))
              (Default.delivered (Default.onclose i st)) /\
  Forall (authFirst (Default._apiKey (Default.onclose i st)))
         (Default.sockets (Default.onclose i st)).
Proof.
  intros H. unfold Default.onclose.
  destruct (Default.sockets st !! i) as [sk|] eqn:Hi; [|done].
  apply (default_inv_evolves st (Default.setSockets _ st)); [done..| | |done].
  - by apply (evolves_insert _ _ _ sk).
  - destruct H as (_ & _ & H). apply Forall_insert; [done|].
    exact (Forall_lookup_1 _ _ _ _ H Hi).
Qed.

Lemma default_step_inv (st : Default.State) (e : Default.Event) :
  onlyHandleLive (Default._ws st) (Default.sockets st) /\
  deliveredTo Default.subscriber (Default.sockets st) (Default.delivered st) /\
  Forall (authFirst (Default._apiKey st)) (Default.sockets st) ->
  onlyHandleLive (Default._ws (Default.step st e)) (Default.sockets (Default.step st e)) /\
  deliveredTo Default.subscriber (Default.sockets (Default.step st e))
              (Default.delivered (Default.step st e)) /\
  Forall (authFirst (Default._apiKey (Default.step st e)))
         (Default.sockets (Default.step st e)).
Proof.
  intros H. destruct e as [sym per cb|sym per|i|i ms|i]; cbn [Default.step].
  - unfold Default.subscribe.
    match goal with |- context [if ?b then _ else _] => destruct b end.
    + destruct H as (H1 & H2 & H3).
      cbn [Default._ws Default.sockets Default.delivered Default._apiKey].
      split; [|split].
      * by apply (onlyHandleLive_reconnect Default.subscriber).
      * apply deliveredTo_app.
        eapply deliveredTo_evolves; [apply evolves_closeCurrent|done].
      * apply Forall_app. split; [|by repeat constructor].
        destruct (Default._ws st); [by apply authFirst_wsClose|done].
    + destruct (Default._ws st) as [i|] eqn:Hws in |- *; [|done].
      destruct (wsSend _ _ _) as [socks|] eqn:Hs; [|done].
      apply (default_inv_evolves st); [done..| | |done].
      * by eapply evolves_wsSend.
      * destruct H as (_ & _ & H). by eapply authFirst_wsSend.
  - unfold Default.unsubscribe.
    destruct (Default._ws st) as [i|] eqn:Hws in |- *; [|done].
    destruct (ReadyState_eqb _ _); [|done].
    destruct (wsSend _ _ _) as [socks|] eqn:Hs; [|done].
    apply (default_inv_evolves st (Default.setSockets _ st)); [done..| | |done].
    + by eapply evolves_wsSend.
    + destruct H as (_ & _ & H). by eapply authFirst_wsSend.
  - destruct (Default.sockets st !! i) as [sk|] eqn:Hi; [|done].
    destruct (readyState sk) eqn:Hr; try done.
    destruct H as (H1 & H2 & H3).
    assert (Default._ws st = Some i) as Hws by (eapply H1; [done|by right]).
    assert (sent sk = []) as Hsent.
    { pose proof (Forall_lookup_1 _ _ _ _ H3 Hi) as Hs. unfold authFirst in Hs.
      by rewrite Hr in Hs. }
    unfold Default.onopen. cbn [Default.setSockets Default._ws Default.sockets
                                Default._apiKey].
    rewrite Hws. unfold wsSend.
    rewrite list_lookup_insert_eq by (by eapply lookup_lt_Some).
    cbn [setReadyState readyState captured sent]. rewrite Hsent.
    rewrite list_insert_insert_eq.
    cbn [Default.setSockets Default._ws Default.sockets Default._apiKey
         Default.delivered app].
    assert (evolves Default.subscriber (Default.sockets st)
              (<[i:=mkSocket OPEN (captured sk)
                      [Default.mkFrame "auth" (Default._apiKey st)]]>
                 (Default.sockets st))) as He.
    { apply (evolves_insert _ _ _ sk); [done..|]. intros _. by right. }
    split; [|split].
    + by eapply onlyHandleLive_evolves.
    + by eapply deliveredTo_evolves.
    + by apply Forall_insert.
  - destruct (Default.sockets st !! i) as [sk|] eqn:Hi; [|done].
    destruct (readyState sk) eqn:Hr; try done.
    unfold Default.onmessage. destruct ms as [ms|]; [|done].
    by apply default_handleMessages_inv.
  - destruct (Default.sockets st !! i) as [sk|] eqn:Hi; [|done].
    assert (forall st1,
              st1 = Default.setSockets
                      (<[i:=setReadyState CLOSED sk]> (Default.sockets st)) st ->
              onlyHandleLive (Default._ws (Default.onclose i st1))
                             (Default.sockets (Default.onclose i st1)) /\
              deliveredTo Default.subscriber (Default.sockets (Default.onclose i st1))
                          (Default.delivered (Default.onclose i st1)) /\
              Forall (authFirst (Default._apiKey (Default.onclose i st1)))
                     (Default.sockets (Default.onclose i st1))) as H2.
    { intros st1 E. apply default_onclose_inv. subst st1.
      apply (default_inv_evolves st (Default.setSockets _ st)); [done..| | |done].
      - apply (evolves_insert _ _ _ sk); [done..|]. by intros [?|?].
      - destruct H as (_ & _ & H). apply Forall_insert; [done|].
        apply authFirst_closed; [by right|].
        exact (Forall_lookup_1 _ _ _ _ H Hi). }
    destruct (readyState sk); try done; by apply H2.
Qed.

Lemma default_run_inv (key : string) (evs : list Default.Event) :
  let st := Default.run (Default.init key) evs in
  Default._apiKey st = key /\
  onlyHandleLive (Default._ws st) (Default.sockets st) /\
  deliveredTo Default.subscriber (Default.sockets st) (Default.delivered st) /\
  Forall (authFirst key) (Default.sockets st).
Proof.
  cbv zeta.
  assert (Default._apiKey (Default.init key) = key /\
          onlyHandleLive (Default._ws (Default.init key))
                         (Default.sockets (Default.init key)) /\
          deliveredTo Default.subscriber (Default.sockets (Default.init key))
                      (Default.delivered (Default.init key)) /\
          Forall (authFirst (Default._apiKey (Default.init key)))
                 (Default.sockets (Default.init key))) as H0
    by (split; [done|]; split; [by intros i s Hi|split; constructor]).
  revert H0. generalize (Default.init key).
  induction evs as [|e evs IH]; intros st (Hk & Hst).
  - cbn. by rewrite <- Hk.
  - cbn [Default.run fold_left]. apply IH. split; [|by apply default_step_inv].
    rewrite <- Hk. clear. destruct e as [sym per cb|sym per|i|i ms|i];
      cbn [Default.step].
    + unfold Default.subscribe.
      match goal with |- context [if ?b then _ else _] => destruct b end; [done|].
      destruct (Default._ws st); [|done]. by destruct (wsSend _ _ _).
    + unfold Default.unsubscribe. destruct (Default._ws st); [|done].
      destruct (ReadyState_eqb _ _); [|done]. by destruct (wsSend _ _ _).
    + destruct (Default.sockets st !! i) as [sk|]; [|done].
      destruct (readyState sk); try done. unfold Default.onopen.
      cbn [Default.setSockets Default._ws]. destruct (Default._ws st); [|done].
      by destruct (wsSend _ _ _).
    + destruct (Default.sockets st !! i) as [sk|]; [|done].
      destruct (readyState sk); try done. destruct ms as [ms|]; [|done].
      cbn [Default.onmessage]. revert st. clear.
      induction ms as [|m ms IH]; intros st; [done|].
      cbn [Default.handleMessages].
      destruct (Default.sockets st !! i) as [sk|]; [|done].
      assert (Default._apiKey (Default.setAuthenticated i st) = Default._apiKey st)
        as Ha by (unfold Default.setAuthenticated;
                  by destruct (Default.sockets st !! i)).
      destruct (Default.isStatus m).
      * destruct (isString _ _); [done|]. destruct (_ && _); [|apply IH].
        destruct (Default._ws _); [|by rewrite IH].
        destruct (wsSend _ _ _); [|done]. by rewrite IH.
      * destruct (isString _ _); [|apply IH]. destruct (isString _ _); [|apply IH].
        destruct (validTime _); [|done]. by rewrite IH.
    + destruct (Default.sockets st !! i) as [sk|]; [|done].
      destruct (readyState sk); try done; unfold Default.onclose;
        cbn [Default.setSockets Default.sockets];
        by destruct (_ !! i).
Qed.

Lemma evolves_keeps {K F} (f : K -> callback) (socks socks' : list (Socket K F))
    (j : nat) (s : Socket K F) :
  evolves f socks socks' -> socks !! j = Some s ->
  exists s', socks' !! j = Some s' /\ f (captured s') = f (captured s).
Proof.
  intros [_ He] Hj. destruct (He j s Hj) as (s' & Hs' & Hf & _). by exists s'.
Qed.

Lemma reconnect_keeps {K F} (f : K -> callback) (socks : list (Socket K F))
    (ws : option nat) (new : Socket K F) (j : nat) (s : Socket K F) :
  socks !! j = Some s ->
  exists s', (closeCurrent ws socks ++ [new]) !! j = Some s' /\
             f (captured s') = f (captured s).
Proof.
  intros Hj.
  destruct (evolves_keeps f _ _ j s (evolves_closeCurrent f socks ws) Hj)
    as (s' & Hs' & Hf).
  exists s'. split; [by apply lookup_app_l_Some|done].
Qed.

Lemma okx_step_evolves (st : OKX.State) (e : OKX.Event) :
  evolves OKX.pendingCallback (OKX.sockets st) (OKX.sockets (OKX.step st e)) \/
  exists new,
    OKX.sockets (OKX.step st e) = closeCurrent (OKX._ws st) (OKX.sockets st) ++ [new].
Proof.
  destruct e as [sym per cb|sym per|i|i m|i]; cbn [OKX.step].
  - unfold OKX.subscribe.
    match goal with |- context [if ?b then _ else _] => destruct b end;
      [right; by eexists|left].
    destruct (OKX._ws st) as [i|]; [|apply evolves_refl].
    destruct (negb _); [|apply evolves_refl].
    destruct (wsSend _ _ _) as [socks|] eqn:Hs; [|apply evolves_refl].
    by eapply evolves_wsSend.
  - left. unfold OKX.unsubscribe.
    destruct (OKX._ws st) as [i|]; [|apply evolves_refl].
    destruct (ReadyState_eqb _ _); [|apply evolves_refl].
    destruct (wsSend _ _ _) as [socks|] eqn:Hs; [|apply evolves_refl].
    by eapply evolves_wsSend.
  - left. destruct (OKX.sockets st !! i) as [s|] eqn:Hi; [|apply evolves_refl].
    destruct (readyState s) eqn:Hr; try apply evolves_refl.
    assert (evolves OKX.pendingCallback (OKX.sockets st)
                    (<[i:=setReadyState OPEN s]> (OKX.sockets st))) as He.
    { apply (evolves_insert _ _ _ s); [done..|]. intros _. by right. }
    unfold OKX.onopen. cbn [OKX.setSockets OKX._ws OKX.sockets].
    destruct (OKX._ws st) as [j|]; [|done].
    destruct (wsSend _ _ _) as [socks|] eqn:Hs; [|done].
    eapply evolves_trans; [exact He|]. by eapply evolves_wsSend.
  - left. destruct (OKX.sockets st !! i) as [s|]; [|apply evolves_refl].
    destruct (readyState s); try apply evolves_refl.
    unfold OKX.onmessage. destruct m as [m|]; [|apply evolves_refl].
    destruct (isString _ _); [apply evolves_refl|].
    destruct (isString _ _); [apply evolves_refl|].
    destruct (OKX.arg m) as [[ch inst]|]; [|apply evolves_refl].
    destruct (_ && _); apply evolves_refl.
  - left. destruct (OKX.sockets st !! i) as [s|] eqn:Hi; [|apply evolves_refl].
    destruct (readyState s); try apply evolves_refl;
      (apply (evolves_insert _ _ _ s); [done..|]); by intros [?|?].
Qed.

Lemma default_handleMessages_evolves (i : nat) (ms : list Default.Message)
    (st : Default.State) :
  evolves Default.subscriber (Default.sockets st)
          (Default.sockets (Default.handleMessages i ms st)).
Proof.
  revert st. induction ms as [|m ms IH]; intros st; [apply evolves_refl|].
  cbn [Default.handleMessages].
  destruct (Default.sockets st !! i) as [sk|] eqn:Hi; [|apply evolves_refl].
  assert (evolves Default.subscriber (Default.sockets st)
                  (Default.sockets (Default.setAuthenticated i st))) as Ha.
  { unfold Default.setAuthenticated. rewrite Hi.
    by apply (evolves_insert _ _ _ sk). }
  destruct (Default.isStatus m).
  - destruct (isString _ _); [apply evolves_closeCurrent|].
    destruct (_ && _); [|apply IH].
    destruct (Default._ws _) as [j|];
      [|eapply evolves_trans; [exact Ha|apply IH]].
    destruct (wsSend _ _ _) as [socks|] eqn:Hs; [|done].
    eapply evolves_trans; [exact Ha|].
    eapply evolves_trans; [by eapply evolves_wsSend|]. apply (IH (Default.setSockets _ _)).
  - destruct (isString _ _); [|apply IH]. destruct (isString _ _); [|apply IH].
    destruct (validTime _); [|apply evolves_refl].
    apply (IH (Default.mkState _ _ _ _ _)).
Qed.

Lemma default_step_evolves (st : Default.State) (e : Default.Event) :
  evolves Default.subscriber (Default.sockets st)
          (Default.sockets (Default.step st e)) \/
  exists new,
    Default.sockets (Default.step st e)
    = closeCurrent (Default._ws st) (Default.sockets st) ++ [new].
Proof.
  destruct e as [sym per cb|sym per|i|i ms|i]; cbn [Default.step].
  - unfold Default.subscribe.
    match goal with |- context [if ?b then _ else _] => destruct b end;
      [right; by eexists|left].
    destruct (Default._ws st) as [i|]; [|apply evolves_refl].
    destruct (wsSend _ _ _) as [socks|] eqn:Hs; [|apply evolves_refl].
    by eapply evolves_wsSend.
  - left. unfold Default.unsubscribe.
    destruct (Default._ws st) as [i|]; [|apply evolves_refl].
    destruct (ReadyState_eqb _ _); [|apply evolves_refl].
    destruct (wsSend _ _ _) as [socks|] eqn:Hs; [|apply evolves_refl].
    by eapply evolves_wsSend.
  - left. destruct (Default.sockets st !! i) as [sk|] eqn:Hi; [|apply evolves_refl].
    destruct (readyState sk) eqn:Hr; try apply evolves_refl.
    assert (evolves Default.subscriber (Default.sockets st)
                    (<[i:=setReadyState OPEN sk]> (Default.sockets st))) as He.
    { apply (evolves_insert _ _ _ sk); [done..|]. intros _. by right. }
    unfold Default.onopen. cbn [Default.setSockets Default._ws Default.sockets].
    destruct (Default._ws st) as [j|]; [|done].
    destruct (wsSend _ _ _) as [socks|] eqn:Hs; [|done].
    eapply evolves_trans; [exact He|]. by eapply evolves_wsSend.
  - left. destruct (Default.sockets st !! i) as [sk|]; [|apply evolves_refl].
    destruct (readyState sk); try apply evolves_refl.
    destruct ms as [ms|]; [|apply evolves_refl].
    apply default_handleMessages_evolves.
  - left. destruct (Default.sockets st !! i) as [sk|] eqn:Hi; [|apply evolves_refl].
    assert (evolves Default.subscriber (Default.sockets st)
              (Default.sockets
                 (Default.onclose i
                    (Default.setSockets
                       (<[i:=setReadyState CLOSED sk]> (Default.sockets st)) st))))
      as He.
    { unfold Default.onclose. cbn [Default.setSockets Default.sockets].
      rewrite list_lookup_insert_eq by (by eapply lookup_lt_Some).
      cbn [Default.sockets]. rewrite list_insert_insert_eq.
      apply (evolves_insert _ _ _ sk); [done..|]. by intros [?|?]. }
    destruct (readyState sk); try apply evolves_refl; exact He.
Qed.

(** X19.  [OKXDataFeeds] and [DefaultDatafeed] keep at most one socket
    alive: whatever is called and whatever happens, a socket that is
    connecting or open is the one that the handle [_ws] names. *)
Theorem one_live_socket :
  (forall evs i,
     In i (liveSockets (OKX.sockets (OKX.run OKX.init evs))) ->
     OKX._ws (OKX.run OKX.init evs) = Some i) /\
  (forall key evs i,
     In i (liveSockets (Default.sockets (Default.run (Default.init key) evs))) ->
     Default._ws (Default.run (Default.init key) evs) = Some i).
Proof.
  split.
  - intros evs i (s & Hs & Hv)%live_liveSockets.
    destruct (okx_run_inv evs) as [H _]. by eapply H.
  - intros key evs i (s & Hs & Hv)%live_liveSockets.
    destruct (default_run_inv key evs) as (_ & H & _). by eapply H.
Qed.

Lemma one_live_socket_witness :
  let stocks := mkSymbol "AAPL" None None (Some "stocks") in
  let evs := [OKX.Subscribe btc oneMinute firstCallback; OKX.SocketOpened 0;
              OKX.Subscribe stocks oneMinute secondCallback; OKX.SocketOpened 1] in
  In 1%nat (liveSockets (OKX.sockets (OKX.run OKX.init evs))) /\
  OKX._ws (OKX.run OKX.init evs) = Some 1%nat.
Proof.
  intros stocks evs.
  assert (In 1%nat (liveSockets (OKX.sockets (OKX.run OKX.init evs)))) as H
    by (left; reflexivity).
  split; [exact H|exact (proj1 one_live_socket evs 1%nat H)].
Defined.

(** X20.  [DefaultDatafeed] sends nothing on a socket before the
    authentication frame: whatever is called and whatever happens, a socket
    that is connecting has sent nothing, a socket that is open has sent the
    authentication frame with the adapter's key first, and so has every
    socket that has sent anything. *)
Theorem default_auth_first (key : string) (evs : list Default.Event) (i : nat)
    (s : Socket Default.Closure Default.Frame) :
  Default.sockets (Default.run (Default.init key) evs) !! i = Some s ->
  (readyState s = CONNECTING -> sent s = []) /\
  (readyState s = OPEN -> head (sent s) = Some (Default.mkFrame "auth" key)) /\
  (sent s = [] \/ head (sent s) = Some (Default.mkFrame "auth" key)).
Proof.
  intros Hs. destruct (default_run_inv key evs) as (_ & _ & _ & H).
  pose proof (Forall_lookup_1 _ _ _ _ H Hs) as Ha. unfold authFirst in Ha.
  destruct (readyState s); repeat split; try done; auto.
Qed.

Lemma default_auth_first_witness :
  let evs := [Default.Subscribe btc oneMinute firstCallback; Default.SocketOpened 0;
              Default.Subscribe eth oneMinute secondCallback] in
  exists s,
    Default.sockets (Default.run (Default.init "key") evs) !! 0%nat = Some s /\
    length (sent s) = 2%nat /\
    head (sent s) = Some (Default.mkFrame "auth" "key").
Proof.
  intros evs. eexists. split; [reflexivity|]. split; [reflexivity|].
  exact (proj1 (proj2 (default_auth_first "key" evs 0%nat _ eq_refl)) eq_refl).
Defined.

Lemma run_app_okx (st : OKX.State) (evs1 evs2 : list OKX.Event) :
  OKX.run st (evs1 ++ evs2) = OKX.run (OKX.run st evs1) evs2.
Proof. apply fold_left_app. Qed.

Lemma run_app_default (st : Default.State) (evs1 evs2 : list Default.Event) :
  Default.run st (evs1 ++ evs2) = Default.run (Default.run st evs1) evs2.
Proof. apply fold_left_app. Qed.

Lemma okx_run_keeps (st : OKX.State) (evs : list OKX.Event) (i : nat)
    (s : Socket OKX.Closure OKX.Frame) :
  OKX.sockets st !! i = Some s ->
  exists s', OKX.sockets (OKX.run st evs) !! i = Some s' /\
             OKX.pendingCallback (captured s') = OKX.pendingCallback (captured s).
Proof.
  revert st s. induction evs as [|e evs IH]; intros st s Hs; [by exists s|].
  cbn [OKX.run fold_left].
  assert (exists s1, OKX.sockets (OKX.step st e) !! i = Some s1 /\
                     OKX.pendingCallback (captured s1)
                     = OKX.pendingCallback (captured s)) as (s1 & Hs1 & Hf1).
  { destruct (okx_step_evolves st e) as [He|[new ->]].
    - by eapply evolves_keeps.
    - by apply reconnect_keeps. }
  destruct (IH _ _ Hs1) as (s' & Hs' & Hf'). exists s'. split; [done|congruence].
Qed.

Lemma default_run_keeps (st : Default.State) (evs : list Default.Event) (i : nat)
    (s : Socket Default.Closure Default.Frame) :
  Default.sockets st !! i = Some s ->
  exists s', Default.sockets (Default.run st evs) !! i = Some s' /\
             Default.subscriber (captured s') = Default.subscriber (captured s).
Proof.
  revert st s. induction evs as [|e evs IH]; intros st s Hs; [by exists s|].
  cbn [Default.run fold_left].
  assert (exists s1, Default.sockets (Default.step st e) !! i = Some s1 /\
                     Default.subscriber (captured s1)
                     = Default.subscriber (captured s)) as (s1 & Hs1 & Hf1).
  { destruct (default_step_evolves st e) as [He|[new ->]].
    - by eapply evolves_keeps.
    - by apply reconnect_keeps. }
  destruct (IH _ _ Hs1) as (s' & Hs' & Hf'). exists s'. split; [done|congruence].
Qed.

(** X21.  In [OKXDataFeeds] and [DefaultDatafeed] a socket serves one
    subscriber for life: the callback that its handlers captured when
    [subscribe] created it never changes, whatever is called afterwards, and
    every bar that ever reached a callback reached the one captured by the
    socket it arrived on. *)
Theorem socket_serves_one_subscriber :
  (forall evs more,
     (forall i s, OKX.sockets (OKX.run OKX.init evs) !! i = Some s ->
        exists s', OKX.sockets (OKX.run OKX.init (evs ++ more)) !! i = Some s' /\
                   OKX.pendingCallback (captured s')
                   = OKX.pendingCallback (captured s)) /\
     Forall (fun d => exists s,
               OKX.sockets (OKX.run OKX.init evs) !! via d = Some s /\
               receiver d = OKX.pendingCallback (captured s))
            (OKX.delivered (OKX.run OKX.init evs))) /\
  (forall key evs more,
     (forall i s, Default.sockets (Default.run (Default.init key) evs) !! i = Some s ->
        exists s',
          Default.sockets (Default.run (Default.init key) (evs ++ more)) !! i
          = Some s' /\
          Default.subscriber (captured s') = Default.subscriber (captured s)) /\
     Forall (fun d => exists s,
               Default.sockets (Default.run (Default.init key) evs) !! via d
               = Some s /\
               receiver d = Default.subscriber (captured s))
            (Default.delivered (Default.run (Default.init key) evs))).
Proof.
  split.
  - intros evs more. split.
    + intros i s Hs. rewrite run_app_okx. by apply okx_run_keeps.
    + by destruct (okx_run_inv evs) as [_ H].
  - intros key evs more. split.
    + intros i s Hs. rewrite run_app_default. by apply default_run_keeps.
    + by destruct (default_run_inv key evs) as (_ & _ & H & _).
Qed.

Lemma socket_serves_one_subscriber_witness :
  let evs := [OKX.Subscribe btc oneMinute firstCallback; OKX.SocketOpened 0] in
  let more := [OKX.Subscribe btc oneMinute secondCallback] in
  exists s s',
    OKX.sockets (OKX.run OKX.init evs) !! 0%nat = Some s /\
    OKX.sockets (OKX.run OKX.init (evs ++ more)) !! 0%nat = Some s' /\
    OKX.pendingCallback (captured s') = OKX.pendingCallback (captured s).
Proof.
  intros evs more.
  destruct (proj1 (proj1 socket_serves_one_subscriber evs more) 0%nat _ eq_refl)
    as (s' & Hs' & Hf).
  eexists _, s'. split; [reflexivity|]. split; [exact Hs'|exact Hf].
Defined.

(** ** [CCXTDataFeeds]: what [unsubscribe] stops and what it does not *)

Lemma ccxt_idle_step (st : CCXT.State) (e : CCXT.Event) :
  CCXT.isEnvironment e = true -> CCXT._currentCallback st = None ->
  CCXT._currentCallback (CCXT.step st e) = None /\
  CCXT.asked (CCXT.step st e) = CCXT.asked st.
Proof.
  intros He Hc. destruct e as [| |h now|n r|n r now|n]; try discriminate He;
    cbn [CCXT.step].
  - destruct (CCXT.intervals st !! h) as [iv|]; [|done].
    destruct (CCXT.ticking iv); [|done]. unfold CCXT.startFetch. by rewrite Hc.
  - destruct (CCXT.inFlight st !! n) as [k|]; [|done].
    unfold CCXT.finishFetch. destruct r as [ohlcv|err]; [|done].
    destruct (last ohlcv); [|done]. by destruct (CCXT.isNewer _ _).
  - destruct (CCXT.watchers st !! n) as [w|]; [|done].
    destruct (CCXT.phase w); try done. unfold CCXT.watchSettled.
    destruct r as [ohlcv|err].
    + by destruct (last ohlcv).
    + unfold CCXT._subscribePolling, CCXT.startFetch.
      cbn [CCXT.setWatchers CCXT._currentCallback]. by rewrite Hc.
  - destruct (CCXT.watchers st !! n) as [w|]; [|done].
    by destruct (CCXT.phase w).
Qed.

Lemma ccxt_idle_run (st : CCXT.State) (evs : list CCXT.Event) :
  forallb CCXT.isEnvironment evs = true -> CCXT._currentCallback st = None ->
  CCXT._currentCallback (CCXT.run st evs) = None /\
  CCXT.asked (CCXT.run st evs) = CCXT.asked st.
Proof.
  revert st. induction evs as [|e evs IH]; intros st Henv Hc; [done|].
  cbn [forallb] in Henv. apply andb_prop in Henv as [He Henv].
  change (CCXT.run st (e :: evs)) with (CCXT.run (CCXT.step st e) evs).
  destruct (ccxt_idle_step st e He Hc) as [Hc' Ha'].
  destruct (IH _ Henv Hc') as [H1 H2]. split; [done|congruence].
Qed.

(** X22.  [CCXTDataFeeds.unsubscribe] stops the asking, not the answer on
    its way: afterwards, whatever timers fire and whatever settles, no
    further call of [fetchOHLCV] is made until the host subscribes again;
    but a poll that was in flight still hands its latest candle to the
    callback it was started for, whatever its timestamp. *)
Theorem ccxt_unsubscribe_stops_asking (st : CCXT.State) (sym : SymbolInfo)
    (per : Period) :
  (forall evs, forallb CCXT.isEnvironment evs = true ->
     CCXT.asked (CCXT.run (CCXT.unsubscribe sym per st) evs) = CCXT.asked st) /\
  (forall n k ohlcv latest,
     CCXT.inFlight st !! n = Some k -> last ohlcv = Some latest ->
     CCXT.delivered (CCXT.step (CCXT.unsubscribe sym per st)
                               (CCXT.FetchSettled n (Resolved ohlcv)))
     = CCXT.delivered st ++ [(k, CCXT.toKLineData latest)]).
Proof.
  split.
  - intros evs Henv.
    by destruct (ccxt_idle_run (CCXT.unsubscribe sym per st) evs Henv eq_refl).
  - intros n k ohlcv latest Hn Hl. cbn [CCXT.step CCXT.unsubscribe CCXT.inFlight].
    rewrite Hn. unfold CCXT.finishFetch. by rewrite Hl.
Qed.

Lemma ccxt_unsubscribe_stops_asking_witness :
  let st := CCXT.run (CCXT.init false) [CCXT.Subscribe btc oneMinute firstCallback 1000000] in
  CCXT.asked (CCXT.run (CCXT.unsubscribe btc oneMinute st)
                [CCXT.Tick 0 1060000; CCXT.Tick 0 1120000])
  = CCXT.asked st /\
  CCXT.delivered (CCXT.step (CCXT.unsubscribe btc oneMinute st)
                            (CCXT.FetchSettled 0 (Resolved [ccxtCandle 960000])))
  = [(CCXT.mkClosure "BTC/USDT" "1m" firstCallback (Some 60000),
      CCXT.toKLineData (ccxtCandle 960000))].
Proof.
  intros st.
  destruct (ccxt_unsubscribe_stops_asking st btc oneMinute) as [H1 H2].
  split.
  - exact (H1 [CCXT.Tick 0 1060000; CCXT.Tick 0 1120000] eq_refl).
  - exact (H2 0%nat _ [ccxtCandle 960000] (ccxtCandle 960000) eq_refl eq_refl).
Defined.

Lemma polling_increasing_when_nonzero_witness :
  let st := CCXT.run (CCXT.init false)
              [CCXT.Subscribe btc oneMinute firstCallback 1000000] in
  let evs := [CCXT.FetchSettled 0 (Resolved [ccxtCandle 960000]);
              CCXT.Tick 0 1060000;
              CCXT.FetchSettled 0 (Resolved [ccxtCandle 960000]);
              CCXT.Tick 0 1120000;
              CCXT.FetchSettled 0 (Resolved [ccxtCandle 1020000])] in
  CCXT.deliveredTimestamps (CCXT.run st evs) = [960000; 1020000] /\
  StronglySorted Z.lt (CCXT.deliveredTimestamps (CCXT.run st evs)).
Proof.
  intros st evs. split; [reflexivity|].
  apply (polling_increasing_when_nonzero st evs eq_refl eq_refl eq_refl eq_refl).
  repeat constructor; discriminate.
Defined.

Lemma ccxt_at_most_one_timer_witness :
  let evs := [CCXT.Subscribe btc oneMinute firstCallback 1000000;
              CCXT.Subscribe eth oneMinute secondCallback 1001000] in
  CCXT.activeIntervals (CCXT.run (CCXT.init false) evs) = [1%nat] /\
  exists h, In h (CCXT.activeIntervals (CCXT.run (CCXT.init false) evs)) /\
            h = 1%nat.
Proof.
  intros evs. split; [reflexivity|].
  assert (In 1%nat (CCXT.activeIntervals (CCXT.run (CCXT.init false) evs))) as H
    by (left; reflexivity).
  exists 1%nat. split; [exact H|].
  exact (ccxt_at_most_one_timer false evs 1%nat 1%nat H H).
Defined.

Lemma local_switch_before_open_witness :
  let evs := [Local.SocketOpened 0; Local.SocketOpened 1; Local.TimerFired 0;
              Local.SocketClosed 0;
              Local.SocketMessage 1 (Some (OKX.toKLineData (okxCandle 60000)))] in
  let st := Local.run (Local.subscribe eth oneMinute secondCallback
                         (Local.subscribe btc oneMinute firstCallback
                            (Local.init false))) evs in
  length (Local.delivered st) = 1%nat /\
  (captured <$> Local.sockets st !! 1%nat) = Some (Local.channelOf eth oneMinute) /\
  Forall (fun d => via d = 1%nat) (Local.delivered st).
Proof.
  intros evs st.
  assert (Local.channelOf btc oneMinute <> Local.channelOf eth oneMinute) as Hne
    by (vm_compute; discriminate).
  destruct (local_switch_before_open btc eth oneMinute oneMinute
              firstCallback secondCallback evs Hne eq_refl) as (_ & H2 & H3).
  split; [reflexivity|]. split; [exact H2|exact H3].
Defined.

(** ** The chart host *)

Ltac decide_it := apply (bool_decide_unpack _); vm_compute; exact I.

Lemma align_toward_zero (t u : Z) :
  0 < u ->
  Z.rem (t - JS.remainder t u) u = 0 /\
  Z.abs (t - (t - JS.remainder t u)) < u /\
  (0 <= t -> t - JS.remainder t u <= t) /\
  (t <= 0 -> t <= t - JS.remainder t u).
Proof.
  intros Hu. unfold JS.remainder.
  pose proof (Z.quot_rem' t u) as Hq.
  pose proof (Z.rem_bound_abs t u ltac:(lia)) as Hb.
  assert (t - Z.rem t u = (t ÷ u) * u) as -> by lia.
  split; [apply Z.rem_mul; lia|]. split; [lia|]. split.
  - intros Ht. pose proof (Z.rem_nonneg t u ltac:(lia) Ht). lia.
  - intros Ht. pose proof (Z.rem_nonpos t u ltac:(lia) Ht). lia.
Qed.

(** X26.  [adjustFromTo] for minute, hour and day periods: the end of the
    window is the requested time moved toward zero onto the grid (the
    minute for minute periods, the hour for hour and for day periods), so at
    or before it for a time after the epoch and at or after it for a time
    before the epoch; and the window is [count] bars long. *)
Theorem adjust_window_on_grid (cal : Chart.Calendar) (p : Period)
    (t count grid bar : Z) :
  (timespan p, grid, bar) ∈ [("minute", 60000, 60000);
                              ("hour", 3600000, 3600000);
                              ("day", 3600000, 86400000)] ->
  let from := fst (Chart.adjustFromTo cal p t count) in
  let to := snd (Chart.adjustFromTo cal p t count) in
  Z.rem to grid = 0 /\ Z.abs (t - to) < grid /\
  (0 <= t -> to <= t) /\ (t <= 0 -> t <= to) /\
  to - from = count * multiplier p * bar.
Proof.
  intros H. rewrite !elem_of_cons, elem_of_nil in H.
  unfold Chart.adjustFromTo.
  destruct H as [H|[H|[H|[]]]]; injection H as -> -> ->; cbn [String.eqb Ascii.eqb Bool.eqb fst snd];
    cbv zeta; cbn [fst snd].
  - destruct (align_toward_zero t (60 * 1000) ltac:(lia)) as (H1 & H2 & H3 & H4).
    repeat split; [done..|lia].
  - destruct (align_toward_zero t (60 * 60 * 1000) ltac:(lia)) as (H1 & H2 & H3 & H4).
    repeat split; [done..|lia].
  - destruct (align_toward_zero t (60 * 60 * 1000) ltac:(lia)) as (H1 & H2 & H3 & H4).
    repeat split; [done..|lia].
Qed.

Lemma adjust_window_on_grid_witness :
  let cal := Chart.mkCalendar (fun _ => 0) (fun _ => 1970) (fun _ => 0)
                              (fun _ => 1) (fun _ => 0) in
  Chart.adjustFromTo cal (mkPeriod 1 "day" "1D") 1700000123456 500
  = (1656799200000, 1699999200000) /\
  Z.rem 1699999200000 3600000 = 0 /\
  1699999200000 - 1656799200000 = 500 * 1 * 86400000.
Proof.
  intros cal.
  destruct (adjust_window_on_grid cal (mkPeriod 1 "day" "1D") 1700000123456 500
              3600000 86400000 ltac:(decide_it)) as (H1 & _ & _ & _ & H2).
  split; [reflexivity|]. split; [exact H1|exact H2].
Defined.

(** X27.  [adjustFromTo] for week, month and year periods computes the
    start of the window without looking at the requested end; for a week
    period with a multiplier of at least one, the window that a backward
    page asks for therefore starts after it ends. *)
Theorem adjust_long_units_ignore_end (cal : Chart.Calendar) (p : Period)
    (count : Z) :
  (timespan p ∈ ["week"; "month"; "year"] ->
   forall t t', fst (Chart.adjustFromTo cal p t count)
                = fst (Chart.adjustFromTo cal p t' count)) /\
  (timespan p = "week" -> 1 <= multiplier p ->
   forall t,
     let to := fst (Chart.adjustFromTo cal p t 1) in
     let from := fst (Chart.adjustFromTo cal p to 500) in
     to < from).
Proof.
  unfold Chart.adjustFromTo. split.
  - intros H t t'. rewrite !elem_of_cons, elem_of_nil in H.
    by destruct H as [->|[->|[->|[]]]].
  - intros -> Hm t. cbn [String.eqb Ascii.eqb Bool.eqb fst]. cbv zeta. cbn [fst]. lia.
Qed.

Lemma adjust_long_units_ignore_end_witness :
  let cal := Chart.mkCalendar (fun _ => 0) (fun _ => 1970) (fun _ => 0)
                              (fun _ => 1) (fun _ => 0) in
  let p := mkPeriod 1 "week" "1W" in
  fst (Chart.adjustFromTo cal p 1700000000000 500)
  = fst (Chart.adjustFromTo cal p 0 500) /\
  fst (Chart.adjustFromTo cal p 1700000000000 1)
  < fst (Chart.adjustFromTo cal p (fst (Chart.adjustFromTo cal p 1700000000000 1)) 500).
Proof.
  intros cal p.
  destruct (adjust_long_units_ignore_end cal p 500) as [H1 _].
  destruct (adjust_long_units_ignore_end cal p 1) as [_ H2].
  split; [exact (H1 ltac:(decide_it) 1700000000000 0)|].
  exact (H2 eq_refl ltac:(done) 1700000000000).
Defined.

Lemma adjust_aligned_again (cal : Chart.Calendar) (p : Period) (t : Z) :
  timespan p ∈ ["minute"; "hour"; "day"] ->
  Chart.adjustFromTo cal p (fst (Chart.adjustFromTo cal p t 1)) 500
  = (fst (Chart.adjustFromTo cal p (fst (Chart.adjustFromTo cal p t 1)) 500),
     fst (Chart.adjustFromTo cal p t 1)).
Proof.
  intros H. rewrite !elem_of_cons, elem_of_nil in H.
  assert (forall u k, 0 < u ->
            t - JS.remainder t u - k * u
            - JS.remainder (t - JS.remainder t u - k * u) u
            = t - JS.remainder t u - k * u) as Hal.
  { intros u k Hu. unfold JS.remainder.
    pose proof (Z.quot_rem' t u) as Hq.
    assert (t - Z.rem t u - k * u = (t ÷ u - k) * u) as -> by lia.
    rewrite Z.rem_mul by lia. lia. }
  unfold Chart.adjustFromTo.
  destruct H as [H|[H|[H|[]]]]; rewrite H;
    cbn [String.eqb Ascii.eqb Bool.eqb fst snd]; cbv zeta; cbn [fst snd]; f_equal.
  - replace (1 * multiplier p * 60 * 1000) with (multiplier p * (60 * 1000)) by lia.
    apply (Hal (60 * 1000) (multiplier p)). lia.
  - replace (1 * multiplier p * 60 * 60 * 1000)
      with (multiplier p * (60 * 60 * 1000)) by lia.
    apply (Hal (60 * 60 * 1000) (multiplier p)). lia.
  - replace (1 * multiplier p * 24 * 60 * 60 * 1000)
      with (multiplier p * 24 * (60 * 60 * 1000)) by lia.
    apply (Hal (60 * 60 * 1000) (multiplier p * 24)). lia.
Qed.

(** X28.  The data loader's [getBars] never rejects and calls the chart
    back exactly once, with the bars and with [more] set exactly when there
    are bars, leaving [loading] cleared; when the datafeed rejects, the one
    call carries no bars.  For minute, hour and day periods a backward page
    is the initial page of the time one bar before the grid time of the
    requested one. *)
Theorem getBars_calls_back_once {W} (cal : Chart.Calendar)
    (history : SymbolInfo -> Period -> Z -> Z -> IO W (list KLineData))
    (type : string) (timestamp : option Z) (now : Z) (s : SymbolInfo) (p : Period)
    (w : W) :
  (exists bars w',
     Chart.getBars cal history type timestamp now s p w
     = (Resolved ([(bars, negb (bool_decide (bars = [])))], false), w')) /\
  ((forall from to w0, exists e w1, history s p from to w0 = (Rejected e, w1)) ->
   fst (Chart.getBars cal history type timestamp now s p w)
   = Resolved ([([], false)], false)) /\
  (timespan p ∈ ["minute"; "hour"; "day"] ->
   Chart.getBars cal history "backward" timestamp now s p w
   = Chart.getBars cal history "init"
       (Some (fst (Chart.adjustFromTo cal p (default now timestamp) 1))) now s p w).
Proof.
  split; [|split].
  - unfold Chart.getBars, bind, tryCatch, ret, Chart.answer.
    destruct (String.eqb type "init" || String.eqb type "forward").
    + destruct (Chart.adjustFromTo cal p (default now timestamp) 500) as [from to].
      destruct (history s p from to w) as [[l|e] w'];
        [by exists l, w'|by exists [], w'].
    + destruct (String.eqb type "backward"); [|by exists [], w].
      destruct (history s p _ _ w) as [[l|e] w'];
        [by exists l, w'|by exists [], w'].
  - intros Hrej. unfold Chart.getBars, bind, tryCatch, ret, Chart.answer.
    destruct (String.eqb type "init" || String.eqb type "forward").
    + destruct (Chart.adjustFromTo cal p (default now timestamp) 500) as [from to].
      by destruct (Hrej from to w) as (e & w1 & ->).
    + destruct (String.eqb type "backward"); [|done].
      match goal with |- context [history s p ?a ?b w] =>
        by destruct (Hrej a b w) as (e & w1 & ->) end.
  - intros Hp.
    pose proof (adjust_aligned_again cal p (default now timestamp) Hp) as E.
    unfold Chart.getBars. cbn [String.eqb Ascii.eqb Bool.eqb orb].
    set (X := fst (Chart.adjustFromTo cal p (default now timestamp) 1)) in *.
    change (default now (Some X)) with X.
    destruct (Chart.adjustFromTo cal p X 500) as [from to].
    cbn [fst] in *. by injection E as ->.
Qed.

Lemma getBars_calls_back_once_witness :
  let cal := Chart.mkCalendar (fun _ => 0) (fun _ => 1970) (fun _ => 0)
                              (fun _ => 1) (fun _ => 0) in
  let failing (_ : SymbolInfo) (_ : Period) (from to : Z)
    : IO (list (Z * Z)) (list KLineData) :=
    fun w => (Rejected (mkError "Failed to fetch"), w ++ [(from, to)]) in
  Chart.getBars cal failing "backward" (Some 1700000123456) 0 btc oneMinute []
  = (Resolved ([([], false)], false), [(1699970040000, 1700000040000)]) /\
  Chart.getBars cal failing "backward" (Some 1700000123456) 0 btc oneMinute []
  = Chart.getBars cal failing "init" (Some 1700000040000) 0 btc oneMinute [].
Proof.
  intros cal failing. split; [reflexivity|].
  destruct (getBars_calls_back_once cal failing "backward" (Some 1700000123456) 0
              btc oneMinute []) as (_ & _ & H).
  exact (H ltac:(decide_it)).
Defined.

(** X29.  The effect on symbol and period: while a load is running or
    without a chart it does nothing and hands on what it was given;
    otherwise it first unsubscribes the previous pair, if there is one; and
    when it runs again with the symbol and period it has just handled, it
    unsubscribes them from the datafeed and sets neither on the chart. *)
Theorem effect_rerun_only_unsubscribes (prev : option (SymbolInfo * Period))
    (s : SymbolInfo) (p : Period) :
  (forall loading hasWidget,
     loading = true \/ hasWidget = false ->
     Chart.symbolPeriodEffect loading hasWidget prev s p = ([], prev)) /\
  (forall ps pp, prev = Some (ps, pp) ->
     head (fst (Chart.symbolPeriodEffect false true prev s p))
     = Some (Chart.UnsubscribeDatafeed ps pp)) /\
  Chart.symbolPeriodEffect false true
    (snd (Chart.symbolPeriodEffect false true prev s p)) s p
  = ([Chart.UnsubscribeDatafeed s p], Some (s, p)).
Proof.
  split; [|split].
  - intros loading hasWidget [-> | ->]; unfold Chart.symbolPeriodEffect;
      [done|by destruct loading].
  - by intros ps pp ->.
  - unfold Chart.symbolPeriodEffect. cbn [negb andb snd].
    by rewrite !String.eqb_refl.
Qed.

Lemma effect_rerun_only_unsubscribes_witness :
  Chart.symbolPeriodEffect true true (Some (btc, oneMinute)) eth fiveMinutes
  = ([], Some (btc, oneMinute)) /\
  head (fst (Chart.symbolPeriodEffect false true (Some (btc, oneMinute)) eth fiveMinutes))
  = Some (Chart.UnsubscribeDatafeed btc oneMinute).
Proof.
  destruct (effect_rerun_only_unsubscribes (Some (btc, oneMinute)) eth fiveMinutes)
    as (H1 & H2 & _).
  split; [exact (H1 true true (or_introl eq_refl))|exact (H2 _ _ eq_refl)].
Defined.

Lemma indexOf_absent (name : string) (l : list string) :
  name ∉ l -> Chart.indexOf name l = None.
Proof.
  induction l as [|x l IH]; [done|]. intros H.
  apply not_elem_of_cons in H as [Hne Hl]. cbn [Chart.indexOf].
  destruct (String.eqb_spec x name); [congruence|]. by rewrite IH.
Qed.

Lemma indexOf_first (name : string) (l1 l2 : list string) :
  name ∉ l1 -> Chart.indexOf name (l1 ++ name :: l2) = Some (length l1).
Proof.
  induction l1 as [|x l1 IH]; intros H; cbn [app Chart.indexOf length].
  - by rewrite String.eqb_refl.
  - apply not_elem_of_cons in H as [Hne Hl].
    destruct (String.eqb_spec x name); [congruence|]. by rewrite IH.
Qed.

(** X30.  Removing an indicator from the list of main indicators
    ([splice] at [indexOf]): the first entry of that name goes and nothing
    else; but for a name that is not in the list, the last entry goes. *)
Theorem removeIndicator_first_or_last (name : string) (l : list string) :
  (forall l1 l2, l = l1 ++ name :: l2 -> name ∉ l1 ->
     Chart.removeIndicator name l = l1 ++ l2) /\
  (name ∉ l -> Chart.removeIndicator name l = removelast l).
Proof.
  unfold Chart.removeIndicator. split.
  - intros l1 l2 -> H. rewrite indexOf_first by done. apply delete_middle.
  - intros H. by rewrite indexOf_absent.
Qed.

Lemma removeIndicator_first_or_last_witness :
  Chart.removeIndicator "MA" ["EMA"; "MA"; "BOLL"; "MA"] = ["EMA"; "BOLL"; "MA"] /\
  Chart.removeIndicator "SAR" ["EMA"; "MA"; "BOLL"] = ["EMA"; "MA"].
Proof.
  split.
  - exact (proj1 (removeIndicator_first_or_last "MA" ["EMA"; "MA"; "BOLL"; "MA"])
                 ["EMA"] ["BOLL"; "MA"] eq_refl ltac:(decide_it)).
  - exact (proj2 (removeIndicator_first_or_last "SAR" ["EMA"; "MA"; "BOLL"])
                 ltac:(decide_it)).
Defined.
